(** * HNA tracker: the scrapers of standings, player stats and goalie stats

    A shallow embedding of [src/scraper.ts], [src/playerStatsScraper.ts]
    and [src/goalieStatsScraper.ts], together with the parts of the
    JavaScript runtime and of the cheerio library these files call.

    Conventions of the model:
    - text is a [string] of 8-bit code units (the Latin-1 range of
      JavaScript's UTF-16 strings);
    - a number is an IEEE double: NaN, an infinity, or a finite double
      given by its exact value as a reduced fraction ([Q] under [Qred]);
      [parseInt] and [parseFloat] round the value they read to the nearest
      double, ties to even, and overflow to an infinity; array lengths and
      indices, which stay far below [2 ^ 53], are integers ([Z]);
    - a parsed page is a tree of [Cheerio.node]s; the HTML parser itself
      ([cheerio.load]) is outside the model, a response carries the tree
      that the parser builds from its body;
    - the network, the clock and the console are threaded explicitly. *)

From stdpp Require Import gmap strings list fin_maps pretty.
From Stdlib Require Import ZArith QArith Ascii String Lia Sorted Permutation.
From Stdlib Require Qcanon.

Local Open Scope Z_scope.
Local Open Scope string_scope.
Local Open Scope list_scope.

(* ===================================================================== *)
(** ** The JavaScript primitives used by the scrapers *)
(* ===================================================================== *)

Module JS.

(** WhiteSpace and LineTerminator code units below 256: TAB, LF, VT, FF,
    CR, SP and NBSP.  [trim], [parseInt] and [parseFloat] all strip this
    set. *)
Definition isWhiteSpace (c : ascii) : bool :=
  let n := N_of_ascii c in
  (((9 <=? n) && (n <=? 13)) || (n =? 32) || (n =? 160))%N.

Definition isDigit (c : ascii) : bool :=
  let n := N_of_ascii c in ((48 <=? n) && (n <=? 57))%N.

Definition digitValue (c : ascii) : Z := Z.of_N (N_of_ascii c) - 48.

Definition isEmpty (s : string) : bool :=
  match s with EmptyString => true | String _ _ => false end.

Fixpoint trimStart (s : string) : string :=
  match s with
  | EmptyString => EmptyString
  | String c r => if isWhiteSpace c then trimStart r else s
  end.

Fixpoint trimEnd (s : string) : string :=
  match s with
  | EmptyString => EmptyString
  | String c r =>
      let r' := trimEnd r in
      if isWhiteSpace c && isEmpty r' then EmptyString else String c r'
  end.

(** [String.prototype.trim] *)
Definition trim (s : string) : string := trimEnd (trimStart s).

(** Case mapping of one code unit below 256: A-Z, and the Latin-1 capitals
    0xC0-0xDE without the multiplication sign 0xD7. *)
Definition lowerChar (c : ascii) : ascii :=
  let n := N_of_ascii c in
  if (((65 <=? n) && (n <=? 90))
      || ((192 <=? n) && (n <=? 222) && negb (n =? 215)))%N
  then ascii_of_N (n + 32) else c.

(** [String.prototype.toLowerCase] *)
Fixpoint toLowerCase (s : string) : string :=
  match s with
  | EmptyString => EmptyString
  | String c r => String (lowerChar c) (toLowerCase r)
  end.

(** [String.prototype.includes] *)
Fixpoint includes (s sub : string) : bool :=
  String.prefix sub s
  || match s with
     | EmptyString => false
     | String _ r => includes r sub
     end.

(** [String.prototype.split] for a separator of one character; the result
    is never empty. *)
Fixpoint split (sep : ascii) (s : string) : list string :=
  match s with
  | EmptyString => [EmptyString]
  | String c r =>
      if Ascii.eqb c sep then EmptyString :: split sep r
      else match split sep r with
           | w :: ws => String c w :: ws
           | [] => [String c EmptyString]
           end
  end.

(** Longest prefix of decimal digits, and the rest. *)
Fixpoint spanDigits (s : string) : list ascii * string :=
  match s with
  | EmptyString => ([], EmptyString)
  | String c r =>
      if isDigit c
      then let '(ds, rest) := spanDigits r in (c :: ds, rest)
      else ([], s)
  end.

Definition digitsValue (ds : list ascii) : Z :=
  fold_left (fun acc c => 10 * acc + digitValue c) ds 0.

(** An optional sign: [true] for a minus. *)
Definition takeSign (s : string) : bool * string :=
  match s with
  | String c r =>
      if Ascii.eqb c "-" then (true, r)
      else if Ascii.eqb c "+" then (false, r)
      else (false, s)
  | EmptyString => (false, s)
  end.

Definition applySign (neg : bool) (z : Z) : Z := if neg then - z else z.

(** The Number values that the scrapers can hold: NaN, the two infinities
    and the finite doubles, a finite double being given by its exact value
    as a reduced fraction.  The sign of a zero is not kept: every number
    that the scrapers read goes through [|| 0], which turns both zeros
    into the positive one. *)
Inductive number : Type :=
  | NaN
  | Infinity (negative : bool)
  | Finite (q : Q).

(** An integer as a number. *)
Definition int (z : Z) : number := Finite (inject_Z z).

(** The integer nearest to [a / b], for [0 < b]; of two that are equally
    near, the even one. *)
Definition roundHalfEven (a b : Z) : Z :=
  let q := a / b in
  match (2 * (a mod b) ?= b)%Z with
  | Lt => q
  | Eq => if Z.even q then q else q + 1
  | Gt => q + 1
  end.

(** [(n / d) / 2 ^ e] as a fraction of integers. *)
Definition scaled (n d e : Z) : Z * Z :=
  (n * 2 ^ Z.max 0 (- e), d * 2 ^ Z.max 0 e).

(** The [e] with [2 ^ e <= n / d < 2 ^ (e + 1)], for positive [n] and [d]. *)
Definition binade (n d : Z) : Z :=
  let e := Z.log2 n - Z.log2 d in
  let '(a, b) := scaled n d e in
  if (a <? b)%Z then e - 1 else e.

(** The double nearest to [n / d], for positive [n] and [d]: a multiple of
    [2 ^ u], where [u] leaves 53 significant bits and is at least -1074,
    the exponent of the subnormal doubles; from [2 ^ 1024] on, infinity. *)
Definition nearestDouble (n d : Z) : number :=
  let u := Z.max (binade n d - 52) (-1074) in
  let '(a, b) := scaled n d u in
  let m := roundHalfEven a b in
  if (2 ^ 1024 <=? m * 2 ^ Z.max 0 u)%Z then Infinity false
  else Finite (Qred (m * 2 ^ Z.max 0 u # Z.to_pos (2 ^ Z.max 0 (- u)))).

Definition negate (x : number) : number :=
  match x with
  | NaN => NaN
  | Infinity negative => Infinity (negb negative)
  | Finite q => Finite (- q)
  end.

(** The Number value for a rational: the double nearest to it, ties to
    even. *)
Definition numberValue (q : Q) : number :=
  let r := Qred q in
  match Qnum r with
  | Z0 => Finite 0
  | Zpos n => nearestDouble (Zpos n) (Zpos (Qden r))
  | Zneg n => negate (nearestDouble (Zpos n) (Zpos (Qden r)))
  end.

(** [parseInt(s, 10)]: the Number value for the integer that the leading
    digits denote.  (ECMAScript lets an implementation read the digits
    after the 20th as zeros; V8, which runs the scrapers, rounds the exact
    integer.) *)
Definition parseInt (s : string) : number :=
  let '(neg, s2) := takeSign (trimStart s) in
  let '(ds, _) := spanDigits s2 in
  match ds with
  | [] => NaN
  | _ :: _ => numberValue (inject_Z (applySign neg (digitsValue ds)))
  end.

(** [... || 0]: NaN and the zeros are the falsy numbers. *)
Definition orZero (n : number) : number :=
  match n with
  | NaN => Finite 0
  | Infinity neg => Infinity neg
  | Finite q => Finite q
  end.

Definition pow10 (e : Z) : Q :=
  if (0 <=? e)%Z then inject_Z (10 ^ e) else Qinv (inject_Z (10 ^ (- e))).

(** The optional ExponentPart: [e] or [E], an optional sign and at least
    one digit; without a digit nothing is consumed. *)
Definition exponentPart (s : string) : Z :=
  match s with
  | String c r =>
      if (Ascii.eqb c "e" || Ascii.eqb c "E")%bool then
        let '(neg, r2) := takeSign r in
        let '(ds, _) := spanDigits r2 in
        match ds with
        | [] => 0
        | _ :: _ => applySign neg (digitsValue ds)
        end
      else 0
  | EmptyString => 0
  end.

(** [parseFloat(s)]: the Number value for the longest prefix of the text,
    after leading white space, that is a StrDecimalLiteral. *)
Definition parseFloat (s : string) : number :=
  let '(neg, s2) := takeSign (trimStart s) in
  if String.prefix "Infinity" s2 then Infinity neg
  else
    let '(ip, r1) := spanDigits s2 in
    let '(fp, r2) :=
      match r1 with
      | String c r => if Ascii.eqb c "." then spanDigits r else ([], r1)
      | EmptyString => ([], r1)
      end in
    match ip ++ fp with
    | [] => NaN
    | _ :: _ =>
        let m := applySign neg (digitsValue (ip ++ fp)) in
        let e := exponentPart r2 - Z.of_nat (List.length fp) in
        numberValue (inject_Z m * pow10 e)
    end.

End JS.

(* ===================================================================== *)
(** ** The part of cheerio used by the scrapers *)
(* ===================================================================== *)

Module Cheerio.

#[local] Set Warnings "-register-all".

(** A parsed page.  Element names are lower case, as the HTML parser
    produces them; [classes] are the tokens of the class attribute. *)
Inductive node : Type :=
  | Text (data : string)
  | Element (name : string) (classes : list string) (children : list node).

(** One element of a selection: its position in the page (the child
    indices from the document node down) and its subtree. *)
Record elt : Type := { path : list nat; tree : node }.

Definition selection : Type := list elt.

(** *** Selectors: comma lists of descendant chains of [tag.class.class] *)

Record compound : Type := { tag : option string; withClasses : list string }.

Record complex : Type := { ancestors : list compound; subject : compound }.

Definition parseCompound (s : string) : compound :=
  match JS.split "." s with
  | t :: cls => {| tag := if JS.isEmpty t then None else Some t;
                   withClasses := cls |}
  | [] => {| tag := None; withClasses := [] |}
  end.

Definition parseComplex (s : string) : option complex :=
  let parts := List.filter (fun w => negb (JS.isEmpty w)) (JS.split " " s) in
  match rev parts with
  | last :: before =>
      Some {| ancestors := map parseCompound (rev before);
              subject := parseCompound last |}
  | [] => None
  end.

Definition parseSelector (s : string) : list complex :=
  omap parseComplex (JS.split "," s).

Definition matchesCompound (c : compound) (n : node) : bool :=
  match n with
  | Text _ => false
  | Element name cls _ =>
      match tag c with
      | Some t => String.eqb t name
      | None => true
      end
      && forallb (fun k => existsb (String.eqb k) cls) (withClasses c)
  end.

(** The descendant combinator: [cs] must match, in order, some of the
    elements [anc] that lie between the context and the candidate (listed
    from the outermost inwards). *)
Fixpoint matchesChain (cs : list compound) (anc : list node) : bool :=
  match cs with
  | [] => true
  | c :: cs' =>
      match anc with
      | [] => false
      | a :: anc' =>
          if matchesCompound c a then matchesChain cs' anc'
          else matchesChain cs anc'
      end
  end.

Definition matchesComplex (anc : list node) (n : node) (cx : complex) : bool :=
  matchesCompound (subject cx) n && matchesChain (ancestors cx) anc.

(** [f] over a list and its indices, counted from [i]. *)
Fixpoint mapIndexed {A B : Type} (f : nat -> A -> B) (i : nat) (l : list A)
  : list B :=
  match l with
  | [] => []
  | x :: l' => f i x :: mapIndexed f (S i) l'
  end.

(** All element descendants of [n] in document order, each with the
    elements strictly between [n] and itself. *)
Fixpoint descendants (anc : list node) (p : list nat) (n : node)
  {struct n} : list (list node * elt) :=
  match n with
  | Text _ => []
  | Element _ _ cs =>
      List.concat
        (mapIndexed
           (fun i c =>
              match c with
              | Text _ => []
              | Element _ _ _ =>
                  (anc, {| path := p ++ [i]; tree := c |})
                    :: descendants (anc ++ [c]) (p ++ [i]) c
              end)
           0%nat cs)
  end.

Definition find1 (sel : list complex) (e : elt) : selection :=
  map snd
    (List.filter (fun '(anc, x) => existsb (matchesComplex anc (tree x)) sel)
       (descendants [] (path e) (tree e))).

Fixpoint strictPrefix (p q : list nat) : bool :=
  match p, q with
  | [], _ :: _ => true
  | a :: p', b :: q' => Nat.eqb a b && strictPrefix p' q'
  | _, _ => false
  end.

(** Contexts that lie inside another context are searched only once. *)
Definition removeSubsets (s : selection) : selection :=
  List.filter
    (fun e => negb (existsb (fun e' => strictPrefix (path e') (path e)) s)) s.

(** [.find(selector)]: the descendants of the selected elements that match
    the selector within them, in document order. *)
Definition find (sel : string) (s : selection) : selection :=
  flat_map (find1 (parseSelector sel)) (removeSubsets s).

(** [cheerio.load(html)] followed by [$(selector)]: a query of the whole
    page, whose root is the document node. *)
Definition load (doc : node) : selection := [{| path := []; tree := doc |}].

Fixpoint textContent (n : node) : string :=
  match n with
  | Text s => s
  | Element _ _ cs => fold_right String.append EmptyString (map textContent cs)
  end.

(** [.text()]: the text of every selected element, concatenated. *)
Definition text (s : selection) : string :=
  fold_right String.append EmptyString (map (fun e => textContent (tree e)) s).

(** [.each(function (index) {...})] for a callback that updates the
    variables [St] it closes over and does not break off. *)
Fixpoint eachFrom {St : Type} (i : nat) (f : nat -> elt -> St -> St)
  (s : selection) (st : St) : St :=
  match s with
  | [] => st
  | e :: s' => eachFrom (S i) f s' (f i e st)
  end.

Definition each {St : Type} (f : nat -> elt -> St -> St) (s : selection)
  (st : St) : St := eachFrom 0 f s st.

(** [.first()] and [.eq(i)] for [i >= 0] *)
Definition first (s : selection) : selection :=
  match s with
  | [] => []
  | e :: _ => [e]
  end.

Definition eq (i : nat) (s : selection) : selection :=
  match nth_error s i with
  | Some e => [e]
  | None => []
  end.

End Cheerio.

(* ===================================================================== *)
(** ** types.ts *)
(* ===================================================================== *)

Module Team.
Record TeamStanding : Type := mk {
  team : string;
  abbr : option string;
  gp : JS.number;
  w : JS.number;
  l : JS.number;
  t : JS.number;
  otl : JS.number;
  pts : JS.number;
  wpct : JS.number;
  position : Z }.
End Team.

Module Player.
Record PlayerStats : Type := mk {
  rank : Z;
  name : string;
  jerseyNumber : string;
  position : string;
  team : string;
  gp : JS.number;
  goals : JS.number;
  assists : JS.number;
  points : JS.number;
  pointsPerGame : JS.number;
  ppg : JS.number;
  ppa : JS.number;
  shg : JS.number;
  sha : JS.number;
  gwg : JS.number;
  pim : JS.number }.
End Player.

Module Goalie.
Record GoalieStats : Type := mk {
  rank : Z;
  name : string;
  team : string;
  gp : JS.number;
  w : JS.number;
  l : JS.number;
  t : JS.number;
  otl : JS.number;
  so : JS.number;
  mp : JS.number;
  ga : JS.number;
  gaa : JS.number;
  gsaa : JS.number;
  sa : JS.number;
  sv : JS.number;
  svPct : JS.number;
  goals : JS.number;
  assists : JS.number;
  pim : JS.number }.
End Goalie.

(** [DailySnapshot], [PlayerStatsSnapshot] and [GoalieStatsSnapshot]: a date
    and the records of each division, keyed by the division's name. *)
Record Snapshot (R : Type) : Type := mkSnapshot {
  date : string;
  divisions : gmap string (list R) }.

Arguments mkSnapshot {R} _ _.
Arguments date {R} _.
Arguments divisions {R} _.

Definition DIVISION_NAMES : list string :=
  ["1-BRODEUR"; "2-MANNO"; "3-STEVENS NORTH"; "3-STEVENS SOUTH"].

Definition DIVISION_IDS : gmap string string :=
  list_to_map
    [("1-BRODEUR", "129531"); ("2-MANNO", "129533");
     ("3-STEVENS NORTH", "129532"); ("3-STEVENS SOUTH", "130945")].

(** A property read in a template literal; a missing one prints as
    [undefined]. *)
Definition divisionId (divisionName : string) : string :=
  default "undefined" (DIVISION_IDS !! divisionName).

(* ===================================================================== *)
(** ** Decoding of pages: the synchronous part of the three scrapers *)
(* ===================================================================== *)

(** [parseInt(cells.eq(i).text().trim(), 10) || 0] *)
Definition intCell (cells : Cheerio.selection) (i : nat) : JS.number :=
  JS.orZero (JS.parseInt (JS.trim (Cheerio.text (Cheerio.eq i cells)))).

(** [parseFloat(cells.eq(i).text().trim()) || 0] *)
Definition floatCell (cells : Cheerio.selection) (i : nat) : JS.number :=
  JS.orZero (JS.parseFloat (JS.trim (Cheerio.text (Cheerio.eq i cells)))).

(** [cells.eq(i).text().trim()] *)
Definition textCell (cells : Cheerio.selection) (i : nat) : string :=
  JS.trim (Cheerio.text (Cheerio.eq i cells)).

(** *** scraper.ts *)

(** The inner [rows.each] of the table scan: the flag is set at the first
    row with 8 cells or more, and the loop breaks there. *)
Fixpoint hasStandingsData (rows : Cheerio.selection) : bool :=
  match rows with
  | [] => false
  | row :: rest =>
      let cells := Cheerio.find "td" [row] in
      if (8 <=? List.length cells)%nat then true else hasStandingsData rest
  end.

(** [$('table').each]: the tables that look like standings, in page order. *)
Definition standingsTables (page : Cheerio.selection) : Cheerio.selection :=
  Cheerio.each
    (fun _ this tables =>
       let tbody := Cheerio.find "tbody" [this] in
       let rows := Cheerio.find "tr" tbody in
       if hasStandingsData rows then tables ++ [this] else tables)
    (Cheerio.find "table" page) [].

(** The team name of the first cell of a row. *)
Definition teamNameOf (teamCell : Cheerio.selection) : string :=
  let teamLink := Cheerio.find "a" teamCell in
  if (0 <? List.length teamLink)%nat then
    let fullNameSpan := Cheerio.find "span.d-sm-inline" teamLink in
    if (0 <? List.length fullNameSpan)%nat
    then JS.trim (Cheerio.text fullNameSpan)
    else JS.trim (Cheerio.text teamLink)
  else JS.trim (Cheerio.text teamCell).

(** The callback of [rows.each] in [scrapeStandings]; [teams] is the array
    it pushes to. *)
Definition standingsRow (this : Cheerio.elt) (teams : list Team.TeamStanding)
  : list Team.TeamStanding :=
  let cells := Cheerio.find "td" [this] in
  if (8 <=? List.length cells)%nat then
    let teamName := teamNameOf (Cheerio.eq 0 cells) in
    if JS.isEmpty teamName || String.eqb (JS.toLowerCase teamName) "team"
    then teams
    else
      teams ++
      [ {| Team.team := teamName;
           Team.abbr := None;
           Team.gp := intCell cells 1;
           Team.w := intCell cells 2;
           Team.l := intCell cells 3;
           Team.t := intCell cells 4;
           Team.otl := intCell cells 5;
           Team.pts := intCell cells 6;
           Team.wpct := floatCell cells 7;
           Team.position := Z.of_nat (List.length teams) + 1 |} ]
  else teams.

(** The records of one standings table. *)
Definition standingsOfTable (table : Cheerio.selection) : list Team.TeamStanding :=
  let rows := Cheerio.find "tbody tr" table in
  Cheerio.each (fun _ this teams => standingsRow this teams) rows [].

(** The body of [DIVISION_NAMES.forEach]: the teams of the division at
    [index]. *)
Definition standingsOfDivision (tables : Cheerio.selection) (index : nat)
  : list Team.TeamStanding :=
  if (index <? List.length tables)%nat
  then standingsOfTable (Cheerio.eq index tables)
  else [].

(** *** playerStatsScraper.ts *)

Definition playerNameOf (playerCell : Cheerio.selection) : string :=
  let playerLink := Cheerio.find "a" playerCell in
  if (0 <? List.length playerLink)%nat
  then JS.trim (Cheerio.text playerLink)
  else JS.trim (Cheerio.text playerCell).

(** The callback of [rows.each] in [scrapeDivisionStats]. *)
Definition playerRow (index : nat) (this : Cheerio.elt)
  (players : list Player.PlayerStats) : list Player.PlayerStats :=
  let cells := Cheerio.find "td" [this] in
  if (16 <=? List.length cells)%nat then
    let playerName := playerNameOf (Cheerio.eq 1 cells) in
    if JS.isEmpty playerName
       || String.eqb (JS.toLowerCase playerName) "player"
       || String.eqb playerName ""
    then players
    else
      players ++
      [ {| Player.rank := Z.of_nat index + 1;
           Player.name := playerName;
           Player.jerseyNumber := textCell cells 2;
           Player.position := textCell cells 3;
           Player.team := textCell cells 4;
           Player.gp := intCell cells 5;
           Player.goals := intCell cells 6;
           Player.assists := intCell cells 7;
           Player.points := intCell cells 8;
           Player.pointsPerGame := floatCell cells 9;
           Player.ppg := intCell cells 10;
           Player.ppa := intCell cells 11;
           Player.shg := intCell cells 12;
           Player.sha := intCell cells 13;
           Player.gwg := intCell cells 14;
           Player.pim := intCell cells 15 |} ]
  else players.

(** The test of the table scan: the text of the first row, in lower case,
    names the player, games and points columns. *)
Definition isPlayerStatsTable (table : Cheerio.selection) : bool :=
  let headerRow := Cheerio.first (Cheerio.find "thead tr, tr" table) in
  let headerText := JS.toLowerCase (Cheerio.text headerRow) in
  JS.includes headerText "player"
  && JS.includes headerText "gp"
  && JS.includes headerText "pts".

(** [$("table").each] in [scrapeDivisionStats]. *)
Definition playersOfPage (page : Cheerio.selection) : list Player.PlayerStats :=
  Cheerio.each
    (fun _ this players =>
       let table := [this] in
       if isPlayerStatsTable table then
         let rows := Cheerio.find "tbody tr" table in
         Cheerio.each playerRow rows players
       else players)
    (Cheerio.find "table" page) [].

(** *** goalieStatsScraper.ts *)

Definition goalieNameOf (goalieCell : Cheerio.selection) : string :=
  let desktopNameSpan :=
    Cheerio.find "span.d-none.d-sm-block a, span.d-sm-block a" goalieCell in
  let goalieName :=
    if (0 <? List.length desktopNameSpan)%nat
    then JS.trim (Cheerio.text desktopNameSpan)
    else JS.trim (Cheerio.text goalieCell) in
  if JS.isEmpty goalieName then
    let mobileNameSpan := Cheerio.find "span.d-sm-none a" goalieCell in
    if (0 <? List.length mobileNameSpan)%nat
    then JS.trim (Cheerio.text mobileNameSpan)
    else JS.trim (Cheerio.text goalieCell)
  else goalieName.

Definition goalieTeamOf (teamCell : Cheerio.selection) : string :=
  let teamAbbrSpan := Cheerio.first (Cheerio.find "span" teamCell) in
  if (0 <? List.length teamAbbrSpan)%nat
  then JS.trim (Cheerio.text teamAbbrSpan)
  else JS.trim (Cheerio.text teamCell).

(** The callback of [rows.each] in [scrapeDivisionGoalieStats]. *)
Definition goalieRow (index : nat) (this : Cheerio.elt)
  (goalies : list Goalie.GoalieStats) : list Goalie.GoalieStats :=
  let cells := Cheerio.find "td" [this] in
  if (16 <=? List.length cells)%nat then
    let goalieName := goalieNameOf (Cheerio.eq 1 cells) in
    if JS.isEmpty goalieName
       || String.eqb (JS.toLowerCase goalieName) "goalie"
       || String.eqb goalieName ""
    then goalies
    else
      let team := goalieTeamOf (Cheerio.eq 2 cells) in
      let svPct := floatCell cells 15 in
      goalies ++
      [ {| Goalie.rank := Z.of_nat index + 1;
           Goalie.name := goalieName;
           Goalie.team := team;
           Goalie.gp := intCell cells 3;
           Goalie.w := intCell cells 4;
           Goalie.l := intCell cells 5;
           Goalie.t := intCell cells 6;
           Goalie.otl := intCell cells 7;
           Goalie.so := intCell cells 8;
           Goalie.mp := intCell cells 9;
           Goalie.ga := intCell cells 10;
           Goalie.gaa := floatCell cells 11;
           Goalie.gsaa := floatCell cells 12;
           Goalie.sa := intCell cells 13;
           Goalie.sv := intCell cells 14;
           Goalie.svPct := svPct;
           Goalie.goals := intCell cells 16;
           Goalie.assists := intCell cells 17;
           Goalie.pim := intCell cells 18 |} ]
  else goalies.

Definition goaliesOfPage (page : Cheerio.selection) : list Goalie.GoalieStats :=
  let table := Cheerio.find "table.leaders" page in
  if (0 <? List.length table)%nat then
    let rows := Cheerio.find "tbody tr" table in
    Cheerio.each goalieRow rows []
  else [].

(* ===================================================================== *)
(** ** The asynchronous part: network, clock and console *)
(* ===================================================================== *)

Record Response : Type := mkResponse {
  ok : bool;
  status : N;
  statusText : string;
  body : Cheerio.node }.

Inductive Error : Type := mkError (message : string).

(** The promise of [fetch]: rejected on a network failure, resolved with a
    response otherwise (whatever its status). *)
Inductive FetchResult : Type :=
  | Rejected (reason : Error)
  | Resolved (response : Response).

Inductive ConsoleEntry : Type :=
  | ConsoleLog (msg : string)
  | ConsoleError (msg : string) (error : Error).

Inductive Completion (A : Type) : Type :=
  | Normal (a : A)
  | Throw (e : Error).

Arguments Normal {A} a.
Arguments Throw {A} e.

Record Runtime (World : Type) : Type := mkRuntime {
  world : World;
  console : list ConsoleEntry }.

Arguments mkRuntime {World} _ _.
Arguments world {World} _.
Arguments console {World} _.

(** A computation that runs to completion, normally or by a throw, and
    leaves the world and the console behind. *)
Definition Async (World A : Type) : Type :=
  Runtime World -> Completion A * Runtime World.

#[global] Instance Async_ret {World} : MRet (Async World) :=
  fun A a rt => (Normal a, rt).

#[global] Instance Async_bind {World} : MBind (Async World) :=
  fun A B f m rt =>
    match m rt with
    | (Normal a, rt') => f a rt'
    | (Throw e, rt') => (Throw e, rt')
    end.

#[global] Instance Async_throw {World} : MThrow Error (Async World) :=
  fun A e rt => (Throw e, rt).

(** [try { body } catch (error) { handler }] *)
Definition tryCatch {World A} (body : Async World A)
  (handler : Error -> Async World A) : Async World A :=
  fun rt =>
    match body rt with
    | (Normal a, rt') => (Normal a, rt')
    | (Throw e, rt') => handler e rt'
    end.

Definition consoleLog {World} (msg : string) : Async World unit :=
  fun rt => (Normal tt,
             mkRuntime (world rt) (console rt ++ [ConsoleLog msg])).

Definition consoleError {World} (msg : string) (error : Error)
  : Async World unit :=
  fun rt => (Normal tt,
             mkRuntime (world rt) (console rt ++ [ConsoleError msg error])).

(** A [for] loop over an array, with the index, whose body updates [St]. *)
Fixpoint forEachFrom {World A St} (i : nat)
  (f : A -> nat -> St -> Async World St) (xs : list A) (st : St)
  : Async World St :=
  match xs with
  | [] => mret st
  | x :: xs' => st' ← f x i st; forEachFrom (S i) f xs' st'
  end.

Definition forEach {World A St} (f : A -> nat -> St -> Async World St)
  (xs : list A) (st : St) : Async World St := forEachFrom 0 f xs st.

Definition HNA_STANDINGS_URL : string :=
  "https://www.hna.com/leagues/standings.cfm?leagueID=5750&clientID=2296".

Definition HNA_STATS_BASE_URL : string :=
  "https://www.hna.com/leagues/stats_hockey.cfm?leagueID=5750&clientID=2296&printPage=1".

Definition HNA_BASE_URL : string :=
  "https://www.hna.com/leagues/stats_hockey.cfm".
Definition LEAGUE_ID : string := "5750".
Definition CLIENT_ID : string := "2296".

Definition buildGoalieStatsUrl (divisionName : string) : string :=
  let divID := divisionId divisionName in
  HNA_BASE_URL +:+ "?clientid=" +:+ CLIENT_ID +:+ "&leagueID=" +:+ LEAGUE_ID
  +:+ "&divID=" +:+ divID +:+ "&statType=goalie&printPage=0".

Section Scrapers.

Context {World : Type}.

(** The network: the outcome of a request of a URL, and the world after it. *)
Variable fetch : string -> World -> FetchResult * World.

(** The clock: [new Date().toISOString()]. *)
Variable toISOString : World -> string.

Definition awaitFetch (url : string) : Async World Response :=
  fun rt =>
    match fetch url (world rt) with
    | (Rejected reason, w') => (Throw reason, mkRuntime w' (console rt))
    | (Resolved response, w') => (Normal response, mkRuntime w' (console rt))
    end.

Definition getTodayISO : Async World string :=
  fun rt => (Normal (hd EmptyString (JS.split "T" (toISOString (world rt)))), rt).

Definition scrapeStandings : Async World (Snapshot Team.TeamStanding) :=
  consoleLog "Fetching HNA standings page...";;
  response ← awaitFetch HNA_STANDINGS_URL;
  if negb (ok response) then
    mthrow (mkError ("Failed to fetch standings: " +:+ pretty (status response)
                     +:+ " " +:+ statusText response))
  else
    let page := Cheerio.load (body response) in
    consoleLog "Parsing standings data...";;
    let tables := standingsTables page in
    consoleLog ("Found " +:+ pretty (List.length tables) +:+ " standings tables");;
    divisions ← forEach
      (fun divisionName index (divisions : gmap string (list Team.TeamStanding)) =>
         let teams := standingsOfDivision tables index in
         let divisions := <[divisionName := teams]> divisions in
         consoleLog ("  " +:+ divisionName +:+ ": "
                     +:+ pretty (List.length teams) +:+ " teams");;
         mret divisions)
      DIVISION_NAMES ∅;
    today ← getTodayISO;
    mret (mkSnapshot today divisions).

Definition scrapeDivisionStats (divisionName : string)
  : Async World (list Player.PlayerStats) :=
  let url := HNA_STATS_BASE_URL +:+ "&divID=" +:+ divisionId divisionName in
  consoleLog ("  Fetching " +:+ divisionName +:+ " stats...");;
  response ← awaitFetch url;
  if negb (ok response) then
    mthrow (mkError ("Failed to fetch stats for " +:+ divisionName +:+ ": "
                     +:+ pretty (status response) +:+ " "
                     +:+ statusText response))
  else
    let players := playersOfPage (Cheerio.load (body response)) in
    consoleLog ("    Found " +:+ pretty (List.length players) +:+ " players");;
    mret players.

Definition scrapePlayerStats : Async World (Snapshot Player.PlayerStats) :=
  consoleLog "Fetching HNA player stats...";;
  divisions ← forEach
    (fun divisionName _ (divisions : gmap string (list Player.PlayerStats)) =>
       tryCatch
         (stats ← scrapeDivisionStats divisionName;
          mret (<[divisionName := stats]> divisions))
         (fun error =>
            consoleError ("  Error scraping " +:+ divisionName +:+ ":") error;;
            mret (<[divisionName := []]> divisions)))
    DIVISION_NAMES ∅;
  today ← getTodayISO;
  mret (mkSnapshot today divisions).

Definition scrapeDivisionGoalieStats (divisionName : string)
  : Async World (list Goalie.GoalieStats) :=
  let url := buildGoalieStatsUrl divisionName in
  consoleLog ("  Fetching " +:+ divisionName +:+ " goalie stats...");;
  response ← awaitFetch url;
  if negb (ok response) then
    mthrow (mkError ("Failed to fetch goalie stats for " +:+ divisionName
                     +:+ ": " +:+ pretty (status response) +:+ " "
                     +:+ statusText response))
  else
    let goalies := goaliesOfPage (Cheerio.load (body response)) in
    consoleLog ("    Found " +:+ pretty (List.length goalies) +:+ " goalies");;
    mret goalies.

Definition scrapeGoalieStats : Async World (Snapshot Goalie.GoalieStats) :=
  consoleLog "Fetching HNA goalie stats...";;
  divisions ← forEach
    (fun divisionName _ (divisions : gmap string (list Goalie.GoalieStats)) =>
       tryCatch
         (stats ← scrapeDivisionGoalieStats divisionName;
          mret (<[divisionName := stats]> divisions))
         (fun error =>
            consoleError ("  Error scraping " +:+ divisionName
                          +:+ " goalie stats:") error;;
            mret (<[divisionName := []]> divisions)))
    DIVISION_NAMES ∅;
  today ← getTodayISO;
  mret (mkSnapshot today divisions).

End Scrapers.

(* ===================================================================== *)
(** ** Sample pages *)
(* ===================================================================== *)

Module Samples.

Import Cheerio(Text, Element).

Definition td (s : string) : Cheerio.node := Element "td" [] [Text s].
Definition tr (cells : list string) : Cheerio.node :=
  Element "tr" [] (map td cells).
Definition tbody (rows : list (list string)) : Cheerio.node :=
  Element "tbody" [] (map tr rows).
Definition table (classes : list string) (rows : list (list string))
  : Cheerio.node :=
  Element "table" classes [tbody rows].
Definition document (tables : list Cheerio.node) : Cheerio.node :=
  Element "#document" [] [Element "html" [] [Element "body" [] tables]].

(** The standings table of the end-to-end example. *)
Definition stealthDevils : Cheerio.node :=
  table ["standings"]
    [ ["Stealth"; "10"; "7"; "2"; "1"; "0"; "15"; ".750"];
      ["Devils"; "10"; "6"; "3"; "1"; "0"; "13"; ".650"];
      [""; ""; ""; ""; ""; ""; ""; ""] ].

(** A goalie table whose body opens with a row of column titles. *)
Definition goalieTitles : list string :=
  [""; "Goalie"; "Team"; "GP"; "W"; "L"; "T"; "OTL"; "SO"; "MP"; "GA"; "GAA";
   "GSAA"; "SA"; "SV"; "SV%"; "G"; "A"; "PIM"].
Definition goalieSmith : list string :=
  ["1"; "Smith"; "KNKL"; "10"; "7"; "2"; "1"; "0"; "2"; "450"; "20"; "2.67";
   "1.5"; "200"; "180"; ".900"; "0"; "1"; "2"].
Definition goaliePage : Cheerio.node :=
  document [table ["leaders"] [goalieTitles; goalieSmith]].

(** A player table: a title row in the head, then a short separator row
    and one player in the body. *)
Definition playerTitles : list string :=
  ["Rank"; "Player"; "#"; "Pos"; "Team"; "GP"; "G"; "A"; "PTS"; "P/G"; "PPG";
   "PPA"; "SHG"; "SHA"; "GWG"; "PIM"].
Definition playerJones : list string :=
  ["1"; "Jones"; "9"; "F"; "RNGD"; "10"; "5"; "7"; "12"; "1.20"; "1"; "2";
   "0"; "0"; "1"; "4"].
Definition playerPage : Cheerio.node :=
  document
    [Element "table" []
       [Element "thead" [] [Element "tr" [] (map (fun s => Element "th" [] [Text s]) playerTitles)];
        tbody [["Top scorers"]; playerJones]]].

(** A canned network: the world is the list of the URLs requested so far,
    and a server answers by URL. *)
Definition cannedFetch (server : string -> FetchResult) (url : string)
  (requested : list string) : FetchResult * list string :=
  (server url, requested ++ [url]).

Definition noon (_ : list string) : string := "2024-12-15T12:00:00.000Z".

Definition page200 (doc : Cheerio.node) : FetchResult :=
  Resolved (mkResponse true 200 "OK" doc).

Definition error503 : FetchResult :=
  Resolved (mkResponse false 503 "Service Unavailable" (document [])).

(** Only the second goalie page is served; the first request fails in the
    network, the other two are answered with a 503. *)
Definition goalieServer (url : string) : FetchResult :=
  if String.eqb url (buildGoalieStatsUrl "1-BRODEUR")
  then Rejected (mkError "fetch failed")
  else if String.eqb url (buildGoalieStatsUrl "2-MANNO")
  then page200 goaliePage
  else error503.

Definition start : Runtime (list string) := mkRuntime [] [].

End Samples.

(* ===================================================================== *)
(** ** Vocabulary of the specification *)
(* ===================================================================== *)

(** The cell a numeric field is read from, for each kind of record. *)
Definition standingsInts : list (nat * (Team.TeamStanding -> JS.number)) :=
  [(1, Team.gp); (2, Team.w); (3, Team.l); (4, Team.t); (5, Team.otl);
   (6, Team.pts)]%nat.
Definition standingsFloats : list (nat * (Team.TeamStanding -> JS.number)) :=
  [(7%nat, Team.wpct)].

Definition playerInts : list (nat * (Player.PlayerStats -> JS.number)) :=
  [(5, Player.gp); (6, Player.goals); (7, Player.assists); (8, Player.points);
   (10, Player.ppg); (11, Player.ppa); (12, Player.shg); (13, Player.sha);
   (14, Player.gwg); (15, Player.pim)]%nat.
Definition playerFloats : list (nat * (Player.PlayerStats -> JS.number)) :=
  [(9%nat, Player.pointsPerGame)].

Definition goalieInts : list (nat * (Goalie.GoalieStats -> JS.number)) :=
  [(3, Goalie.gp); (4, Goalie.w); (5, Goalie.l); (6, Goalie.t);
   (7, Goalie.otl); (8, Goalie.so); (9, Goalie.mp); (10, Goalie.ga);
   (13, Goalie.sa); (14, Goalie.sv); (16, Goalie.goals);
   (17, Goalie.assists); (18, Goalie.pim)]%nat.
Definition goalieFloats : list (nat * (Goalie.GoalieStats -> JS.number)) :=
  [(11, Goalie.gaa); (12, Goalie.gsaa); (15, Goalie.svPct)]%nat.

(** The text opens with a base-10 integer: an optional sign, then a digit. *)
Definition startsWithInteger (s : string) : bool :=
  match snd (JS.takeSign s) with
  | String c _ => JS.isDigit c
  | EmptyString => false
  end.

(** The text opens with a decimal literal: after an optional sign, a digit,
    a point followed by a digit, or the word Infinity. *)
Definition startsWithDecimal (s : string) : bool :=
  let r := snd (JS.takeSign s) in
  String.prefix "Infinity" r
  || match r with
     | String c r' =>
         JS.isDigit c
         || (Ascii.eqb c "."
             && match r' with
                | String d _ => JS.isDigit d
                | EmptyString => false
                end)
     | EmptyString => false
     end.

(** The whole text is a base-10 integer. *)
Definition isIntegerText (s : string) : bool :=
  match snd (JS.takeSign s) with
  | EmptyString => false
  | r => forallb JS.isDigit (list_ascii_of_string r)
  end.

(** The value of a string of digits, by position. *)
Fixpoint positional (ds : list ascii) : Z :=
  match ds with
  | [] => 0
  | d :: ds' => JS.digitValue d * 10 ^ Z.of_nat (List.length ds') + positional ds'
  end.

(** The subtree reached from [n] by a sequence of child indices. *)
Fixpoint subtreeAt (n : Cheerio.node) (q : list nat) : option Cheerio.node :=
  match q with
  | [] => Some n
  | i :: q' =>
      match n with
      | Cheerio.Text _ => None
      | Cheerio.Element _ _ cs =>
          match nth_error cs i with
          | Some c => subtreeAt c q'
          | None => None
          end
      end
  end.

Definition isElementNamed (name : string) (n : Cheerio.node) : Prop :=
  match n with
  | Cheerio.Text _ => False
  | Cheerio.Element name' _ _ => name' = name
  end.

(** [sub] occurs in [s]. *)
Definition occursIn (sub s : string) : Prop :=
  exists before after, s = before +:+ sub +:+ after.

(** The integer that a sign and a string of digits denote. *)
Definition signedInteger (sign : string) (ds : list ascii) : Z :=
  JS.applySign (String.eqb sign "-") (positional ds).

(** The decimal that a sign, the digits before the point and the digits
    after the point denote. *)
Definition signedDecimal (sign : string) (ip fp : list ascii) : Q :=
  let v := (inject_Z (positional ip)
            + inject_Z (positional fp)
              / inject_Z (10 ^ Z.of_nat (List.length fp)))%Q in
  if String.eqb sign "-" then (- v)%Q else v.

(** The record [r] takes its numeric fields from [cells] with the default
    of zero: a cell whose text does not open with a number gives 0. *)
Definition zeroDefault {R : Type} (cells : Cheerio.selection) (r : R)
  (ints floats : list (nat * (R -> JS.number))) : Prop :=
  (forall i f, In (i, f) ints ->
     startsWithInteger (textCell cells i) = false -> f r = JS.Finite 0)
  /\ (forall i f, In (i, f) floats ->
        startsWithDecimal (textCell cells i) = false -> f r = JS.Finite 0).

(** The record [r] takes its numeric fields from the numerals in [cells]:
    an integer field whose cell reads [sign digits] holds the Number value
    for this base-10 integer, and a fractional field whose cell reads
    [sign digits], [sign digits . digits] or [sign . digits] holds the
    Number value for this decimal. *)
Definition numeralsRead {R : Type} (cells : Cheerio.selection) (r : R)
  (ints floats : list (nat * (R -> JS.number))) : Prop :=
  (forall i f sign ds,
     In (i, f) ints ->
     In sign [""; "+"; "-"] ->
     ds <> [] ->
     forallb JS.isDigit ds = true ->
     textCell cells i = sign +:+ string_of_list_ascii ds ->
     f r = JS.numberValue (inject_Z (signedInteger sign ds)))
  /\ (forall i f sign ip fp,
        In (i, f) floats ->
        In sign [""; "+"; "-"] ->
        ip ++ fp <> [] ->
        forallb JS.isDigit ip = true ->
        forallb JS.isDigit fp = true ->
        textCell cells i
        = sign +:+ string_of_list_ascii ip +:+ "." +:+ string_of_list_ascii fp
        \/ (fp = [] /\ textCell cells i = sign +:+ string_of_list_ascii ip) ->
        f r = JS.numberValue (signedDecimal sign ip fp)).

(** An integer field of [r] whose cell reads [sign digits rest], where
    [rest] does not go on with a digit, holds the Number value for the
    integer [sign digits]: the double nearest to it, which is the integer
    itself when the digits denote at most [2 ^ 53]. *)
Definition leadingIntegerRead {R : Type} (cells : Cheerio.selection) (r : R)
  (ints : list (nat * (R -> JS.number))) : Prop :=
  forall i f sign ds rest,
    In (i, f) ints ->
    In sign [""; "+"; "-"] ->
    ds <> [] ->
    forallb JS.isDigit ds = true ->
    match rest with
    | String c _ => JS.isDigit c = false
    | EmptyString => True
    end ->
    textCell cells i = sign +:+ string_of_list_ascii ds +:+ rest ->
    f r = JS.numberValue (inject_Z (signedInteger sign ds))
    /\ (positional ds <= 2 ^ 53 -> f r = JS.int (signedInteger sign ds)).

(** Sample rows. *)
Definition hawksRow : Cheerio.elt :=
  {| Cheerio.path := [0%nat];
     Cheerio.tree :=
       Samples.tr ["Hawks"; "12abc"; "7"; "2"; "1"; "0"; "15"; "Infinity"] |}.

Definition shortRow : Cheerio.elt :=
  {| Cheerio.path := [0%nat]; Cheerio.tree := Samples.tr ["Hawks"; "12"; "7"] |}.

Definition titleRow (label : string) : Cheerio.elt :=
  {| Cheerio.path := [0%nat];
     Cheerio.tree := Samples.tr ("" :: label :: repeat "x" 17) |}.

Definition owlsRow : Cheerio.elt :=
  {| Cheerio.path := [0%nat];
     Cheerio.tree := Samples.tr ["Owls"; "n/a"; ""; "-"; "x1"; "+"; "abc"; "."] |}.

(** A standings row of numerals. *)
Definition bearsRow : Cheerio.elt :=
  {| Cheerio.path := [0%nat];
     Cheerio.tree :=
       Samples.tr ["Bears"; "10"; "6"; "3"; "1"; "0"; "13"; ".650"] |}.

(** A player row: 12 games, goals not given, 7 assists with a mark. *)
Definition jonesRow : Cheerio.elt :=
  {| Cheerio.path := [0%nat];
     Cheerio.tree :=
       Samples.tr ["1"; "Jones"; "9"; "F"; "Hawks"; "12"; "n/a"; "7*"; "19";
                   "1.58"; "-"; "0"; "0"; "0"; "1"; "4 min"] |}.

(** A goalie row: wins not given, 450 minutes with a unit. *)
Definition smithRow : Cheerio.elt :=
  {| Cheerio.path := [0%nat];
     Cheerio.tree :=
       Samples.tr [""; "Smith"; "KNKL"; "10"; "--"; "2"; "1"; "0"; "2";
                   "450 min"; "20"; "2.67"; "n/a"; "200"; "180"; ".900";
                   "0"; "1"; "2"] |}.

(** A standings row whose games cell opens with [2 ^ 53 + 1]. *)
Definition longRow : Cheerio.elt :=
  {| Cheerio.path := [0%nat];
     Cheerio.tree :=
       Samples.tr ["Hawks"; "9007199254740993abc"; "7"; "2"; "1"; "0"; "15";
                   ".750"] |}.

(** The texts of the cells of a row, one string per cell. *)
Definition cellTexts (cells : Cheerio.selection) : list string :=
  map (fun cell => Cheerio.text [cell]) cells.

(** The name cell of the row holds no link. *)
Definition plainName (row : Cheerio.elt) : Prop :=
  Cheerio.find "a" (Cheerio.eq 0 (Cheerio.find "td" [row])) = [].

(** The two records of the end-to-end example. *)
Definition stealthRecord : Team.TeamStanding :=
  {| Team.team := "Stealth"; Team.abbr := None; Team.gp := JS.int 10;
     Team.w := JS.int 7; Team.l := JS.int 2; Team.t := JS.int 1;
     Team.otl := JS.int 0; Team.pts := JS.int 15;
     Team.wpct := JS.Finite (3 # 4); Team.position := 1 |}.

(** 0.65 is not a double: the percentage of the second record is the
    Number value for 13/20, the double that the literal [0.65] denotes. *)
Definition devilsRecord : Team.TeamStanding :=
  {| Team.team := "Devils"; Team.abbr := None; Team.gp := JS.int 10;
     Team.w := JS.int 6; Team.l := JS.int 3; Team.t := JS.int 1;
     Team.otl := JS.int 0; Team.pts := JS.int 13;
     Team.wpct := JS.numberValue (13 # 20); Team.position := 2 |}.

Definition stealthDevilsTable : Cheerio.selection :=
  Cheerio.find "table" (Cheerio.load (Samples.document [Samples.stealthDevils])).

(** A table looks like standings when one of the rows of its body has 8
    cells or more. *)
Definition looksLikeStandings (table : Cheerio.elt) : bool :=
  existsb (fun row => (8 <=? List.length (Cheerio.find "td" [row]))%nat)
    (Cheerio.find "tr" (Cheerio.find "tbody" [table])).

(** [divisions[name] = records] *)
Definition put {R : Type} (m : gmap string (list R)) (kv : string * list R)
  : gmap string (list R) :=
  <[kv.1 := kv.2]> m.

(** The records of the divisions, assembled in the order of the names:
    [val name index w] gives the records of a division and the world that
    its processing leaves. *)
Fixpoint assemble {World R : Type}
  (val : string -> nat -> World -> list R * World)
  (i : nat) (names : list string) (w : World)
  : list (string * list R) * World :=
  match names with
  | [] => ([], w)
  | name :: names' =>
      let '(records, w1) := val name i w in
      let '(rest, w2) := assemble val (S i) names' w1 in
      ((name, records) :: rest, w2)
  end.

(** A division of a stats page in isolation: the page is requested; a
    rejected request or a response that is not ok gives the empty list,
    any other response the records decoded from its page. *)
Definition isolatedPage {World R : Type}
  (fetch : string -> World -> FetchResult * World)
  (decode : Cheerio.selection -> list R) (url : string -> string)
  (name : string) (_ : nat) (w : World) : list R * World :=
  match fetch (url name) w with
  | (Rejected _, w') => ([], w')
  | (Resolved response, w') =>
      (if ok response then decode (Cheerio.load (body response)) else [], w')
  end.

Definition playerStatsUrl (divisionName : string) : string :=
  HNA_STATS_BASE_URL +:+ "&divID=" +:+ divisionId divisionName.

(** A standings page with a layout table between two standings tables. *)
Definition twoTablesPage : Cheerio.node :=
  Samples.document
    [ Samples.stealthDevils;
      Samples.table [] [["Season"; "2024-25"]];
      Samples.table []
        [["Team"; "GP"; "W"; "L"; "T"; "OTL"; "PTS"; "WPCT"];
         ["Kings"; "8"; "4"; "4"; "0"; "0"; "8"; ".500"]] ].

Definition kingsRecord : Team.TeamStanding :=
  {| Team.team := "Kings"; Team.abbr := None; Team.gp := JS.int 8;
     Team.w := JS.int 4; Team.l := JS.int 4; Team.t := JS.int 0;
     Team.otl := JS.int 0; Team.pts := JS.int 8;
     Team.wpct := JS.Finite (1 # 2); Team.position := 1 |}.

Definition standingsServer (_ : string) : FetchResult :=
  Samples.page200 twoTablesPage.

(** [row] is a [tr] element below a [tbody] element below [table]. *)
Definition insideTbody (table row : Cheerio.elt) : Prop :=
  exists q1 q2 tb,
    Cheerio.path row = Cheerio.path table ++ q1 ++ q2
    /\ q1 <> [] /\ q2 <> []
    /\ subtreeAt (Cheerio.tree table) q1 = Some tb
    /\ isElementNamed "tbody" tb
    /\ subtreeAt tb q2 = Some (Cheerio.tree row)
    /\ isElementNamed "tr" (Cheerio.tree row).

(** The table of the sample player page. *)
Definition playerTable : Cheerio.elt :=
  hd {| Cheerio.path := []; Cheerio.tree := Cheerio.Text "" |}
    (Cheerio.find "table" (Cheerio.load Samples.playerPage)).

(** A network that also keeps the list of the URLs requested of it. *)
Definition recording {World : Type}
  (fetch : string -> World -> FetchResult * World)
  (url : string) (w : World * list string)
  : FetchResult * (World * list string) :=
  let '(result, w') := fetch url (fst w) in (result, (w', snd w ++ [url])).

(** A row of 16 cells, the least that a goalie row may have. *)
Definition sixteenCells : Cheerio.elt :=
  {| Cheerio.path := [0%nat];
     Cheerio.tree :=
       Samples.tr ["1"; "Smith"; "KNKL"; "10"; "7"; "2"; "1"; "0"; "2"; "450";
                   "20"; "2.67"; "1.5"; "200"; "180"; ".900"] |}.

(** A name: trimmed text that is not empty and is not the column title. *)
Definition properName (title name : string) : Prop :=
  name <> "" /\ JS.toLowerCase name <> title /\ JS.trim name = name.

(** A standings page without a table that looks like standings. *)
Definition layoutOnlyPage : Cheerio.node :=
  Samples.document
    [ Samples.table [] [["Season"; "2024-25"]];
      Cheerio.Element "table" []
        [Cheerio.Element "thead" [] [Samples.tr Samples.playerTitles]] ].

Definition outageServer (_ : string) : FetchResult := Samples.error503.

(* ===================================================================== *)
(** ** frontend/sampleSnapshots.ts *)
(* ===================================================================== *)

Definition DESKTOP_MAX_POINTS : Z := 28.
Definition MOBILE_MAX_POINTS : Z := 14.

(** [Math.round(i * step)] for [step = (length - 1) / (targetCount - 1)] and
    [targetCount > 1]: the quotient, rounded to the nearest integer, halves
    upwards.  The quotient is taken exactly; with the one target that is
    passed, 28, it is never within 1/54 of a half, so the rounding of
    doubles does not change the result for any length of practical size. *)
Definition roundedStep (i length targetCount : Z) : Z :=
  (2 * i * (length - 1) + (targetCount - 1)) / (2 * (targetCount - 1)).

Section Sampling.

(** The items are JavaScript values, compared by [===]; reading an array
    out of its bounds gives [undefined]. *)
Context {T : Type} `{EqDecision T}.
Variable undefined : T.

(** [items[i]] *)
Definition item (items : list T) (i : Z) : T :=
  if (i <? 0)%Z then undefined else nth (Z.to_nat i) items undefined.

Definition sampleToCount (items : list T) (targetCount : Z) : list T :=
  let length := Z.of_nat (List.length items) in
  if (length <=? targetCount)%Z then items
  else
    let intermediateCount := targetCount - 2 in
    [item items 0]
    ++ map (fun i => item items (roundedStep (Z.of_nat i) length targetCount))
         (seq 1 (Z.to_nat intermediateCount))
    ++ [item items (length - 1)].

(** [for (let i = 0; i < items.length; i += 2) result.push(items[i])] *)
Fixpoint everyOther (items : list T) : list T :=
  match items with
  | [] => []
  | x :: rest =>
      x :: match rest with
           | [] => []
           | _ :: rest' => everyOther rest'
           end
  end.

Definition sampleSnapshots (snapshots : list T) (isMobile : bool) : list T :=
  if (List.length snapshots =? 0)%nat then snapshots
  else
    let desktopSampled := sampleToCount snapshots DESKTOP_MAX_POINTS in
    if negb isMobile then desktopSampled
    else if (Z.of_nat (List.length desktopSampled) <=? MOBILE_MAX_POINTS)%Z
    then desktopSampled
    else
      let mobileSampled := everyOther desktopSampled in
      let lastDesktopItem :=
        item desktopSampled (Z.of_nat (List.length desktopSampled) - 1) in
      if bool_decide
           (item mobileSampled (Z.of_nat (List.length mobileSampled) - 1)
            <> lastDesktopItem)
      then mobileSampled ++ [lastDesktopItem]
      else mobileSampled.

End Sampling.

(* ===================================================================== *)
(** ** index.ts: snapshot files and their index *)
(* ===================================================================== *)

Module Index.
Record SnapshotIndex : Type := mk {
  divisions : list string;
  dates : list string;
  lastUpdated : string }.
End Index.

(** [Array.prototype.sort(compare)], a stable sort: each item in turn is
    put before the first of the sorted items that it compares negative
    to. *)
Fixpoint insertSorted {A : Type} (compare : A -> A -> Z) (x : A)
  (sorted : list A) : list A :=
  match sorted with
  | [] => [x]
  | y :: rest =>
      if (compare x y <? 0)%Z then x :: y :: rest
      else y :: insertSorted compare x rest
  end.

Definition sort {A : Type} (compare : A -> A -> Z) (items : list A) : list A :=
  fold_left (fun sorted x => insertSorted compare x sorted) items [].

(** The update of the dates in [saveSnapshot]:
    [if (!dates.includes(date)) { dates.push(date); dates.sort((a, b) =>
    b.localeCompare(a)) }]. *)
Definition withDate (localeCompare : string -> string -> Z)
  (date : string) (dates : list string) : list string :=
  if existsb (String.eqb date) dates then dates
  else sort (fun a b => localeCompare b a) (dates ++ [date]).

Section Persistence.

Context {World : Type}.

(** The file system calls of [fs], the clock, [path.join] of a directory
    and a name, the data directory [path.join(__dirname, "..", "data")],
    the collation of [localeCompare], and [JSON.parse] and
    [JSON.stringify] of an index. *)
Variable existsSync : string -> World -> bool.
Variable readFileSync : string -> World -> Completion string * World.
Variable writeFileSync : string -> string -> World -> Completion unit * World.
Variable toISOString : World -> string.
Variable join : string -> string -> string.
Variable DATA_DIR : string.
Variable localeCompare : string -> string -> Z.
Variable parse : string -> Completion Index.SnapshotIndex.
Variable stringifyIndex : Index.SnapshotIndex -> string.

Definition SNAPSHOTS_DIR : string := join DATA_DIR "snapshots".
Definition INDEX_FILE : string := join DATA_DIR "index.json".
Definition PLAYER_STATS_DIR : string := join DATA_DIR "player-stats".
Definition PLAYER_STATS_SNAPSHOTS_DIR : string := join PLAYER_STATS_DIR "snapshots".
Definition PLAYER_STATS_INDEX_FILE : string := join PLAYER_STATS_DIR "index.json".
Definition GOALIE_STATS_DIR : string := join DATA_DIR "goalie-stats".
Definition GOALIE_STATS_SNAPSHOTS_DIR : string := join GOALIE_STATS_DIR "snapshots".
Definition GOALIE_STATS_INDEX_FILE : string := join GOALIE_STATS_DIR "index.json".

Definition fsExists (path : string) : Async World bool :=
  fun rt => (Normal (existsSync path (world rt)), rt).

Definition fsRead (path : string) : Async World string :=
  fun rt =>
    let '(c, w') := readFileSync path (world rt) in
    (c, mkRuntime w' (console rt)).

Definition fsWrite (path content : string) : Async World unit :=
  fun rt =>
    let '(c, w') := writeFileSync path content (world rt) in
    (c, mkRuntime w' (console rt)).

Definition jsonParse (content : string) : Async World Index.SnapshotIndex :=
  fun rt => (parse content, rt).

(** [new Date().toISOString()] *)
Definition nowISO : Async World string :=
  fun rt => (Normal (toISOString (world rt)), rt).

(** [loadIndex], [loadPlayerStatsIndex] and [loadGoalieStatsIndex] differ
    in the index file only. *)
Definition loadIndexFrom (indexFile : string) : Async World Index.SnapshotIndex :=
  found ← fsExists indexFile;
  if (found : bool) then
    content ← fsRead indexFile;
    jsonParse content
  else
    lastUpdated ← nowISO;
    mret {| Index.divisions := DIVISION_NAMES;
            Index.dates := [];
            Index.lastUpdated := lastUpdated |}.

Definition loadIndex : Async World Index.SnapshotIndex :=
  loadIndexFrom INDEX_FILE.
Definition loadPlayerStatsIndex : Async World Index.SnapshotIndex :=
  loadIndexFrom PLAYER_STATS_INDEX_FILE.
Definition loadGoalieStatsIndex : Async World Index.SnapshotIndex :=
  loadIndexFrom GOALIE_STATS_INDEX_FILE.

(** [saveSnapshot], [savePlayerStatsSnapshot] and [saveGoalieStatsSnapshot]
    differ in the directory, the index file and the two lines they log;
    [stringify] is [JSON.stringify] of the snapshot. *)
Definition saveSnapshotTo {R : Type} (stringify : Snapshot R -> string)
  (snapshotsDir indexFile saved updated : string) (snapshot : Snapshot R)
  : Async World unit :=
  let snapshotPath := join snapshotsDir (date snapshot +:+ ".json") in
  fsWrite snapshotPath (stringify snapshot);;
  consoleLog (saved +:+ snapshotPath);;
  index ← loadIndexFrom indexFile;
  let dates := withDate localeCompare (date snapshot) (Index.dates index) in
  lastUpdated ← nowISO;
  let index := {| Index.divisions := Index.divisions index;
                  Index.dates := dates;
                  Index.lastUpdated := lastUpdated |} in
  fsWrite indexFile (stringifyIndex index);;
  consoleLog (updated +:+ indexFile).

Definition saveSnapshot (stringify : Snapshot Team.TeamStanding -> string)
  : Snapshot Team.TeamStanding -> Async World unit :=
  saveSnapshotTo stringify SNAPSHOTS_DIR INDEX_FILE
    "Saved snapshot to: " "Updated index file: ".

Definition savePlayerStatsSnapshot
  (stringify : Snapshot Player.PlayerStats -> string)
  : Snapshot Player.PlayerStats -> Async World unit :=
  saveSnapshotTo stringify PLAYER_STATS_SNAPSHOTS_DIR PLAYER_STATS_INDEX_FILE
    "Saved player stats snapshot to: " "Updated player stats index file: ".

Definition saveGoalieStatsSnapshot
  (stringify : Snapshot Goalie.GoalieStats -> string)
  : Snapshot Goalie.GoalieStats -> Async World unit :=
  saveSnapshotTo stringify GOALIE_STATS_SNAPSHOTS_DIR GOALIE_STATS_INDEX_FILE
    "Saved goalie stats snapshot to: " "Updated goalie stats index file: ".

Definition snapshotExists (date : string) : Async World bool :=
  fsExists (join SNAPSHOTS_DIR (date +:+ ".json")).
Definition playerStatsSnapshotExists (date : string) : Async World bool :=
  fsExists (join PLAYER_STATS_SNAPSHOTS_DIR (date +:+ ".json")).
Definition goalieStatsSnapshotExists (date : string) : Async World bool :=
  fsExists (join GOALIE_STATS_SNAPSHOTS_DIR (date +:+ ".json")).

End Persistence.

(** What the properties of saving ask of the file system. *)
Section FileSystemLaws.

Context {World : Type}.
Variable existsSync : string -> World -> bool.
Variable readFileSync : string -> World -> Completion string * World.
Variable writeFileSync : string -> string -> World -> Completion unit * World.

(** The file system keeps what was written: a file that was written
    exists, and reading or writing a file removes no other. *)
Definition keepsFiles : Prop :=
  (forall p c w w', writeFileSync p c w = (Normal tt, w') ->
                    existsSync p w' = true)
  /\ (forall p c w r w' q, writeFileSync p c w = (r, w') ->
                           existsSync q w = true -> existsSync q w' = true)
  /\ (forall p w r w' q, readFileSync p w = (r, w') ->
                         existsSync q w = true -> existsSync q w' = true).

(** A file that was written exists and reads as it was written. *)
Definition readsWhatWasWritten : Prop :=
  forall p c w w', writeFileSync p c w = (Normal tt, w') ->
                   existsSync p w' = true
                   /\ exists w'', readFileSync p w' = (Normal c, w'').

End FileSystemLaws.

(** A file system in memory, for the examples: files by path. *)
Module MemoryFS.

Definition existsSync (path : string) (files : gmap string string) : bool :=
  bool_decide (is_Some (files !! path)).

Definition readFileSync (path : string) (files : gmap string string)
  : Completion string * gmap string string :=
  match files !! path with
  | Some content => (Normal content, files)
  | None => (Throw (mkError "ENOENT"), files)
  end.

Definition writeFileSync (path content : string) (files : gmap string string)
  : Completion unit * gmap string string :=
  (Normal tt, <[path := content]> files).

Definition join (dir name : string) : string := dir +:+ "/" +:+ name.

(** The order of code units, as [localeCompare] orders dates. *)
Definition localeCompare (a b : string) : Z :=
  match String.compare a b with
  | Lt => -1
  | Eq => 0
  | Gt => 1
  end.

(** Indexes are written as the binary digits of their code. *)
Fixpoint bitsOf (p : positive) : string :=
  match p with
  | xH => ""
  | xO p' => String "0" (bitsOf p')
  | xI p' => String "1" (bitsOf p')
  end.

Fixpoint ofBits (s : string) : option positive :=
  match s with
  | EmptyString => Some xH
  | String c r =>
      if Ascii.eqb c "0" then xO <$> ofBits r
      else if Ascii.eqb c "1" then xI <$> ofBits r
      else None
  end.

Definition stringifyIndex (index : Index.SnapshotIndex) : string :=
  bitsOf (encode (Index.divisions index, Index.dates index,
                  Index.lastUpdated index)).

Definition parse (content : string) : Completion Index.SnapshotIndex :=
  match ofBits content ≫= decode with
  | Some (divisions, dates, lastUpdated) =>
      Normal {| Index.divisions := divisions;
                Index.dates := dates;
                Index.lastUpdated := lastUpdated |}
  | None => Throw (mkError "SyntaxError")
  end.

Definition clock (_ : gmap string string) : string := "2024-12-15T12:00:00.000Z".

Definition stringify {R : Type} (snapshot : Snapshot R) : string := date snapshot.

Definition snapshotOf (day : string) : Snapshot Team.TeamStanding :=
  mkSnapshot day ∅.

(** A data directory with one older snapshot and its index. *)
Definition dataDirectory : gmap string string :=
  {[ join (join "data" "snapshots") "2025-01-08.json" := "2025-01-08";
     join "data" "index.json" :=
       stringifyIndex {| Index.divisions := DIVISION_NAMES;
                         Index.dates := ["2025-01-08"];
                         Index.lastUpdated := "2025-01-08T12:00:00.000Z" |} ]}.

(** A data directory whose index is not JSON. *)
Definition brokenIndex : gmap string string :=
  {[ join "data" "index.json" := "not json" ]}.

Definition save : Snapshot Team.TeamStanding -> Async (gmap string string) unit :=
  saveSnapshot existsSync readFileSync writeFileSync clock join "data"
    localeCompare parse stringifyIndex stringify.

End MemoryFS.

(* ===================================================================== *)
(** ** Properties *)
(* ===================================================================== *)

(** *** Loops that push to an array *)

Lemma eachFrom_app {St} (f : nat -> Cheerio.elt -> St -> St) s1 s2 i st :
  Cheerio.eachFrom i f (s1 ++ s2) st
  = Cheerio.eachFrom (i + List.length s1) f s2 (Cheerio.eachFrom i f s1 st).
Proof.
  revert i st. induction s1 as [|e s1 IH]; intros i st; simpl.
  - by rewrite Nat.add_0_r.
  - rewrite IH. f_equal. lia.
Qed.

(** A callback that only pushes can be run on an empty array. *)
Lemma eachFrom_push {R} (f : nat -> Cheerio.elt -> list R -> list R) :
  (forall i e rs, f i e rs = rs ++ f i e []) ->
  forall s i rs,
    Cheerio.eachFrom i f s rs = rs ++ Cheerio.eachFrom i f s [].
Proof.
  intros Hf s. induction s as [|e s IH]; intros i rs; simpl.
  - by rewrite app_nil_r.
  - rewrite IH, (IH _ (f i e [])), (Hf i e rs). by rewrite app_assoc.
Qed.

Lemma eachFrom_invariant {St} (P : St -> Prop)
  (f : nat -> Cheerio.elt -> St -> St) :
  (forall i e st, P st -> P (f i e st)) ->
  forall s i st, P st -> P (Cheerio.eachFrom i f s st).
Proof.
  intros Hf s. induction s as [|e s IH]; intros i st Hst; simpl; auto.
Qed.

Lemma playerRow_push index this players :
  playerRow index this players = players ++ playerRow index this [].
Proof.
  unfold playerRow.
  repeat match goal with
         | |- context [if ?b then _ else _] => destruct b
         end; by rewrite ?app_nil_r.
Qed.

Lemma goalieRow_push index this goalies :
  goalieRow index this goalies = goalies ++ goalieRow index this [].
Proof.
  unfold goalieRow.
  repeat match goal with
         | |- context [if ?b then _ else _] => destruct b
         end; by rewrite ?app_nil_r.
Qed.

(** *** Positions of the standings *)

Definition positionsFollowOrder (teams : list Team.TeamStanding) : Prop :=
  forall k r, teams !! k = Some r -> Team.position r = Z.of_nat k + 1.

Lemma standingsRow_positions this teams :
  positionsFollowOrder teams -> positionsFollowOrder (standingsRow this teams).
Proof.
  intros Hinv. unfold standingsRow.
  destruct (8 <=? _)%nat; [|done].
  destruct (_ || _); [done|].
  intros k r Hk.
  destruct (decide (k < List.length teams)%nat) as [Hlt|Hge].
  - rewrite lookup_app_l in Hk by done. by apply Hinv.
  - rewrite lookup_app_r in Hk by lia.
    destruct (k - List.length teams)%nat as [|n] eqn:Hn; simpl in Hk; [|done].
    inversion Hk; subst r; simpl. f_equal. lia.
Qed.

Lemma standingsOfTable_positions table :
  positionsFollowOrder (standingsOfTable table).
Proof.
  unfold standingsOfTable, Cheerio.each.
  apply (eachFrom_invariant positionsFollowOrder).
  - intros _ e st. apply standingsRow_positions.
  - intros k r Hk. done.
Qed.

(** *** Trimmed text and the numeric parsers *)

Lemma trimStart_cases s :
  JS.trimStart s = EmptyString
  \/ exists c r, JS.trimStart s = String c r /\ JS.isWhiteSpace c = false.
Proof.
  induction s as [|c r IH]; simpl; [by left|].
  destruct (JS.isWhiteSpace c) eqn:Hc; [done|]. right. by exists c, r.
Qed.

Lemma trimStart_trim s : JS.trimStart (JS.trim s) = JS.trim s.
Proof.
  unfold JS.trim.
  destruct (trimStart_cases s) as [->|(c & r & -> & Hc)]; [done|].
  simpl. rewrite Hc. simpl. by rewrite Hc.
Qed.

Lemma parseInt_no_integer s :
  startsWithInteger (JS.trimStart s) = false -> JS.parseInt s = JS.NaN.
Proof.
  unfold startsWithInteger, JS.parseInt.
  destruct (JS.takeSign (JS.trimStart s)) as [neg s2]; simpl.
  destruct s2 as [|c r]; simpl; [done|]. by intros ->.
Qed.

Lemma parseFloat_no_decimal s :
  startsWithDecimal (JS.trimStart s) = false -> JS.parseFloat s = JS.NaN.
Proof.
  unfold startsWithDecimal, JS.parseFloat.
  destruct (JS.takeSign (JS.trimStart s)) as [neg s2]. cbn [snd].
  intros [Hinf Hrest]%orb_false_elim. rewrite Hinf.
  destruct s2 as [|c r]; [done|].
  apply orb_false_elim in Hrest as [Hc Hdot]. cbn [JS.spanDigits]. rewrite Hc.
  destruct (Ascii.eqb c "."); [|done].
  destruct r as [|d r']; [done|]. simpl in Hdot. cbn [JS.spanDigits].
  by rewrite Hdot.
Qed.

Lemma intCell_default cells i :
  startsWithInteger (textCell cells i) = false -> intCell cells i = JS.Finite 0.
Proof.
  unfold textCell, intCell. intros H.
  rewrite parseInt_no_integer; [done|]. by rewrite trimStart_trim.
Qed.

Lemma floatCell_default cells i :
  startsWithDecimal (textCell cells i) = false ->
  floatCell cells i = JS.Finite 0.
Proof.
  unfold textCell, floatCell. intros H.
  rewrite parseFloat_no_decimal; [done|]. by rewrite trimStart_trim.
Qed.

Lemma digit_not_sign c :
  JS.isDigit c = true -> Ascii.eqb c "-" = false /\ Ascii.eqb c "+" = false.
Proof.
  intros H. split.
  - destruct (Ascii.eqb_spec c "-") as [->|]; [discriminate H|done].
  - destruct (Ascii.eqb_spec c "+") as [->|]; [discriminate H|done].
Qed.

Lemma spanDigits_app ds rest :
  forallb JS.isDigit ds = true ->
  match rest with
  | String c _ => JS.isDigit c = false
  | EmptyString => True
  end ->
  JS.spanDigits (string_of_list_ascii ds +:+ rest) = (ds, rest).
Proof.
  intros Hds Hrest. induction ds as [|d ds IH]; simpl.
  - destruct rest as [|c r]; simpl; [done|]. by rewrite Hrest.
  - simpl in Hds. apply andb_true_iff in Hds as [Hd Hds].
    rewrite Hd, (IH Hds). done.
Qed.

Lemma fold_digits_positional ds acc :
  fold_left (fun a c => 10 * a + JS.digitValue c) ds acc
  = acc * 10 ^ Z.of_nat (List.length ds) + positional ds.
Proof.
  revert acc. induction ds as [|d ds IH]; intros acc; simpl.
  - lia.
  - rewrite IH.
    replace (Z.of_nat (S (List.length ds))) with (Z.succ (Z.of_nat (List.length ds)))
      by lia.
    rewrite Z.pow_succ_r by lia. ring.
Qed.

Lemma digitsValue_positional ds : JS.digitsValue ds = positional ds.
Proof. unfold JS.digitsValue. rewrite fold_digits_positional. lia. Qed.

Lemma takeSign_digit d r :
  JS.isDigit d = true -> JS.takeSign (String d r) = (false, String d r).
Proof.
  intros Hd. destruct (digit_not_sign d Hd) as [Hm Hp].
  unfold JS.takeSign. by rewrite Hm, Hp.
Qed.

Lemma append_nil_r s : s +:+ "" = s.
Proof. induction s as [|c s IH]; [done|]. change (String c (s +:+ "") = String c s). by f_equal. Qed.

(** **** Rounding to a double *)

Lemma Qred_integer z k :
  0 < k -> Qred (z * k # Z.to_pos k) = inject_Z z.
Proof.
  intros Hk.
  transitivity (Qred (inject_Z z)).
  - apply Qred_complete. unfold Qeq, inject_Z. simpl.
    rewrite Z2Pos.id by lia. lia.
  - apply Qcanon.Qred_identity. simpl. apply Z.gcd_1_r.
Qed.

Lemma pow2_53_lt : 2 ^ 53 < 2 ^ 1024.
Proof. apply Z.pow_lt_mono_r; lia. Qed.

(** An integer below [2 ^ 53] is a double. *)
Lemma nearestDouble_integer p :
  Zpos p < 2 ^ 53 -> JS.nearestDouble (Zpos p) 1 = JS.int (Zpos p).
Proof.
  intros Hp. set (n := Zpos p) in *.
  assert (Hn : 0 < n) by (subst n; lia).
  destruct (Z.log2_spec n Hn) as [Hlo Hhi].
  pose proof (Z.log2_nonneg n) as He0.
  assert (He : Z.log2 n <= 52).
  { assert (Z.log2 n < 53) by (apply Z.log2_lt_pow2; lia). lia. }
  set (e := Z.log2 n) in *.
  unfold JS.nearestDouble, JS.binade, JS.scaled. cbv zeta.
  change (Z.log2 1) with 0. rewrite !Z.sub_0_r. fold e.
  rewrite (Z.max_l 0 (- e)), (Z.max_r 0 e) by lia.
  rewrite Z.pow_0_r, Z.mul_1_r, Z.mul_1_l.
  destruct (Z.ltb_spec n (2 ^ e)) as [Hlt|_]; [lia|].
  rewrite (Z.max_l (e - 52) (-1074)) by lia.
  rewrite (Z.max_r 0 (- (e - 52))), (Z.max_l 0 (e - 52)) by lia.
  rewrite Z.pow_0_r, !Z.mul_1_r.
  unfold JS.roundHalfEven. rewrite Z.div_1_r, Z.mod_1_r.
  change (2 * 0 ?= 1)%Z with Lt. cbv iota.
  assert (Hk : 0 < 2 ^ (- (e - 52))) by (apply Z.pow_pos_nonneg; lia).
  assert (Hbound : n * 2 ^ (- (e - 52)) < 2 ^ 53).
  { replace (2 ^ 53) with (2 ^ Z.succ e * 2 ^ (- (e - 52))).
    - apply Z.mul_lt_mono_pos_r; lia.
    - rewrite <- Z.pow_add_r by lia. f_equal. lia. }
  pose proof pow2_53_lt.
  destruct (Z.leb_spec (2 ^ 1024) (n * 2 ^ (- (e - 52)))) as [Hge|_]; [lia|].
  unfold JS.int. f_equal. by apply Qred_integer.
Qed.

(** The Number value for an integer of magnitude at most [2 ^ 53] is the
    integer. *)
Lemma numberValue_int z :
  Z.abs z <= 2 ^ 53 -> JS.numberValue (inject_Z z) = JS.int z.
Proof.
  intros Hz. unfold JS.numberValue.
  assert (Hred : Qred (inject_Z z) = inject_Z z)
    by (apply Qcanon.Qred_identity; simpl; apply Z.gcd_1_r).
  rewrite Hred. cbn [Qnum Qden inject_Z].
  destruct z as [|p|p]; [done| |].
  - destruct (Z.eq_dec (Zpos p) (2 ^ 53)) as [Heq|Hne].
    + injection Heq as ->. vm_compute. reflexivity.
    + apply nearestDouble_integer. lia.
  - destruct (Z.eq_dec (Zpos p) (2 ^ 53)) as [Heq|Hne].
    + injection Heq as ->. vm_compute. reflexivity.
    + rewrite nearestDouble_integer by lia. reflexivity.
Qed.

(** A Number value is not NaN, so [|| 0] leaves it as it is. *)
Lemma numberValue_orZero q : JS.orZero (JS.numberValue q) = JS.numberValue q.
Proof.
  assert (Hpos : forall n d,
             JS.orZero (JS.nearestDouble n d) = JS.nearestDouble n d
             /\ JS.orZero (JS.negate (JS.nearestDouble n d))
                = JS.negate (JS.nearestDouble n d)).
  { intros n d. unfold JS.nearestDouble.
    destruct (JS.scaled n d _) as [a b].
    by destruct (_ <=? _)%Z. }
  unfold JS.numberValue. destruct (Qnum (Qred q)); [done|apply Hpos..].
Qed.

Lemma numberValue_Qeq p q : (p == q)%Q -> JS.numberValue p = JS.numberValue q.
Proof. intros H. unfold JS.numberValue. by rewrite (Qred_complete p q H). Qed.

(** The rounding at some known doubles: 0.1; the tie at [2 ^ 53 + 1], which
    goes down to the even [2 ^ 53], and the tie at [2 ^ 53 + 3], which goes
    up; [1e-323], which is twice the least subnormal [2 ^ -1074]; that
    subnormal itself, and the underflow below its half; the greatest
    double, and the overflow from the tie above it. *)
Lemma numberValue_samples :
  JS.numberValue (1 # 10) = JS.Finite (3602879701896397 # 36028797018963968)
  /\ JS.numberValue (inject_Z (2 ^ 53 + 1)) = JS.int (2 ^ 53)
  /\ JS.numberValue (inject_Z (2 ^ 53 + 3)) = JS.int (2 ^ 53 + 4)
  /\ JS.numberValue (JS.pow10 (-323)) = JS.Finite (1 # Z.to_pos (2 ^ 1073))
  /\ JS.numberValue (49 # Z.to_pos (10 ^ 325)) = JS.Finite (1 # Z.to_pos (2 ^ 1074))
  /\ JS.numberValue (24 # Z.to_pos (10 ^ 325)) = JS.Finite 0
  /\ JS.numberValue (JS.pow10 (-400)) = JS.Finite 0
  /\ JS.numberValue (inject_Z ((2 ^ 53 - 1) * 2 ^ 971 + 2 ^ 969))
     = JS.int ((2 ^ 53 - 1) * 2 ^ 971)
  /\ JS.numberValue (inject_Z ((2 ^ 53 - 1) * 2 ^ 971 + 2 ^ 970))
     = JS.Infinity false
  /\ JS.numberValue (- JS.pow10 400) = JS.Infinity true.
Proof. repeat split; vm_compute; reflexivity. Qed.

(** **** Numerals *)

Lemma takeSign_signed sign c r :
  In sign [""; "+"; "-"] ->
  Ascii.eqb c "-" = false -> Ascii.eqb c "+" = false ->
  JS.takeSign (sign +:+ String c r) = (String.eqb sign "-", String c r).
Proof.
  intros Hsign Hm Hp. simpl in Hsign. destruct Hsign as [<-|[<-|[<-|[]]]].
  - change ("" +:+ ?x) with x. unfold JS.takeSign. by rewrite Hm, Hp.
  - reflexivity.
  - reflexivity.
Qed.

Lemma parseInt_leading t sign ds rest :
  JS.trimStart t = t ->
  In sign [""; "+"; "-"] ->
  ds <> [] ->
  forallb JS.isDigit ds = true ->
  match rest with
  | String c _ => JS.isDigit c = false
  | EmptyString => True
  end ->
  t = sign +:+ string_of_list_ascii ds +:+ rest ->
  JS.parseInt t = JS.numberValue (inject_Z (signedInteger sign ds)).
Proof.
  intros Ht Hsign Hne Hds Hrest ->. unfold JS.parseInt, signedInteger.
  rewrite Ht. clear Ht.
  pose proof (spanDigits_app ds rest Hds Hrest) as Hspan.
  rewrite <- digitsValue_positional.
  destruct ds as [|d ds']; [done|clear Hne].
  assert (Hd : JS.isDigit d = true) by (simpl in Hds; by destruct (JS.isDigit d)).
  destruct (digit_not_sign d Hd) as [Hm Hp].
  change (string_of_list_ascii (d :: ds') +:+ rest)
    with (String d (string_of_list_ascii ds' +:+ rest)) in *.
  rewrite (takeSign_signed sign d _ Hsign Hm Hp). cbv beta iota.
  by rewrite Hspan.
Qed.

Lemma intCell_leading cells i sign ds rest :
  In sign [""; "+"; "-"] ->
  ds <> [] ->
  forallb JS.isDigit ds = true ->
  match rest with
  | String c _ => JS.isDigit c = false
  | EmptyString => True
  end ->
  textCell cells i = sign +:+ string_of_list_ascii ds +:+ rest ->
  intCell cells i = JS.numberValue (inject_Z (signedInteger sign ds)).
Proof.
  unfold textCell, intCell. intros Hsign Hne Hds Hrest Ht.
  rewrite (parseInt_leading _ sign ds rest (trimStart_trim _) Hsign Hne Hds Hrest Ht).
  apply numberValue_orZero.
Qed.

Lemma positional_nonneg ds :
  forallb JS.isDigit ds = true -> 0 <= positional ds.
Proof.
  induction ds as [|d ds IH]; simpl; [lia|].
  intros [Hd Hds]%andb_true_iff. specialize (IH Hds).
  assert (0 <= JS.digitValue d).
  { unfold JS.isDigit in Hd. unfold JS.digitValue.
    apply andb_true_iff in Hd as [Hd _]. apply N.leb_le in Hd. lia. }
  assert (0 <= 10 ^ Z.of_nat (List.length ds)) by (apply Z.pow_nonneg; lia).
  nia.
Qed.

Lemma signedInteger_abs sign ds :
  forallb JS.isDigit ds = true ->
  Z.abs (signedInteger sign ds) = positional ds.
Proof.
  intros H%positional_nonneg.
  unfold signedInteger, JS.applySign. destruct (String.eqb sign "-"); lia.
Qed.

Lemma positional_app ip fp :
  positional (ip ++ fp)
  = positional ip * 10 ^ Z.of_nat (List.length fp) + positional fp.
Proof.
  induction ip as [|d ip IH]; simpl; [lia|].
  rewrite IH, length_app, Nat2Z.inj_add, Z.pow_add_r by lia. ring.
Qed.

Lemma pow10_neg n :
  (JS.pow10 (0 - Z.of_nat n) == 1 / inject_Z (10 ^ Z.of_nat n))%Q.
Proof.
  unfold JS.pow10. destruct (Z.leb_spec 0 (0 - Z.of_nat n)) as [H|H].
  - assert (n = 0%nat) as -> by lia. reflexivity.
  - replace (- (0 - Z.of_nat n)) with (Z.of_nat n) by lia.
    unfold Qdiv. by rewrite Qmult_1_l.
Qed.

Lemma decimal_value neg ip fp :
  (inject_Z (JS.applySign neg (positional (ip ++ fp)))
   * JS.pow10 (0 - Z.of_nat (List.length fp))
   == let v := inject_Z (positional ip)
               + inject_Z (positional fp)
                 / inject_Z (10 ^ Z.of_nat (List.length fp)) in
      if neg then - v else v)%Q.
Proof.
  rewrite pow10_neg, positional_app. cbv zeta.
  set (T := 10 ^ Z.of_nat (List.length fp)).
  assert (HT : ~ (inject_Z T == 0)%Q).
  { assert (0 < T) by (apply Z.pow_pos_nonneg; lia).
    unfold Qeq, inject_Z. simpl. lia. }
  destruct neg; unfold JS.applySign;
    rewrite ?inject_Z_opp, inject_Z_plus, inject_Z_mult; by field.
Qed.

Lemma spanDigits_all ds :
  forallb JS.isDigit ds = true ->
  JS.spanDigits (string_of_list_ascii ds) = (ds, "").
Proof.
  induction ds as [|d ds IH]; simpl; [done|].
  intros [Hd Hds]%andb_true_iff. by rewrite Hd, (IH Hds).
Qed.

Lemma digit_not_Infinity d r :
  JS.isDigit d = true -> String.prefix "Infinity" (String d r) = false.
Proof.
  intros Hd.
  change (String.prefix "Infinity" (String d r))
    with (if ascii_dec "I" d then String.prefix "nfinity" r else false).
  destruct (ascii_dec "I" d) as [<-|]; [discriminate Hd|done].
Qed.

Lemma parseFloat_decimal t sign ip fp :
  JS.trimStart t = t ->
  In sign [""; "+"; "-"] ->
  ip ++ fp <> [] ->
  forallb JS.isDigit ip = true ->
  forallb JS.isDigit fp = true ->
  t = sign +:+ string_of_list_ascii ip +:+ "." +:+ string_of_list_ascii fp
  \/ (fp = [] /\ t = sign +:+ string_of_list_ascii ip) ->
  JS.parseFloat t = JS.numberValue (signedDecimal sign ip fp).
Proof.
  intros Ht Hsign Hne Hip Hfp Hform.
  assert (Hvalue :
            JS.numberValue
              (inject_Z (JS.applySign (String.eqb sign "-")
                           (JS.digitsValue (ip ++ fp)))
               * JS.pow10 (0 - Z.of_nat (List.length fp)))
            = JS.numberValue (signedDecimal sign ip fp)).
  { apply numberValue_Qeq. rewrite digitsValue_positional.
    apply decimal_value. }
  assert (Hpoint : JS.spanDigits
                     (string_of_list_ascii ip +:+ "." +:+ string_of_list_ascii fp)
                   = (ip, "." +:+ string_of_list_ascii fp))
    by (by apply spanDigits_app).
  unfold JS.parseFloat. rewrite Ht. clear Ht.
  destruct Hform as [->|[-> ->]].
  - destruct ip as [|d ip'].
    + change (string_of_list_ascii [] +:+ ?x) with x in *.
      change ("." +:+ ?x) with (String "." x) in *.
      rewrite (takeSign_signed sign "." _ Hsign eq_refl eq_refl).
      cbv beta iota. change (String.prefix "Infinity" (String "." ?x)) with false.
      cbv iota. rewrite Hpoint. cbv beta iota.
      change (Ascii.eqb "." ".") with true. cbv iota.
      rewrite (spanDigits_all fp Hfp). cbv beta iota.
      destruct fp as [|f fp']; [done|]. exact Hvalue.
    + assert (Hd : JS.isDigit d = true)
        by (simpl in Hip; by destruct (JS.isDigit d)).
      destruct (digit_not_sign d Hd) as [Hm Hp].
      change (string_of_list_ascii (d :: ip') +:+ ?x)
        with (String d (string_of_list_ascii ip' +:+ x)) in *.
      rewrite (takeSign_signed sign d _ Hsign Hm Hp). cbv beta iota.
      rewrite (digit_not_Infinity d _ Hd), Hpoint. cbv beta iota.
      change ("." +:+ ?x) with (String "." x).
      change (Ascii.eqb "." ".") with true. cbv iota.
      rewrite (spanDigits_all fp Hfp). cbv beta iota. exact Hvalue.
  - rewrite app_nil_r in *. destruct ip as [|d ip']; [done|].
    assert (Hd : JS.isDigit d = true)
      by (simpl in Hip; by destruct (JS.isDigit d)).
    destruct (digit_not_sign d Hd) as [Hm Hp].
    change (string_of_list_ascii (d :: ip'))
      with (String d (string_of_list_ascii ip')) in *.
    rewrite (takeSign_signed sign d _ Hsign Hm Hp). cbv beta iota.
    rewrite (digit_not_Infinity d _ Hd).
    change (String d (string_of_list_ascii ip'))
      with (string_of_list_ascii (d :: ip')).
    rewrite (spanDigits_all (d :: ip') Hip). cbv beta iota.
    rewrite app_nil_r. exact Hvalue.
Qed.

Lemma floatCell_decimal cells i sign ip fp :
  In sign [""; "+"; "-"] ->
  ip ++ fp <> [] ->
  forallb JS.isDigit ip = true ->
  forallb JS.isDigit fp = true ->
  textCell cells i
  = sign +:+ string_of_list_ascii ip +:+ "." +:+ string_of_list_ascii fp
  \/ (fp = [] /\ textCell cells i = sign +:+ string_of_list_ascii ip) ->
  floatCell cells i = JS.numberValue (signedDecimal sign ip fp).
Proof.
  unfold textCell, floatCell. intros Hsign Hne Hip Hfp Ht.
  rewrite (parseFloat_decimal _ sign ip fp (trimStart_trim _) Hsign Hne Hip Hfp Ht).
  apply numberValue_orZero.
Qed.

(** *** The cells behind the fields of a pushed record *)

Ltac split_row :=
  repeat match goal with
         | |- context [if ?b then _ else _] => destruct b eqn:?
         end.

Ltac no_push H :=
  apply (f_equal (@List.length _)) in H; rewrite length_app in H; simpl in H; lia.

Ltac read_fields :=
  repeat match goal with
         | H : In _ (_ :: _) |- _ => destruct H as [H|H]; [inversion H; subst; reflexivity|]
         | H : In _ [] |- _ => destruct H
         end.

Lemma standingsRow_reads this teams r :
  standingsRow this teams = teams ++ [r] ->
  (forall i f, In (i, f) standingsInts ->
     f r = intCell (Cheerio.find "td" [this]) i)
  /\ (forall i f, In (i, f) standingsFloats ->
        f r = floatCell (Cheerio.find "td" [this]) i).
Proof.
  unfold standingsRow. split_row; intros H; try no_push H.
  apply app_inv_head in H. inversion H; subst r; clear H.
  split; intros i f Hin; unfold standingsInts, standingsFloats in Hin; read_fields.
Qed.

Lemma playerRow_reads index this players r :
  playerRow index this players = players ++ [r] ->
  (forall i f, In (i, f) playerInts ->
     f r = intCell (Cheerio.find "td" [this]) i)
  /\ (forall i f, In (i, f) playerFloats ->
        f r = floatCell (Cheerio.find "td" [this]) i).
Proof.
  unfold playerRow. split_row; intros H; try no_push H.
  apply app_inv_head in H. inversion H; subst r; clear H.
  split; intros i f Hin; unfold playerInts, playerFloats in Hin; read_fields.
Qed.

Lemma goalieRow_reads index this goalies r :
  goalieRow index this goalies = goalies ++ [r] ->
  (forall i f, In (i, f) goalieInts ->
     f r = intCell (Cheerio.find "td" [this]) i)
  /\ (forall i f, In (i, f) goalieFloats ->
        f r = floatCell (Cheerio.find "td" [this]) i).
Proof.
  unfold goalieRow. split_row; intros H; try no_push H.
  apply app_inv_head in H. inversion H; subst r; clear H.
  split; intros i f Hin; unfold goalieInts, goalieFloats in Hin; read_fields.
Qed.

(** *** Numeric fields *)

(** A row with the cells of its kind and a name that is neither empty nor
    the column title gives a record. *)
Lemma standingsRow_pushes this teams :
  let cells := Cheerio.find "td" [this] in
  let teamName := teamNameOf (Cheerio.eq 0 cells) in
  (8 <= List.length cells)%nat ->
  teamName <> "" ->
  JS.toLowerCase teamName <> "team" ->
  exists r, standingsRow this teams = teams ++ [r].
Proof.
  intros cells teamName Hlen Hname Htitle. subst cells teamName.
  unfold standingsRow.
  rewrite (proj2 (Nat.leb_le _ _) Hlen).
  destruct (teamNameOf _) as [|c name] eqn:Hn; [done|].
  cbn [JS.isEmpty orb].
  rewrite (proj2 (String.eqb_neq _ _) Htitle). by eexists.
Qed.

Lemma playerRow_pushes index this players :
  let cells := Cheerio.find "td" [this] in
  let playerName := playerNameOf (Cheerio.eq 1 cells) in
  (16 <= List.length cells)%nat ->
  playerName <> "" ->
  JS.toLowerCase playerName <> "player" ->
  exists r, playerRow index this players = players ++ [r].
Proof.
  intros cells playerName Hlen Hname Htitle. subst cells playerName.
  unfold playerRow.
  rewrite (proj2 (Nat.leb_le _ _) Hlen).
  destruct (playerNameOf _) as [|c name] eqn:Hn; [done|].
  cbn [JS.isEmpty orb].
  rewrite (proj2 (String.eqb_neq _ _) Htitle). cbn [orb].
  change (String.eqb (String c name) "") with false. by eexists.
Qed.

Lemma goalieRow_pushes index this goalies :
  let cells := Cheerio.find "td" [this] in
  let goalieName := goalieNameOf (Cheerio.eq 1 cells) in
  (16 <= List.length cells)%nat ->
  goalieName <> "" ->
  JS.toLowerCase goalieName <> "goalie" ->
  exists r, goalieRow index this goalies = goalies ++ [r].
Proof.
  intros cells goalieName Hlen Hname Htitle. subst cells goalieName.
  unfold goalieRow.
  rewrite (proj2 (Nat.leb_le _ _) Hlen).
  destruct (goalieNameOf _) as [|c name] eqn:Hn; [done|].
  cbn [JS.isEmpty orb].
  rewrite (proj2 (String.eqb_neq _ _) Htitle). cbn [orb].
  change (String.eqb (String c name) "") with false. by eexists.
Qed.

Lemma cells_zeroDefault {R : Type} cells (r : R) ints floats :
  (forall i f, In (i, f) ints -> f r = intCell cells i) ->
  (forall i f, In (i, f) floats -> f r = floatCell cells i) ->
  zeroDefault cells r ints floats.
Proof.
  intros Hints Hfloats. split; intros i f Hin Htext.
  - rewrite (Hints i f Hin). by apply intCell_default.
  - rewrite (Hfloats i f Hin). by apply floatCell_default.
Qed.

Lemma cells_numeralsRead {R : Type} cells (r : R) ints floats :
  (forall i f, In (i, f) ints -> f r = intCell cells i) ->
  (forall i f, In (i, f) floats -> f r = floatCell cells i) ->
  numeralsRead cells r ints floats.
Proof.
  intros Hints Hfloats. split.
  - intros i f sign ds Hin Hsign Hne Hds Htext. rewrite (Hints i f Hin).
    apply (intCell_leading _ _ sign ds ""); [done..|].
    by rewrite append_nil_r.
  - intros i f sign ip fp Hin Hsign Hne Hip Hfp Htext.
    rewrite (Hfloats i f Hin). by apply floatCell_decimal.
Qed.

Lemma cells_leadingIntegerRead {R : Type} cells (r : R) ints :
  (forall i f, In (i, f) ints -> f r = intCell cells i) ->
  leadingIntegerRead cells r ints.
Proof.
  intros Hints i f sign ds rest Hin Hsign Hne Hds Hrest Htext.
  rewrite (Hints i f Hin).
  rewrite (intCell_leading _ _ sign ds rest Hsign Hne Hds Hrest Htext).
  split; [done|]. intros Hbound. apply numberValue_int.
  by rewrite signedInteger_abs.
Qed.

(** C4, as amended.  For the three kinds of record alike, a row with the
    cells of its kind and a name that is neither empty nor the column
    title gives a record, and in every record that a row gives, every
    numeric field is a number, nothing being thrown.  An integer field
    whose cell text, trimmed, is empty or does not open with a base-10
    integer (an optional sign, then a digit) is exactly 0, and a
    fractional field whose cell text, trimmed, is empty or does not open
    with a decimal (an optional sign, then a digit, a point and a digit,
    or Infinity) is exactly 0.  Integer fields are read in base 10 and
    fractional fields as decimals: a cell that reads as a base-10 integer,
    or as a decimal with or without a point, gives the Number value for
    it, which is the double nearest to it, or an infinity beyond the range
    of the doubles. *)
Theorem numeric_fields_default_to_zero :
  (forall this teams,
     let cells := Cheerio.find "td" [this] in
     let teamName := teamNameOf (Cheerio.eq 0 cells) in
     ((8 <= List.length cells)%nat ->
      teamName <> "" ->
      JS.toLowerCase teamName <> "team" ->
      exists r, standingsRow this teams = teams ++ [r])
     /\ (forall r,
           standingsRow this teams = teams ++ [r] ->
           zeroDefault cells r standingsInts standingsFloats
           /\ numeralsRead cells r standingsInts standingsFloats))
  /\ (forall index this players,
        let cells := Cheerio.find "td" [this] in
        let playerName := playerNameOf (Cheerio.eq 1 cells) in
        ((16 <= List.length cells)%nat ->
         playerName <> "" ->
         JS.toLowerCase playerName <> "player" ->
         exists r, playerRow index this players = players ++ [r])
        /\ (forall r,
              playerRow index this players = players ++ [r] ->
              zeroDefault cells r playerInts playerFloats
              /\ numeralsRead cells r playerInts playerFloats))
  /\ (forall index this goalies,
        let cells := Cheerio.find "td" [this] in
        let goalieName := goalieNameOf (Cheerio.eq 1 cells) in
        ((16 <= List.length cells)%nat ->
         goalieName <> "" ->
         JS.toLowerCase goalieName <> "goalie" ->
         exists r, goalieRow index this goalies = goalies ++ [r])
        /\ (forall r,
              goalieRow index this goalies = goalies ++ [r] ->
              zeroDefault cells r goalieInts goalieFloats
              /\ numeralsRead cells r goalieInts goalieFloats)).
Proof.
  split; [|split].
  - intros this teams cells teamName. split.
    + apply standingsRow_pushes.
    + intros r Hr. destruct (standingsRow_reads _ _ _ Hr) as [Hints Hfloats].
      split; [by apply cells_zeroDefault|by apply cells_numeralsRead].
  - intros index this players cells playerName. split.
    + apply playerRow_pushes.
    + intros r Hr. destruct (playerRow_reads _ _ _ _ Hr) as [Hints Hfloats].
      split; [by apply cells_zeroDefault|by apply cells_numeralsRead].
  - intros index this goalies cells goalieName. split.
    + apply goalieRow_pushes.
    + intros r Hr. destruct (goalieRow_reads _ _ _ _ Hr) as [Hints Hfloats].
      split; [by apply cells_zeroDefault|by apply cells_numeralsRead].
Qed.

(** A standings row without a number: the games and the percentage are 0.
    A player row: the goals, not given, are 0, the games are 12 and the
    points per game are the double for 1.58.  A goalie row: the wins and
    the third decimal, not given, are 0, the saves are 180 and the save
    percentage is the double for 0.9. *)
Lemma numeric_fields_default_to_zero_witness :
  (exists r,
      standingsRow owlsRow [] = [r]
      /\ Team.gp r = JS.Finite 0 /\ Team.wpct r = JS.Finite 0)
  /\ (exists r,
         playerRow 0 jonesRow [] = [r]
         /\ Player.goals r = JS.Finite 0
         /\ Player.gp r = JS.int 12
         /\ Player.pointsPerGame r = JS.numberValue (158 # 100))
  /\ (exists r,
         goalieRow 0 smithRow [] = [r]
         /\ Goalie.w r = JS.Finite 0
         /\ Goalie.gsaa r = JS.Finite 0
         /\ Goalie.sv r = JS.int 180
         /\ Goalie.svPct r = JS.numberValue (9 # 10)).
Proof.
  destruct numeric_fields_default_to_zero as (Hs & Hp & Hg).
  split; [|split].
  - destruct (Hs owlsRow []) as [Hpush Hall].
    destruct Hpush as [r Hr];
      [vm_compute; lia|vm_compute; discriminate|vm_compute; discriminate|].
    destruct (Hall r Hr) as [[Hint Hfloat] _].
    exists r. split; [exact Hr|]. split.
    + apply (Hint 1%nat Team.gp); [simpl; tauto|vm_compute; reflexivity].
    + apply (Hfloat 7%nat Team.wpct); [simpl; tauto|vm_compute; reflexivity].
  - destruct (Hp 0%nat jonesRow []) as [Hpush Hall].
    destruct Hpush as [r Hr];
      [vm_compute; lia|vm_compute; discriminate|vm_compute; discriminate|].
    destruct (Hall r Hr) as [[Hint _] [Hinteger Hdecimal]].
    exists r. split; [exact Hr|]. split; [|split].
    + apply (Hint 6%nat Player.goals); [simpl; tauto|vm_compute; reflexivity].
    + rewrite (Hinteger 5%nat Player.gp "" ["1"; "2"]%char);
        [vm_compute; reflexivity|simpl; tauto|simpl; tauto|discriminate
        |reflexivity|vm_compute; reflexivity].
    + rewrite (Hdecimal 9%nat Player.pointsPerGame "" ["1"]%char
                 ["5"; "8"]%char);
        [vm_compute; reflexivity|simpl; tauto|simpl; tauto|discriminate
        |reflexivity|reflexivity|left; vm_compute; reflexivity].
  - destruct (Hg 0%nat smithRow []) as [Hpush Hall].
    destruct Hpush as [r Hr];
      [vm_compute; lia|vm_compute; discriminate|vm_compute; discriminate|].
    destruct (Hall r Hr) as [[Hint Hfloat] [Hinteger Hdecimal]].
    exists r. split; [exact Hr|]. split; [|split; [|split]].
    + apply (Hint 4%nat Goalie.w); [simpl; tauto|vm_compute; reflexivity].
    + apply (Hfloat 12%nat Goalie.gsaa); [simpl; tauto|vm_compute; reflexivity].
    + rewrite (Hinteger 14%nat Goalie.sv "" ["1"; "8"; "0"]%char);
        [vm_compute; reflexivity|simpl; tauto|simpl; tauto|discriminate
        |reflexivity|vm_compute; reflexivity].
    + rewrite (Hdecimal 15%nat Goalie.svPct "" []%char
                 ["9"; "0"; "0"]%char);
        [vm_compute; reflexivity|simpl; tauto|simpl; tauto|discriminate
        |reflexivity|reflexivity|left; vm_compute; reflexivity].
Defined.

(** C4 as stated fails: the games cell of this row reads 12abc, which is
    not an integer, and the field is 12, not 0; its percentage cell reads
    Infinity, and the field is infinite. *)
Lemma non_numeric_cell_decoded_as_12 :
  textCell (Cheerio.find "td" [hawksRow]) 1 = "12abc"
  /\ isIntegerText "12abc" = false
  /\ map Team.gp (standingsRow hawksRow []) = [JS.int 12]
  /\ textCell (Cheerio.find "td" [hawksRow]) 7 = "Infinity"
  /\ map Team.wpct (standingsRow hawksRow []) = [JS.Infinity false].
Proof. vm_compute. done. Qed.

(** C10, as amended.  For the three kinds of record alike, a row with the
    cells of its kind and a name that is neither empty nor the column
    title gives a record, and in every record that a row gives, an integer
    field whose cell text, trimmed, is an optional sign, one digit or
    more, and then text that does not go on with a digit, is the Number
    value for the integer that the sign and the digits denote: the integer
    itself when the digits denote at most [2 ^ 53], and otherwise the
    double nearest to it, or an infinity beyond the range of the doubles.
    The rest of the text is ignored, so the default of 0 is not taken. *)
Theorem leading_integer_is_decoded :
  (forall this teams,
     let cells := Cheerio.find "td" [this] in
     let teamName := teamNameOf (Cheerio.eq 0 cells) in
     ((8 <= List.length cells)%nat ->
      teamName <> "" ->
      JS.toLowerCase teamName <> "team" ->
      exists r, standingsRow this teams = teams ++ [r])
     /\ (forall r,
           standingsRow this teams = teams ++ [r] ->
           leadingIntegerRead cells r standingsInts))
  /\ (forall index this players,
        let cells := Cheerio.find "td" [this] in
        let playerName := playerNameOf (Cheerio.eq 1 cells) in
        ((16 <= List.length cells)%nat ->
         playerName <> "" ->
         JS.toLowerCase playerName <> "player" ->
         exists r, playerRow index this players = players ++ [r])
        /\ (forall r,
              playerRow index this players = players ++ [r] ->
              leadingIntegerRead cells r playerInts))
  /\ (forall index this goalies,
        let cells := Cheerio.find "td" [this] in
        let goalieName := goalieNameOf (Cheerio.eq 1 cells) in
        ((16 <= List.length cells)%nat ->
         goalieName <> "" ->
         JS.toLowerCase goalieName <> "goalie" ->
         exists r, goalieRow index this goalies = goalies ++ [r])
        /\ (forall r,
              goalieRow index this goalies = goalies ++ [r] ->
              leadingIntegerRead cells r goalieInts)).
Proof.
  split; [|split].
  - intros this teams cells teamName. split.
    + apply standingsRow_pushes.
    + intros r Hr.
      apply cells_leadingIntegerRead, (standingsRow_reads _ _ _ Hr).
  - intros index this players cells playerName. split.
    + apply playerRow_pushes.
    + intros r Hr.
      apply cells_leadingIntegerRead, (playerRow_reads _ _ _ _ Hr).
  - intros index this goalies cells goalieName. split.
    + apply goalieRow_pushes.
    + intros r Hr.
      apply cells_leadingIntegerRead, (goalieRow_reads _ _ _ _ Hr).
Qed.

(** The games cell 12abc of a standings row is decoded as 12, the assists
    cell 7* and the penalty cell 4 min of a player row as 7 and 4, and the
    minutes cell 450 min of a goalie row as 450. *)
Lemma leading_integer_is_decoded_witness :
  (exists r, standingsRow hawksRow [] = [r] /\ Team.gp r = JS.int 12)
  /\ (exists r,
         playerRow 0 jonesRow [] = [r]
         /\ Player.assists r = JS.int 7 /\ Player.pim r = JS.int 4)
  /\ (exists r, goalieRow 0 smithRow [] = [r] /\ Goalie.mp r = JS.int 450).
Proof.
  destruct leading_integer_is_decoded as (Hs & Hp & Hg).
  split; [|split].
  - destruct (Hs hawksRow []) as [Hpush Hall].
    destruct Hpush as [r Hr];
      [vm_compute; lia|vm_compute; discriminate|vm_compute; discriminate|].
    pose proof (Hall r Hr) as Hread.
    exists r. split; [exact Hr|].
    apply (Hread 1%nat Team.gp "" ["1"; "2"]%char "abc");
      [simpl; tauto|simpl; tauto|discriminate|reflexivity|reflexivity
      |vm_compute; reflexivity|vm_compute; discriminate].
  - destruct (Hp 0%nat jonesRow []) as [Hpush Hall].
    destruct Hpush as [r Hr];
      [vm_compute; lia|vm_compute; discriminate|vm_compute; discriminate|].
    pose proof (Hall r Hr) as Hread.
    exists r. split; [exact Hr|]. split.
    + apply (Hread 7%nat Player.assists "" ["7"]%char "*");
        [simpl; tauto|simpl; tauto|discriminate|reflexivity|reflexivity
        |vm_compute; reflexivity|vm_compute; discriminate].
    + apply (Hread 15%nat Player.pim "" ["4"]%char " min");
        [simpl; tauto|simpl; tauto|discriminate|reflexivity|reflexivity
        |vm_compute; reflexivity|vm_compute; discriminate].
  - destruct (Hg 0%nat smithRow []) as [Hpush Hall].
    destruct Hpush as [r Hr];
      [vm_compute; lia|vm_compute; discriminate|vm_compute; discriminate|].
    pose proof (Hall r Hr) as Hread.
    exists r. split; [exact Hr|].
    apply (Hread 9%nat Goalie.mp "" ["4"; "5"; "0"]%char " min");
      [simpl; tauto|simpl; tauto|discriminate|reflexivity|reflexivity
      |vm_compute; reflexivity|vm_compute; discriminate].
Defined.

(** C10 as stated fails past [2 ^ 53]: the games cell of this row opens
    with the integer 9007199254740993, which is [2 ^ 53 + 1], and the
    field is 9007199254740992, the double nearest to it. *)
Lemma leading_integer_past_2_53_is_rounded :
  textCell (Cheerio.find "td" [longRow]) 1 = "9007199254740993abc"
  /\ map Team.gp (standingsRow longRow []) = [JS.int 9007199254740992]
  /\ JS.int 9007199254740992 <> JS.int 9007199254740993.
Proof.
  split; [vm_compute; reflexivity|]. split; [vm_compute; reflexivity|].
  intros H. discriminate H.
Qed.

(** *** Rows that give no record *)

(** C5.  A row is dropped, that is, its callback leaves the array of
    records as it was, whenever the row has fewer cells than the minimum
    of its kind (8 for standings, 16 for player and for goalie stats), or
    the name derived from its name cell is empty, or that name in lower
    case is the column title ([team], [player], [goalie]). *)
Theorem short_and_title_rows_dropped :
  (forall this teams,
     let cells := Cheerio.find "td" [this] in
     let teamName := teamNameOf (Cheerio.eq 0 cells) in
     (List.length cells < 8)%nat \/ teamName = ""
     \/ JS.toLowerCase teamName = "team" ->
     standingsRow this teams = teams)
  /\ (forall index this players,
        let cells := Cheerio.find "td" [this] in
        let playerName := playerNameOf (Cheerio.eq 1 cells) in
        (List.length cells < 16)%nat \/ playerName = ""
        \/ JS.toLowerCase playerName = "player" ->
        playerRow index this players = players)
  /\ (forall index this goalies,
        let cells := Cheerio.find "td" [this] in
        let goalieName := goalieNameOf (Cheerio.eq 1 cells) in
        (List.length cells < 16)%nat \/ goalieName = ""
        \/ JS.toLowerCase goalieName = "goalie" ->
        goalieRow index this goalies = goalies).
Proof.
  repeat split;
    [intros this teams cells name H | intros index this players cells name H
    | intros index this goalies cells name H]; subst cells name.
  - unfold standingsRow.
    destruct (Nat.leb_spec 8 (List.length (Cheerio.find "td" [this]))); [|done].
    destruct H as [H|[H|H]]; [lia| |]; rewrite H; [done|].
    by rewrite orb_true_r.
  - unfold playerRow.
    destruct (Nat.leb_spec 16 (List.length (Cheerio.find "td" [this]))); [|done].
    destruct H as [H|[H|H]]; [lia| |]; rewrite H; [done|].
    by rewrite orb_true_r.
  - unfold goalieRow.
    destruct (Nat.leb_spec 16 (List.length (Cheerio.find "td" [this]))); [|done].
    destruct H as [H|[H|H]]; [lia| |]; rewrite H; [done|].
    by rewrite orb_true_r.
Qed.

(** A row of three cells, and rows whose name cell is the column title. *)
Lemma short_and_title_rows_dropped_witness :
  standingsRow shortRow [] = []
  /\ playerRow 0 (titleRow "Player") [] = []
  /\ goalieRow 0 (titleRow "GOALIE") [] = [].
Proof.
  destruct short_and_title_rows_dropped as (Hs & Hp & Hg).
  split; [|split].
  - apply Hs. left. vm_compute. lia.
  - apply Hp. right. right. vm_compute. reflexivity.
  - apply Hg. right. right. vm_compute. reflexivity.
Defined.

(** *** Names *)




Lemma hasClass_In k cls : existsb (String.eqb k) cls = true <-> In k cls.
Proof.
  rewrite existsb_exists. split.
  - intros (x & Hx & ->%String.eqb_eq). done.
  - intros H. exists k. by rewrite String.eqb_refl.
Qed.




(** *** Rows of plain text cells *)

Lemma text_eq_nth i cells :
  Cheerio.text (Cheerio.eq i cells) = nth i (cellTexts cells) "".
Proof.
  unfold Cheerio.eq. revert i. induction cells as [|c cells IH]; intros [|i]; try done.
  simpl. apply IH.
Qed.

Lemma standingsRow_plain this teams :
  plainName this ->
  standingsRow this teams
  = let texts := cellTexts (Cheerio.find "td" [this]) in
    let cell i := JS.trim (nth i texts "") in
    if (8 <=? List.length texts)%nat then
      if JS.isEmpty (cell 0%nat) || String.eqb (JS.toLowerCase (cell 0%nat)) "team"
      then teams
      else
        teams ++
        [ {| Team.team := cell 0%nat;
             Team.abbr := None;
             Team.gp := JS.orZero (JS.parseInt (cell 1%nat));
             Team.w := JS.orZero (JS.parseInt (cell 2%nat));
             Team.l := JS.orZero (JS.parseInt (cell 3%nat));
             Team.t := JS.orZero (JS.parseInt (cell 4%nat));
             Team.otl := JS.orZero (JS.parseInt (cell 5%nat));
             Team.pts := JS.orZero (JS.parseInt (cell 6%nat));
             Team.wpct := JS.orZero (JS.parseFloat (cell 7%nat));
             Team.position := Z.of_nat (List.length teams) + 1 |} ]
    else teams.
Proof.
  intros Hplain. unfold standingsRow, teamNameOf, intCell, floatCell.
  rewrite Hplain.
  change (0 <? List.length (@nil Cheerio.elt))%nat with false. cbv iota.
  rewrite !text_eq_nth. cbv zeta.
  assert (Hlen : List.length (cellTexts (Cheerio.find "td" [this]))
                 = List.length (Cheerio.find "td" [this]))
    by apply length_map.
  by rewrite Hlen.
Qed.

(** C8.  A standings table whose body rows are exactly the three rows of
    eight plain text cells Stealth 10 7 2 1 0 15 .750, Devils 10 6 3 1 0 13
    .650 and eight empty cells decodes to exactly two records: Stealth at
    position 1 with 15 points and a percentage of 0.75, then Devils at
    position 2 with 13 points and a percentage of 0.65, which is the double
    nearest to 13/20.  The empty row gives no record. *)
Theorem stealth_devils_end_to_end table :
  map (fun row => cellTexts (Cheerio.find "td" [row]))
    (Cheerio.find "tbody tr" table)
  = [ ["Stealth"; "10"; "7"; "2"; "1"; "0"; "15"; ".750"];
      ["Devils"; "10"; "6"; "3"; "1"; "0"; "13"; ".650"];
      [""; ""; ""; ""; ""; ""; ""; ""] ] ->
  (forall row, In row (Cheerio.find "tbody tr" table) -> plainName row) ->
  standingsOfTable table = [stealthRecord; devilsRecord].
Proof.
  intros Hrows Hplain. unfold standingsOfTable.
  destruct (Cheerio.find "tbody tr" table) as [|r1 [|r2 [|r3 [|r4 rows]]]];
    try discriminate Hrows.
  cbn [map] in Hrows. injection Hrows as H1 H2 H3.
  unfold Cheerio.each. cbn [Cheerio.eachFrom].
  rewrite (standingsRow_plain r1) by (apply Hplain; simpl; tauto).
  rewrite H1. cbv zeta.
  match goal with
  | |- context [standingsRow r2 ?t] =>
      let t' := eval vm_compute in t in change t with t'
  end.
  rewrite (standingsRow_plain r2) by (apply Hplain; simpl; tauto).
  rewrite H2. cbv zeta.
  match goal with
  | |- context [standingsRow r3 ?t] =>
      let t' := eval vm_compute in t in change t with t'
  end.
  rewrite (standingsRow_plain r3) by (apply Hplain; simpl; tauto).
  rewrite H3. vm_compute. reflexivity.
Qed.

Lemma stealth_devils_end_to_end_witness :
  standingsOfTable stealthDevilsTable = [stealthRecord; devilsRecord].
Proof.
  apply stealth_devils_end_to_end.
  - vm_compute. reflexivity.
  - intros row Hrow. vm_compute in Hrow.
    destruct Hrow as [<-|[<-|[<-|[]]]]; vm_compute; reflexivity.
Defined.

(** The percentages of the two records, as fractions: 0.75 is a double,
    0.65 is the double 5854679515581645 / 2 ^ 53. *)
Lemma stealth_devils_percentages :
  Team.wpct stealthRecord = JS.numberValue (3 # 4)
  /\ Team.wpct devilsRecord
     = JS.Finite (5854679515581645 # 9007199254740992).
Proof. split; vm_compute; reflexivity. Qed.

(** *** Ranks of the stats pages *)

Lemma eachFrom_pushed {R} (f : nat -> Cheerio.elt -> list R -> list R) :
  (forall i e rs, f i e rs = rs ++ f i e []) ->
  forall s i r,
    In r (Cheerio.eachFrom i f s []) ->
    exists k row, s !! k = Some row /\ In r (f (i + k)%nat row []).
Proof.
  intros Hf s. induction s as [|e s IH]; intros i r Hin; simpl in Hin; [done|].
  rewrite (eachFrom_push f Hf) in Hin. apply in_app_or in Hin as [Hin|Hin].
  - exists 0%nat, e. by rewrite Nat.add_0_r.
  - destruct (IH _ _ Hin) as (k & row & Hk & Hr).
    exists (S k), row. split; [done|]. by rewrite Nat.add_succ_r.
Qed.

(** The rank of a goalie is the index of its row among the body rows of
    the page, plus one. *)
Lemma goalie_rank_is_row_index page r :
  In r (goaliesOfPage page) ->
  exists k row,
    Cheerio.find "tbody tr" (Cheerio.find "table.leaders" page) !! k = Some row
    /\ goalieRow k row [] = [r]
    /\ Goalie.rank r = Z.of_nat k + 1.
Proof.
  unfold goaliesOfPage. destruct (0 <? _)%nat; [|done]. unfold Cheerio.each.
  intros (k & row & Hk & Hr)%(eachFrom_pushed _ goalieRow_push).
  exists k, row. split; [done|]. simpl in Hr. revert Hr.
  unfold goalieRow. split_row; intros Hr; try done.
  destruct Hr as [<-|[]]. done.
Qed.

(** C1 on the code.  The rank of a goalie or of a player is the index of its
    row among all body rows plus one, whether or not earlier rows were
    dropped.  The goalie page, whose body opens with a row of column
    titles, and the player page, whose body opens with a short row, each
    decode to a single record, and its rank is 2, not 1. *)
Theorem rank_counts_dropped_rows :
  map Goalie.rank (goaliesOfPage (Cheerio.load Samples.goaliePage)) = [2]
  /\ map Player.rank (playersOfPage (Cheerio.load Samples.playerPage)) = [2].
Proof. split; vm_compute; reflexivity. Qed.

(** *** The loops over the divisions *)

Section Loops.

Context {World R : Type}.

Implicit Types (m : gmap string (list R)) (kvs : list (string * list R)).

Lemma foldl_put_notin kvs m name :
  ~ In name (map fst kvs) -> foldl put m kvs !! name = m !! name.
Proof.
  revert m. induction kvs as [|[k v] kvs IH]; intros m Hn; simpl; [done|].
  rewrite IH by (simpl in Hn; tauto).
  unfold put; simpl. apply lookup_insert_ne. simpl in Hn. intros ->. tauto.
Qed.

Lemma foldl_put_lookup kvs m name records :
  List.NoDup (map fst kvs) ->
  In (name, records) kvs ->
  foldl put m kvs !! name = Some records.
Proof.
  revert m. induction kvs as [|[k v] kvs IH]; intros m Hnd Hin; [done|].
  simpl in *. inversion Hnd as [|? ? Hk Hnd']; subst.
  destruct Hin as [[= -> ->]|Hin].
  - rewrite foldl_put_notin by done. unfold put; simpl. apply lookup_insert_eq.
  - by apply IH.
Qed.

Lemma foldl_put_dom kvs m :
  dom (foldl put m kvs) = dom m ∪ list_to_set (map fst kvs).
Proof.
  revert m. induction kvs as [|[k v] kvs IH]; intros m; simpl.
  - by rewrite (right_id_L ∅ (∪)).
  - rewrite IH. unfold put; simpl. rewrite dom_insert_L.
    by rewrite (comm_L (∪) {[k]} (dom m)), (assoc_L (∪)).
Qed.

Lemma assemble_names (val : string -> nat -> World -> list R * World) names :
  forall i w, map fst (fst (assemble val i names w)) = names.
Proof.
  induction names as [|name names IH]; intros i w; simpl; [done|].
  destruct (val name i w) as [records w1].
  specialize (IH (S i) w1).
  destruct (assemble val (S i) names w1) as [rest w2]. simpl in *. by rewrite IH.
Qed.

(** A loop whose body stores the records of the division under its name. *)
Lemma forEachFrom_assemble
  (body : string -> nat -> gmap string (list R) -> Async World (gmap string (list R)))
  (val : string -> nat -> World -> list R * World) :
  (forall name i m rt, exists cons',
     body name i m rt
     = (Normal (<[name := fst (val name i (world rt))]> m),
        mkRuntime (snd (val name i (world rt))) cons')) ->
  forall names i m rt, exists cons',
    forEachFrom i body names m rt
    = (Normal (foldl put m (fst (assemble val i names (world rt)))),
       mkRuntime (snd (assemble val i names (world rt))) cons').
Proof.
  intros Hbody names.
  induction names as [|name names IH]; intros i m rt; simpl.
  - exists (console rt). by destruct rt.
  - destruct (Hbody name i m rt) as [cons1 Hrun].
    unfold mbind, Async_bind. rewrite Hrun.
    destruct (val name i (world rt)) as [records w1]; simpl.
    destruct (IH (S i) (<[name:=records]> m) (mkRuntime w1 cons1)) as [cons2 Hrest].
    simpl in Hrest. rewrite Hrest.
    destruct (assemble val (S i) names w1) as [rest w2]; simpl.
    by exists cons2.
Qed.

(** The body of the loop of the stats scrapers: a division whose scraper
    throws is stored as the empty list. *)
Lemma tryCatch_isolates (scrape : string -> Async World (list R))
  (val : string -> nat -> World -> list R * World) (says : string -> string) :
  (forall name i rt, exists c cons',
     scrape name rt = (c, mkRuntime (snd (val name i (world rt))) cons')
     /\ (c = Normal (fst (val name i (world rt)))
         \/ (exists e, c = Throw e) /\ fst (val name i (world rt)) = [])) ->
  forall name i m rt, exists cons',
    tryCatch
      (stats ← scrape name; mret (<[name := stats]> m))
      (fun error => consoleError (says name) error;; mret (<[name := []]> m))
      rt
    = (Normal (<[name := fst (val name i (world rt))]> m),
       mkRuntime (snd (val name i (world rt))) cons').
Proof.
  intros Hscrape name i m rt.
  destruct (Hscrape name i rt) as (c & cons1 & Hrun & [->|[[e ->] Hnil]]);
    unfold tryCatch, mbind, Async_bind, mret, Async_ret, consoleError;
    rewrite Hrun; simpl.
  - by exists cons1.
  - rewrite Hnil. by eexists.
Qed.

End Loops.

(** *** The three scrapers, run *)

Lemma nth_error_list_lookup {A} (l : list A) k : nth_error l k = l !! k.
Proof. revert k. induction l as [|x l IH]; intros [|k]; simpl; auto. Qed.

Lemma hasStandingsData_existsb rows :
  hasStandingsData rows
  = existsb (fun row => (8 <=? List.length (Cheerio.find "td" [row]))%nat) rows.
Proof.
  induction rows as [|row rows IH]; simpl; [done|].
  by destruct (8 <=? List.length (Cheerio.find "td" [row]))%nat.
Qed.

Lemma eachFrom_filter (P : Cheerio.elt -> bool)
  (f : nat -> Cheerio.elt -> Cheerio.selection -> Cheerio.selection) :
  (forall i e acc, f i e acc = if P e then acc ++ [e] else acc) ->
  forall s i acc, Cheerio.eachFrom i f s acc = acc ++ List.filter P s.
Proof.
  intros Hf s. induction s as [|e s IH]; intros i acc; simpl.
  - by rewrite app_nil_r.
  - rewrite IH, Hf. destruct (P e); [|done]. by rewrite <- app_assoc.
Qed.

Lemma standingsTables_filter page :
  standingsTables page
  = List.filter looksLikeStandings (Cheerio.find "table" page).
Proof.
  unfold standingsTables, Cheerio.each.
  rewrite (eachFrom_filter looksLikeStandings); [done|].
  intros i e acc. unfold looksLikeStandings.
  by rewrite hasStandingsData_existsb.
Qed.

Lemma standingsOfDivision_lookup tables index :
  standingsOfDivision tables index
  = match tables !! index with
    | Some table => standingsOfTable [table]
    | None => []
    end.
Proof.
  unfold standingsOfDivision, Cheerio.eq, Cheerio.selection in *.
  rewrite nth_error_list_lookup.
  destruct (Nat.ltb_spec index (List.length tables)) as [Hlt|Hge].
  - destruct (lookup_lt_is_Some_2 tables index Hlt) as [table Ht]. by rewrite Ht.
  - by rewrite lookup_ge_None_2.
Qed.

Section Runs.

Context {World : Type}.
Variable fetch : string -> World -> FetchResult * World.
Variable toISOString : World -> string.

Ltac run := unfold mbind, Async_bind, mret, Async_ret, mthrow, Async_throw,
              consoleLog, consoleError, awaitFetch, getTodayISO; simpl.

Lemma scrapeDivisionStats_run name i rt :
  exists c cons',
    scrapeDivisionStats fetch name rt
    = (c, mkRuntime
            (snd (isolatedPage fetch playersOfPage playerStatsUrl name i (world rt)))
            cons')
    /\ (c = Normal (fst (isolatedPage fetch playersOfPage playerStatsUrl name i (world rt)))
        \/ (exists e, c = Throw e)
           /\ fst (isolatedPage fetch playersOfPage playerStatsUrl name i (world rt)) = []).
Proof.
  unfold scrapeDivisionStats, isolatedPage, playerStatsUrl. run.
  destruct (fetch _ (world rt)) as [[e|response] w']; simpl.
  - eexists _, _. split; [reflexivity|]. right. eauto.
  - destruct (ok response); simpl.
    + eexists _, _. split; [reflexivity|]. by left.
    + eexists _, _. split; [reflexivity|]. right. eauto.
Qed.

Lemma scrapeDivisionGoalieStats_run name i rt :
  exists c cons',
    scrapeDivisionGoalieStats fetch name rt
    = (c, mkRuntime
            (snd (isolatedPage fetch goaliesOfPage buildGoalieStatsUrl name i (world rt)))
            cons')
    /\ (c = Normal (fst (isolatedPage fetch goaliesOfPage buildGoalieStatsUrl name i (world rt)))
        \/ (exists e, c = Throw e)
           /\ fst (isolatedPage fetch goaliesOfPage buildGoalieStatsUrl name i (world rt)) = []).
Proof.
  unfold scrapeDivisionGoalieStats, isolatedPage. run.
  destruct (fetch _ (world rt)) as [[e|response] w']; simpl.
  - eexists _, _. split; [reflexivity|]. right. eauto.
  - destruct (ok response); simpl.
    + eexists _, _. split; [reflexivity|]. by left.
    + eexists _, _. split; [reflexivity|]. right. eauto.
Qed.

Ltac run_loop val Hbody :=
  unfold forEach;
  let loop := fresh "loop" in
  let Hloop := fresh "Hloop" in
  let Hrun := fresh "Hrun" in
  let cons' := fresh "cons'" in
  match goal with
  | |- context [forEachFrom 0%nat ?body DIVISION_NAMES ∅] =>
      pose proof (forEachFrom_assemble body val Hbody DIVISION_NAMES 0%nat ∅)
        as Hloop;
      set (loop := forEachFrom 0%nat body DIVISION_NAMES ∅) in *
  end;
  unfold mbind, Async_bind, mret, Async_ret, consoleLog, getTodayISO;
  cbv beta iota; cbn [world console];
  match goal with
  | |- context [loop ?rt1] =>
      destruct (Hloop rt1) as [cons' Hrun]; cbn [world console] in Hrun;
      rewrite Hrun
  end;
  cbv beta iota.

Lemma scrapePlayerStats_run rt :
  exists today cons',
    scrapePlayerStats fetch toISOString rt
    = (Normal
         (mkSnapshot today
            (foldl put ∅
               (fst (assemble (isolatedPage fetch playersOfPage playerStatsUrl)
                       0 DIVISION_NAMES (world rt))))),
       mkRuntime
         (snd (assemble (isolatedPage fetch playersOfPage playerStatsUrl)
                 0 DIVISION_NAMES (world rt)))
         cons').
Proof.
  unfold scrapePlayerStats.
  run_loop (isolatedPage fetch playersOfPage playerStatsUrl)
    (tryCatch_isolates (scrapeDivisionStats fetch) _
       (fun name => "  Error scraping " +:+ name +:+ ":")
       scrapeDivisionStats_run).
  by eexists _, _.
Qed.

Lemma scrapeGoalieStats_run rt :
  exists today cons',
    scrapeGoalieStats fetch toISOString rt
    = (Normal
         (mkSnapshot today
            (foldl put ∅
               (fst (assemble (isolatedPage fetch goaliesOfPage buildGoalieStatsUrl)
                       0 DIVISION_NAMES (world rt))))),
       mkRuntime
         (snd (assemble (isolatedPage fetch goaliesOfPage buildGoalieStatsUrl)
                 0 DIVISION_NAMES (world rt)))
         cons').
Proof.
  unfold scrapeGoalieStats.
  run_loop (isolatedPage fetch goaliesOfPage buildGoalieStatsUrl)
    (tryCatch_isolates (scrapeDivisionGoalieStats fetch) _
       (fun name => "  Error scraping " +:+ name +:+ " goalie stats:")
       scrapeDivisionGoalieStats_run).
  by eexists _, _.
Qed.


Lemma bind_consoleLog {A} msg (k : Async World A) rt :
  (consoleLog msg;; k) rt
  = k (mkRuntime (world rt) (console rt ++ [ConsoleLog msg])).
Proof. reflexivity. Qed.

Lemma bind_awaitFetch {A} url (k : Response -> Async World A) rt :
  (response ← awaitFetch fetch url; k response) rt
  = match fetch url (world rt) with
    | (Rejected e, w') => (Throw e, mkRuntime w' (console rt))
    | (Resolved response, w') => k response (mkRuntime w' (console rt))
    end.
Proof.
  unfold mbind, Async_bind, awaitFetch.
  by destruct (fetch url (world rt)) as [[e|response] w'].
Qed.

Lemma standings_body tables name i
  (m : gmap string (list Team.TeamStanding)) (rt : Runtime World) :
  exists cons',
    (let teams := standingsOfDivision tables i in
     let divisions := <[name := teams]> m in
     consoleLog ("  " +:+ name +:+ ": " +:+ pretty (List.length teams)
                 +:+ " teams");;
     mret divisions) rt
    = (Normal (<[name := standingsOfDivision tables i]> m),
       mkRuntime (world rt) cons').
Proof. eexists. cbv zeta. rewrite bind_consoleLog. reflexivity. Qed.

Lemma scrapeStandings_run rt :
  match fetch HNA_STANDINGS_URL (world rt) with
  | (Rejected e, w') => exists rt', scrapeStandings fetch toISOString rt = (Throw e, rt')
  | (Resolved response, w') =>
      if ok response then
        exists today rt',
          scrapeStandings fetch toISOString rt
          = (Normal
               (mkSnapshot today
                  (foldl put ∅
                     (fst (assemble
                             (fun _ index w =>
                                (standingsOfDivision
                                   (standingsTables (Cheerio.load (body response)))
                                   index, w))
                             0 DIVISION_NAMES w')))),
             rt')
      else exists e rt', scrapeStandings fetch toISOString rt = (Throw e, rt')
  end.
Proof.
  unfold scrapeStandings. rewrite bind_consoleLog, bind_awaitFetch. cbn [world].
  destruct (fetch HNA_STANDINGS_URL (world rt)) as [[e|response] w']; [by eexists|].
  destruct (ok response); cbn [negb]; [|by eexists _, _].
  cbv zeta. rewrite !bind_consoleLog.
  run_loop (fun (_ : string) index (w : World) =>
              (standingsOfDivision
                 (standingsTables (Cheerio.load (body response))) index, w))
    (fun name i m rt =>
       standings_body (standingsTables (Cheerio.load (body response))) name i m rt).
  by eexists _, _.
Qed.

End Runs.

Lemma NoDup_DIVISION_NAMES : List.NoDup DIVISION_NAMES.
Proof. repeat constructor; simpl; intuition discriminate. Qed.

(** *** The standings page: tables and divisions *)

(** C2.  When the standings page is fetched with an ok response: a table
    of the page qualifies exactly when one of the rows of its body has 8
    cells or more; and the snapshot is returned, in which the division at
    index [k] of the four names holds the records of the [k]-th qualifying
    table in page order, or the empty list when there are not that many
    qualifying tables. *)
Theorem standings_tables_by_order {World : Type}
  (fetch : string -> World -> FetchResult * World)
  (toISOString : World -> string) (rt : Runtime World) response w' :
  fetch HNA_STANDINGS_URL (world rt) = (Resolved response, w') ->
  ok response = true ->
  let tables := Cheerio.find "table" (Cheerio.load (body response)) in
  let qualifying := List.filter looksLikeStandings tables in
  (forall table,
     looksLikeStandings table = true
     <-> exists row,
          In row (Cheerio.find "tr" (Cheerio.find "tbody" [table]))
          /\ (8 <= List.length (Cheerio.find "td" [row]))%nat)
  /\ exists snap rt',
       scrapeStandings fetch toISOString rt = (Normal snap, rt')
       /\ forall k name,
            DIVISION_NAMES !! k = Some name ->
            divisions snap !! name
            = Some (match qualifying !! k with
                    | Some table => standingsOfTable [table]
                    | None => []
                    end).
Proof.
  intros Hfetch Hok tables qualifying. split.
  - intros table. unfold looksLikeStandings. rewrite existsb_exists.
    split; intros (row & Hin & Hlen); exists row; split; try done.
    + by apply Nat.leb_le.
    + by apply Nat.leb_le.
  - pose proof (scrapeStandings_run fetch toISOString rt) as Hrun.
    rewrite Hfetch, Hok in Hrun. destruct Hrun as (today & rt' & Hrun).
    eexists _, rt'. split; [exact Hrun|].
    intros k name Hk. cbn [divisions]. subst qualifying tables.
    rewrite <- standingsTables_filter, <- standingsOfDivision_lookup.
    apply foldl_put_lookup.
    + rewrite assemble_names. apply NoDup_DIVISION_NAMES.
    + cbn [assemble DIVISION_NAMES fst].
      destruct k as [|[|[|[|k]]]]; simpl in Hk; try discriminate Hk;
        injection Hk as <-; simpl; tauto.
Qed.

(** A page with two qualifying tables and a layout table between them: the
    first two divisions hold their records, the last two nothing. *)
Lemma standings_tables_by_order_witness :
  exists snap rt',
    scrapeStandings (Samples.cannedFetch standingsServer) Samples.noon
      Samples.start = (Normal snap, rt')
    /\ divisions snap !! "1-BRODEUR" = Some [stealthRecord; devilsRecord]
    /\ divisions snap !! "2-MANNO" = Some [kingsRecord]
    /\ divisions snap !! "3-STEVENS NORTH" = Some []
    /\ divisions snap !! "3-STEVENS SOUTH" = Some [].
Proof.
  destruct (standings_tables_by_order (Samples.cannedFetch standingsServer)
              Samples.noon Samples.start
              (mkResponse true 200 "OK" twoTablesPage) [HNA_STANDINGS_URL]
              eq_refl eq_refl) as (_ & snap & rt' & Hrun & Hdiv).
  exists snap, rt'. split; [exact Hrun|].
  pose proof (Hdiv 0%nat _ eq_refl) as H0.
  pose proof (Hdiv 1%nat _ eq_refl) as H1.
  pose proof (Hdiv 2%nat _ eq_refl) as H2.
  pose proof (Hdiv 3%nat _ eq_refl) as H3.
  rewrite H0, H1, H2, H3. repeat split; vm_compute; reflexivity.
Defined.

(** *** The stats pages: one division does not stop the others *)

Lemma isolated_divisions {World R : Type}
  (val : string -> nat -> World -> list R * World) (w : World)
  (m : gmap string (list R)) :
  m = foldl put ∅ (fst (assemble val 0 DIVISION_NAMES w)) ->
  map fst (fst (assemble val 0 DIVISION_NAMES w)) = DIVISION_NAMES
  /\ (forall name records,
        In (name, records) (fst (assemble val 0 DIVISION_NAMES w)) ->
        m !! name = Some records)
  /\ dom m = list_to_set DIVISION_NAMES.
Proof.
  intros ->. pose proof (assemble_names val DIVISION_NAMES 0%nat w) as Hnames.
  split; [done|]. split.
  - intros name records Hin. apply foldl_put_lookup; [|done].
    rewrite Hnames. apply NoDup_DIVISION_NAMES.
  - rewrite foldl_put_dom, Hnames, dom_empty_L. by rewrite (left_id_L ∅ (∪)).
Qed.

(** C3.  The player stats and the goalie stats scrapers always return a
    snapshot.  Its divisions are those of [assemble] over [isolatedPage]:
    the four divisions are processed one after the other, each from the
    world its predecessor left; a division whose request is rejected or
    answered with a response that is not ok holds the empty list, and every
    other division holds the records decoded from its own page. *)
Theorem partition_failures_isolated {World : Type}
  (fetch : string -> World -> FetchResult * World)
  (toISOString : World -> string) (rt : Runtime World) :
  (let '(results, w') :=
     assemble (isolatedPage fetch playersOfPage playerStatsUrl)
       0 DIVISION_NAMES (world rt) in
   exists snap cons',
     scrapePlayerStats fetch toISOString rt = (Normal snap, mkRuntime w' cons')
     /\ map fst results = DIVISION_NAMES
     /\ forall name records,
          In (name, records) results -> divisions snap !! name = Some records)
  /\ (let '(results, w') :=
        assemble (isolatedPage fetch goaliesOfPage buildGoalieStatsUrl)
          0 DIVISION_NAMES (world rt) in
      exists snap cons',
        scrapeGoalieStats fetch toISOString rt = (Normal snap, mkRuntime w' cons')
        /\ map fst results = DIVISION_NAMES
        /\ forall name records,
             In (name, records) results -> divisions snap !! name = Some records).
Proof.
  split.
  - destruct (scrapePlayerStats_run fetch toISOString rt) as (today & cons' & Hrun).
    destruct (isolated_divisions
                (isolatedPage fetch playersOfPage playerStatsUrl) (world rt)
                _ eq_refl) as (Hnames & Hlookup & _).
    destruct (assemble _ 0%nat DIVISION_NAMES (world rt)) as [results w'].
    by eexists _, cons'.
  - destruct (scrapeGoalieStats_run fetch toISOString rt) as (today & cons' & Hrun).
    destruct (isolated_divisions
                (isolatedPage fetch goaliesOfPage buildGoalieStatsUrl) (world rt)
                _ eq_refl) as (Hnames & Hlookup & _).
    destruct (assemble _ 0%nat DIVISION_NAMES (world rt)) as [results w'].
    by eexists _, cons'.
Qed.

(** The first goalie page fails in the network, the last two are answered
    with a 503: the second division still holds its goalie, the other three
    are empty, and all four pages were requested. *)
Lemma partition_failures_isolated_witness :
  exists snap cons',
    scrapeGoalieStats (Samples.cannedFetch Samples.goalieServer) Samples.noon
      Samples.start
    = (Normal snap, mkRuntime (map buildGoalieStatsUrl DIVISION_NAMES) cons')
    /\ divisions snap !! "1-BRODEUR" = Some []
    /\ (map Goalie.name <$> divisions snap !! "2-MANNO") = Some ["Smith"]
    /\ divisions snap !! "3-STEVENS NORTH" = Some []
    /\ divisions snap !! "3-STEVENS SOUTH" = Some [].
Proof.
  pose proof (proj2 (partition_failures_isolated
                       (Samples.cannedFetch Samples.goalieServer)
                       Samples.noon Samples.start)) as H.
  vm_compute assemble in H.
  destruct H as (snap & cons' & Hrun & _ & Hlookup).
  exists snap, cons'. split; [exact Hrun|].
  rewrite (Hlookup "1-BRODEUR" _ (or_introl eq_refl)).
  rewrite (Hlookup "2-MANNO" _ (or_intror (or_introl eq_refl))).
  rewrite (Hlookup "3-STEVENS NORTH" _ (or_intror (or_intror (or_introl eq_refl)))).
  rewrite (Hlookup "3-STEVENS SOUTH" _
             (or_intror (or_intror (or_intror (or_introl eq_refl))))).
  repeat split.
Defined.

(** *** The keys of a snapshot *)

(** C9.  Whenever one of the three scrapers returns a snapshot, the keys of
    its divisions are exactly the four division names; the player stats and
    goalie stats scrapers always return one. *)
Theorem division_keys_fixed {World : Type}
  (fetch : string -> World -> FetchResult * World)
  (toISOString : World -> string) (rt : Runtime World) :
  (forall snap rt',
     scrapeStandings fetch toISOString rt = (Normal snap, rt') ->
     dom (divisions snap) = list_to_set DIVISION_NAMES)
  /\ (exists snap rt',
        scrapePlayerStats fetch toISOString rt = (Normal snap, rt')
        /\ dom (divisions snap) = list_to_set DIVISION_NAMES)
  /\ (exists snap rt',
        scrapeGoalieStats fetch toISOString rt = (Normal snap, rt')
        /\ dom (divisions snap) = list_to_set DIVISION_NAMES).
Proof.
  split; [|split].
  - intros snap rt' Hsnap.
    pose proof (scrapeStandings_run fetch toISOString rt) as Hrun.
    destruct (fetch HNA_STANDINGS_URL (world rt)) as [[e|response] w'].
    + destruct Hrun as [rt'' Hrun]. congruence.
    + destruct (ok response).
      * destruct Hrun as (today & rt'' & Hrun). rewrite Hrun in Hsnap.
        injection Hsnap as <- _.
        exact (proj2 (proj2 (isolated_divisions
                 (fun _ index w =>
                    (standingsOfDivision
                       (standingsTables (Cheerio.load (body response))) index, w))
                 w' _ eq_refl))).
      * destruct Hrun as (e & rt'' & Hrun). congruence.
  - destruct (scrapePlayerStats_run fetch toISOString rt) as (today & cons' & Hrun).
    eexists _, _. split; [exact Hrun|]. cbn [divisions].
    exact (proj2 (proj2 (isolated_divisions _ (world rt) _ eq_refl))).
  - destruct (scrapeGoalieStats_run fetch toISOString rt) as (today & cons' & Hrun).
    eexists _, _. split; [exact Hrun|]. cbn [divisions].
    exact (proj2 (proj2 (isolated_divisions _ (world rt) _ eq_refl))).
Qed.

(** A standings page that is served: the keys are the four names. *)
Lemma division_keys_fixed_witness :
  exists snap rt',
    scrapeStandings (Samples.cannedFetch standingsServer) Samples.noon
      Samples.start = (Normal snap, rt')
    /\ dom (divisions snap) = list_to_set DIVISION_NAMES.
Proof.
  remember (scrapeStandings (Samples.cannedFetch standingsServer) Samples.noon
              Samples.start) as run eqn:Hrun.
  destruct run as [[snap|e] rt'].
  - exists snap, rt'. split; [reflexivity|].
    apply (proj1 (division_keys_fixed (Samples.cannedFetch standingsServer)
                    Samples.noon Samples.start) snap rt').
    symmetry. exact Hrun.
  - exfalso. vm_compute in Hrun. discriminate Hrun.
Defined.

(** *** Substrings *)

Lemma append_assoc (a b c : string) : (a +:+ b) +:+ c = a +:+ (b +:+ c).
Proof.
  induction a as [|x a IH]; [done|].
  change (String x ((a +:+ b) +:+ c) = String x (a +:+ (b +:+ c))). by f_equal.
Qed.

Lemma prefix_append sub s :
  String.prefix sub s = true <-> exists after, s = sub +:+ after.
Proof.
  revert s. induction sub as [|x sub IH]; intros s.
  - split; [|by destruct s]. intros _. by exists s.
  - destruct s as [|y s]; simpl.
    + split; [done|]. intros [after H]. discriminate H.
    + destruct (ascii_dec x y) as [->|Hne].
      * rewrite IH. split; intros [after H]; exists after.
        -- change (String y s = String y (sub +:+ after)). by f_equal.
        -- change (String y s = String y (sub +:+ after)) in H. congruence.
      * split; [done|]. intros [after H].
        change (String y s = String x (sub +:+ after)) in H. congruence.
Qed.

Lemma includes_occursIn s sub : JS.includes s sub = true <-> occursIn sub s.
Proof.
  unfold occursIn. induction s as [|c s IH].
  - cbn [JS.includes]. rewrite orb_false_r, prefix_append. split.
    + intros [after H]. by exists "", after.
    + intros (before & after & H). destruct before as [|x before].
      * by exists after.
      * discriminate H.
  - cbn [JS.includes]. rewrite orb_true_iff, prefix_append, IH. split.
    + intros [[after H]|(before & after & H)].
      * by exists "", after.
      * exists (String c before), after. rewrite H. reflexivity.
    + intros (before & after & H). destruct before as [|x before].
      * left. by exists after.
      * right. exists before, after.
        change (String c s = String x (before +:+ sub +:+ after)) in H.
        congruence.
Qed.

(** *** Selectors *)

Lemma node_induction (P : Cheerio.node -> Prop) :
  (forall s, P (Cheerio.Text s)) ->
  (forall name cls cs, Forall P cs -> P (Cheerio.Element name cls cs)) ->
  forall n, P n.
Proof.
  intros HT HE. fix IH 1. intros [s|name cls cs]; [apply HT|].
  apply HE. induction cs as [|c cs IHcs]; constructor; [apply IH|apply IHcs].
Qed.

Lemma in_concat_mapIndexed {A B} (f : nat -> A -> list B) l :
  forall i y,
    In y (List.concat (Cheerio.mapIndexed f i l)) ->
    exists j x, nth_error l j = Some x /\ In y (f (i + j)%nat x).
Proof.
  induction l as [|x l IH]; intros i y Hin; simpl in Hin; [done|].
  apply in_app_or in Hin as [Hin|Hin].
  - exists 0%nat, x. by rewrite Nat.add_0_r.
  - destruct (IH _ _ Hin) as (j & x' & Hj & Hy).
    exists (S j), x'. split; [done|]. by rewrite Nat.add_succ_r.
Qed.

Lemma subtreeAt_app n q1 q2 a :
  subtreeAt n q1 = Some a -> subtreeAt n (q1 ++ q2) = subtreeAt a q2.
Proof.
  revert n. induction q1 as [|i q1 IH]; intros n H; simpl in *.
  - by injection H as ->.
  - destruct n as [s|name cls cs]; [done|].
    destruct (nth_error cs i) as [c|]; [|done]. by apply IH.
Qed.

(** What [descendants] lists: the element at a path [q] below [n], with
    the elements on the way to it. *)
Lemma descendants_spec n :
  forall anc p anc' e,
    In (anc', e) (Cheerio.descendants anc p n) ->
    exists q mid,
      q <> [] /\ Cheerio.path e = p ++ q
      /\ subtreeAt n q = Some (Cheerio.tree e)
      /\ anc' = anc ++ mid
      /\ forall a, In a mid ->
           exists q1 q2,
             q = q1 ++ q2 /\ q1 <> [] /\ q2 <> [] /\ subtreeAt n q1 = Some a.
Proof.
  induction n as [s|name cls cs IH] using node_induction;
    intros anc p anc' e Hin; [done|].
  cbn [Cheerio.descendants] in Hin.
  apply in_concat_mapIndexed in Hin as (j & c & Hj & Hin). simpl in Hin.
  destruct c as [s|cname ccls ccs]; [done|].
  destruct Hin as [[= <- <-]|Hin].
  - exists [j], []. simpl. rewrite Hj, app_nil_r. repeat split; done.
  - rewrite List.Forall_forall in IH.
    destruct (IH _ (nth_error_In _ _ Hj) _ _ _ _ Hin)
      as (q & mid & Hq & Hpath & Hsub & -> & Hmid).
    exists (j :: q), (Cheerio.Element cname ccls ccs :: mid).
    split; [done|]. split; [by rewrite Hpath, <- app_assoc|].
    split; [simpl; by rewrite Hj|]. split; [by rewrite <- app_assoc|].
    intros a [<-|Ha].
    + exists [j], q. simpl. by rewrite Hj.
    + destruct (Hmid a Ha) as (q1 & q2 & -> & Hq1 & Hq2 & Ha').
      exists (j :: q1), q2. simpl. by rewrite Hj.
Qed.

Lemma matchesChain_single c anc :
  Cheerio.matchesChain [c] anc = true ->
  exists a, In a anc /\ Cheerio.matchesCompound c a = true.
Proof.
  induction anc as [|a anc IH]; simpl; [done|].
  destruct (Cheerio.matchesCompound c a) eqn:Hm.
  - intros _. exists a. tauto.
  - intros H. destruct (IH H) as (a' & Hin & Ha'). exists a'. tauto.
Qed.

Lemma matchesCompound_named t cls n :
  Cheerio.matchesCompound {| Cheerio.tag := Some t; Cheerio.withClasses := cls |} n
  = true ->
  match n with
  | Cheerio.Text _ => False
  | Cheerio.Element name classes _ =>
      name = t /\ forall k, In k cls -> In k classes
  end.
Proof.
  destruct n as [s|name classes cs]; simpl; [done|].
  intros [Hname Hcls]%andb_true_iff. split.
  - symmetry. by apply String.eqb_eq.
  - intros k Hk. rewrite forallb_forall in Hcls. by apply hasClass_In, Hcls.
Qed.

Lemma in_find sel s e :
  In e (Cheerio.find sel s) ->
  exists e0 anc,
    In e0 s
    /\ In (anc, e) (Cheerio.descendants [] (Cheerio.path e0) (Cheerio.tree e0))
    /\ existsb (Cheerio.matchesComplex anc (Cheerio.tree e))
         (Cheerio.parseSelector sel) = true.
Proof.
  unfold Cheerio.find, Cheerio.removeSubsets, Cheerio.find1.
  intros (e0 & [He0 _]%filter_In & Hin)%in_flat_map.
  apply in_map_iff in Hin as ([anc x] & <- & [Hin Hm]%filter_In).
  by exists e0, anc.
Qed.

Lemma find_tbody_tr tables row :
  In row (Cheerio.find "tbody tr" tables) ->
  exists table, In table tables /\ insideTbody table row.
Proof.
  intros (table & anc & Htable & Hin & Hm)%in_find.
  exists table. split; [done|].
  change (Cheerio.parseSelector "tbody tr")
    with [ {| Cheerio.ancestors :=
                [ {| Cheerio.tag := Some "tbody"; Cheerio.withClasses := [] |} ];
              Cheerio.subject :=
                {| Cheerio.tag := Some "tr"; Cheerio.withClasses := [] |} |} ] in Hm.
  simpl in Hm. rewrite orb_false_r in Hm.
  apply andb_true_iff in Hm as [Htr Hchain].
  apply matchesChain_single in Hchain as (tb & Htb & Hm).
  destruct (descendants_spec _ _ _ _ _ Hin) as (q & mid & Hq & Hpath & Hsub & -> & Hmid).
  destruct (Hmid tb Htb) as (q1 & q2 & -> & Hq1 & Hq2 & Hsub1).
  exists q1, q2, tb. repeat split; try done.
  - pose proof (matchesCompound_named _ _ _ Hm) as H.
    destruct tb as [|name ? ?]; [done|]. simpl. tauto.
  - by rewrite <- (subtreeAt_app _ q1 q2 tb Hsub1).
  - pose proof (matchesCompound_named _ _ _ Htr) as H.
    destruct (Cheerio.tree row) as [|name ? ?]; [done|]. simpl. tauto.
Qed.

Lemma find_table_leaders page table :
  In table (Cheerio.find "table.leaders" page) ->
  exists classes children,
    Cheerio.tree table = Cheerio.Element "table" classes children
    /\ In "leaders" classes.
Proof.
  intros (e0 & anc & _ & _ & Hm)%in_find.
  change (Cheerio.parseSelector "table.leaders")
    with [ {| Cheerio.ancestors := [];
              Cheerio.subject :=
                {| Cheerio.tag := Some "table";
                   Cheerio.withClasses := ["leaders"] |} |} ] in Hm.
  cbn [existsb] in Hm. rewrite orb_false_r in Hm.
  apply andb_true_iff in Hm as [Hm _].
  apply matchesCompound_named in Hm.
  destruct (Cheerio.tree table) as [|name classes children]; [done|].
  destruct Hm as [-> Hcls]. exists classes, children. split; [done|].
  apply Hcls. simpl. tauto.
Qed.

(** The selector of the header row finds the rows, whether in a head or not. *)
Lemma find_thead_tr table :
  Cheerio.find "thead tr, tr" table = Cheerio.find "tr" table.
Proof.
  unfold Cheerio.find. apply flat_map_ext. intros e.
  unfold Cheerio.find1. f_equal.
  apply filter_ext. intros [anc x].
  change (Cheerio.parseSelector "thead tr, tr")
    with [ {| Cheerio.ancestors :=
                [ {| Cheerio.tag := Some "thead"; Cheerio.withClasses := [] |} ];
              Cheerio.subject :=
                {| Cheerio.tag := Some "tr"; Cheerio.withClasses := [] |} |};
           {| Cheerio.ancestors := [];
              Cheerio.subject :=
                {| Cheerio.tag := Some "tr"; Cheerio.withClasses := [] |} |} ].
  change (Cheerio.parseSelector "tr")
    with [ {| Cheerio.ancestors := [];
              Cheerio.subject :=
                {| Cheerio.tag := Some "tr"; Cheerio.withClasses := [] |} |} ].
  unfold Cheerio.matchesComplex. simpl.
  destruct (Cheerio.matchesCompound _ (Cheerio.tree x)); simpl; [|done].
  assert (Cheerio.matchesChain [] anc = true) as -> by (by destruct anc).
  by rewrite orb_true_r.
Qed.

(** *** Selection of the stats tables *)

Lemma eachFrom_flat_map {R} (f : nat -> Cheerio.elt -> list R -> list R)
  (g : Cheerio.elt -> list R) :
  (forall i e rs, f i e rs = rs ++ g e) ->
  forall s i rs, Cheerio.eachFrom i f s rs = rs ++ flat_map g s.
Proof.
  intros Hf s. induction s as [|e s IH]; intros i rs; simpl.
  - by rewrite app_nil_r.
  - by rewrite IH, Hf, app_assoc.
Qed.

(** C7.  A table of a player stats page is selected exactly when the text
    of its first row, in lower case, contains [player], [gp] and [pts];
    the players of the page are the records of the body rows of the
    selected tables.  The goalies of a page are the records of the body
    rows of the tables matched by [table.leaders], which are [table]
    elements of class [leaders].  In both cases the rows are those found by
    [tbody tr]: every one is a [tr] element below a [tbody] element of its
    table. *)
Theorem stats_table_selection :
  (forall table,
     isPlayerStatsTable [table] = true
     <-> let headerRow := Cheerio.first (Cheerio.find "tr" [table]) in
         let headerText := JS.toLowerCase (Cheerio.text headerRow) in
         occursIn "player" headerText /\ occursIn "gp" headerText
         /\ occursIn "pts" headerText)
  /\ (forall page,
        playersOfPage page
        = flat_map
            (fun table =>
               if isPlayerStatsTable [table]
               then Cheerio.each playerRow (Cheerio.find "tbody tr" [table]) []
               else [])
            (Cheerio.find "table" page))
  /\ (forall page,
        goaliesOfPage page
        = Cheerio.each goalieRow
            (Cheerio.find "tbody tr" (Cheerio.find "table.leaders" page)) [])
  /\ (forall page table,
        In table (Cheerio.find "table.leaders" page) ->
        exists classes children,
          Cheerio.tree table = Cheerio.Element "table" classes children
          /\ In "leaders" classes)
  /\ (forall tables row,
        In row (Cheerio.find "tbody tr" tables) ->
        exists table, In table tables /\ insideTbody table row).
Proof.
  split; [|split; [|split; [|split]]].
  - intros table. unfold isPlayerStatsTable. cbv zeta.
    rewrite find_thead_tr, !andb_true_iff, !includes_occursIn. tauto.
  - intros page. unfold playersOfPage, Cheerio.each.
    rewrite (eachFrom_flat_map _
               (fun table =>
                  if isPlayerStatsTable [table]
                  then Cheerio.eachFrom 0 playerRow
                         (Cheerio.find "tbody tr" [table]) []
                  else [])); [done|].
    intros i e rs. destruct (isPlayerStatsTable [e]).
    + apply eachFrom_push. intros. apply playerRow_push.
    + by rewrite app_nil_r.
  - intros page. unfold goaliesOfPage.
    destruct (Cheerio.find "table.leaders" page); done.
  - apply find_table_leaders.
  - apply find_tbody_tr.
Qed.

(** The table of the sample player page is selected by its title row. *)
Lemma stats_table_selection_witness : isPlayerStatsTable [playerTable] = true.
Proof.
  apply (proj1 stats_table_selection). cbv zeta.
  change (JS.toLowerCase
            (Cheerio.text (Cheerio.first (Cheerio.find "tr" [playerTable]))))
    with "rankplayer#posteamgpgaptsp/gppgppashgshagwgpim".
  split; [|split].
  - exists "rank", "#posteamgpgaptsp/gppgppashgshagwgpim". reflexivity.
  - exists "rankplayer#posteam", "gaptsp/gppgppashgshagwgpim". reflexivity.
  - exists "rankplayer#posteamgpga", "p/gppgppashgshagwgpim". reflexivity.
Defined.

(* ===================================================================== *)
(** ** Further properties of the scrapers *)
(* ===================================================================== *)

(** *** Order and numbering of the standings *)

Lemma standingsRow_drops this teams :
  standingsRow this [] = [] -> standingsRow this teams = teams.
Proof.
  unfold standingsRow. split_row; done.
Qed.

Lemma standingsRow_length this teams :
  (List.length (standingsRow this teams) <= S (List.length teams))%nat.
Proof.
  unfold standingsRow. split_row; rewrite ?length_app; simpl; lia.
Qed.

Lemma eachFrom_standings_length rows :
  forall i teams,
    (List.length
       (Cheerio.eachFrom i (fun _ this teams => standingsRow this teams) rows teams)
     <= List.length teams + List.length rows)%nat.
Proof.
  induction rows as [|row rows IH]; intros i teams; simpl; [lia|].
  etransitivity; [apply IH|]. pose proof (standingsRow_length row teams). lia.
Qed.

(** X1.  The positions of the records of a standings table are 1, 2, ...,
    n in this order, and n is at most the number of body rows. *)
Theorem standings_positions_consecutive table :
  map Team.position (standingsOfTable table)
  = map (fun k => Z.of_nat k + 1) (seq 0 (List.length (standingsOfTable table)))
  /\ (List.length (standingsOfTable table)
      <= List.length (Cheerio.find "tbody tr" table))%nat.
Proof.
  split.
  - apply list_eq. intros k.
    change (map ?f ?l) with (f <$> l). rewrite !list_lookup_fmap.
    destruct (standingsOfTable table !! k) as [r|] eqn:Hk; simpl.
    + rewrite lookup_seq_lt by (by apply lookup_lt_Some in Hk). simpl.
      f_equal. by apply (standingsOfTable_positions table k r).
    + rewrite lookup_seq_ge; [done|]. by apply lookup_ge_None.
  - unfold standingsOfTable, Cheerio.each.
    apply (eachFrom_standings_length _ 0%nat []).
Qed.

(** X2.  A body row that gives no record has no effect on the records of
    the other rows of a standings table: with or without it the records,
    positions included, are the same. *)
Theorem dropped_row_leaves_standings rows1 row rows2 :
  standingsRow row [] = [] ->
  Cheerio.each (fun _ this teams => standingsRow this teams)
    (rows1 ++ row :: rows2) []
  = Cheerio.each (fun _ this teams => standingsRow this teams)
      (rows1 ++ rows2) [].
Proof.
  intros Hdrop. unfold Cheerio.each. rewrite !eachFrom_app. simpl.
  rewrite (standingsRow_drops _ _ Hdrop).
  generalize (Cheerio.eachFrom 0 (fun _ this teams => standingsRow this teams) rows1 []).
  generalize (0 + List.length rows1)%nat as i.
  assert (Hidx : forall rows i j teams,
             Cheerio.eachFrom i (fun _ this teams => standingsRow this teams) rows teams
             = Cheerio.eachFrom j (fun _ this teams => standingsRow this teams) rows teams).
  { induction rows as [|r rows IH]; intros i j teams; simpl; [done|]. apply IH. }
  intros i teams. apply Hidx.
Qed.

Lemma dropped_row_leaves_standings_witness :
  Cheerio.each (fun _ this teams => standingsRow this teams)
    ([hawksRow] ++ shortRow :: [owlsRow]) []
  = Cheerio.each (fun _ this teams => standingsRow this teams)
      ([hawksRow] ++ [owlsRow]) [].
Proof.
  apply dropped_row_leaves_standings. vm_compute. reflexivity.
Defined.

(** *** Names of the records *)

Lemma trimEnd_idempotent s : JS.trimEnd (JS.trimEnd s) = JS.trimEnd s.
Proof.
  induction s as [|c s IH]; [done|]. cbn [JS.trimEnd].
  destruct (JS.isWhiteSpace c && JS.isEmpty (JS.trimEnd s)) eqn:Hc; [done|].
  cbn [JS.trimEnd]. by rewrite IH, Hc.
Qed.

Lemma trim_idempotent s : JS.trim (JS.trim s) = JS.trim s.
Proof.
  unfold JS.trim at 1. rewrite trimStart_trim. unfold JS.trim.
  apply trimEnd_idempotent.
Qed.

Lemma isEmpty_false s : JS.isEmpty s = false -> s <> "".
Proof. by destruct s. Qed.

Lemma eqb_false_neq (a b : string) : String.eqb a b = false -> a <> b.
Proof. intros H ->. by rewrite String.eqb_refl in H. Qed.

Lemma teamNameOf_trimmed cell : JS.trim (teamNameOf cell) = teamNameOf cell.
Proof. unfold teamNameOf. split_row; apply trim_idempotent. Qed.

Lemma playerNameOf_trimmed cell : JS.trim (playerNameOf cell) = playerNameOf cell.
Proof. unfold playerNameOf. split_row; apply trim_idempotent. Qed.

Lemma goalieNameOf_trimmed cell : JS.trim (goalieNameOf cell) = goalieNameOf cell.
Proof. unfold goalieNameOf. split_row; apply trim_idempotent. Qed.

Lemma standingsRow_names this teams :
  Forall (fun r => properName "team" (Team.team r)) teams ->
  Forall (fun r => properName "team" (Team.team r)) (standingsRow this teams).
Proof.
  intros Hteams. unfold standingsRow.
  destruct (8 <=? _)%nat; [|done].
  destruct (JS.isEmpty _ || _) eqn:Hname; [done|].
  apply orb_false_elim in Hname as [Hne Htitle].
  apply Forall_app. split; [done|]. constructor; [|done]. simpl.
  split; [by apply isEmpty_false|]. split; [by apply eqb_false_neq|].
  apply teamNameOf_trimmed.
Qed.

Lemma playerRow_names index this players :
  Forall (fun r => properName "player" (Player.name r)) players ->
  Forall (fun r => properName "player" (Player.name r))
    (playerRow index this players).
Proof.
  intros Hplayers. unfold playerRow.
  destruct (16 <=? _)%nat; [|done].
  destruct (JS.isEmpty _ || _ || _) eqn:Hname; [done|].
  apply orb_false_elim in Hname as [Hname _].
  apply orb_false_elim in Hname as [Hne Htitle].
  apply Forall_app. split; [done|]. constructor; [|done]. simpl.
  split; [by apply isEmpty_false|]. split; [by apply eqb_false_neq|].
  apply playerNameOf_trimmed.
Qed.

Lemma goalieRow_names index this goalies :
  Forall (fun r => properName "goalie" (Goalie.name r)) goalies ->
  Forall (fun r => properName "goalie" (Goalie.name r))
    (goalieRow index this goalies).
Proof.
  intros Hgoalies. unfold goalieRow.
  destruct (16 <=? _)%nat; [|done].
  destruct (JS.isEmpty _ || _ || _) eqn:Hname; [done|].
  apply orb_false_elim in Hname as [Hname _].
  apply orb_false_elim in Hname as [Hne Htitle].
  apply Forall_app. split; [done|]. constructor; [|done]. simpl.
  split; [by apply isEmpty_false|]. split; [by apply eqb_false_neq|].
  apply goalieNameOf_trimmed.
Qed.

(** X3.  Every record that the decoders give has a proper name: the team,
    player or goalie name is not empty, has no white space at either end,
    and is not the column title ([team], [player], [goalie]) in any case
    of letters. *)
Theorem decoded_names_proper :
  (forall table r,
     In r (standingsOfTable table) -> properName "team" (Team.team r))
  /\ (forall page r,
        In r (playersOfPage page) -> properName "player" (Player.name r))
  /\ (forall page r,
        In r (goaliesOfPage page) -> properName "goalie" (Goalie.name r)).
Proof.
  split; [|split].
  - intros table. apply List.Forall_forall.
    unfold standingsOfTable, Cheerio.each.
    apply (eachFrom_invariant
             (Forall (fun r => properName "team" (Team.team r)))); [|done].
    intros _ e st. apply standingsRow_names.
  - intros page. apply List.Forall_forall.
    unfold playersOfPage, Cheerio.each.
    apply (eachFrom_invariant
             (Forall (fun r => properName "player" (Player.name r)))); [|done].
    intros _ e st Hst. destruct (isPlayerStatsTable [e]); [|done].
    apply (eachFrom_invariant
             (Forall (fun r => properName "player" (Player.name r)))); [|done].
    intros i row players. apply playerRow_names.
  - intros page. apply List.Forall_forall.
    unfold goaliesOfPage, Cheerio.each. destruct (0 <? _)%nat; [|done].
    apply (eachFrom_invariant
             (Forall (fun r => properName "goalie" (Goalie.name r)))); [|done].
    intros i row goalies. apply goalieRow_names.
Qed.

Lemma decoded_names_proper_witness :
  properName "team" (Team.team stealthRecord).
Proof.
  apply (proj1 decoded_names_proper stealthDevilsTable).
  vm_compute. tauto.
Defined.

(** *** Ranks of the stats *)

Lemma StronglySorted_snoc (l : list Z) x :
  StronglySorted Z.lt l -> Forall (fun y => y < x) l ->
  StronglySorted Z.lt (l ++ [x]).
Proof.
  induction 1 as [|y l Hl IH Hy]; intros Hx; simpl.
  - repeat constructor.
  - inversion Hx; subst. constructor; [by apply IH|].
    apply Forall_app. split; [done|]. by constructor.
Qed.

Lemma eachFrom_ranks {R} (rank : R -> Z)
  (f : nat -> Cheerio.elt -> list R -> list R) :
  (forall i e rs,
     f i e rs = rs \/ exists r, f i e rs = rs ++ [r] /\ rank r = Z.of_nat i + 1) ->
  forall s i rs,
    StronglySorted Z.lt (map rank rs) ->
    Forall (fun r => 1 <= rank r <= Z.of_nat i) rs ->
    StronglySorted Z.lt (map rank (Cheerio.eachFrom i f s rs))
    /\ Forall (fun r => 1 <= rank r <= Z.of_nat (i + List.length s))
         (Cheerio.eachFrom i f s rs).
Proof.
  intros Hf s. induction s as [|e s IH]; intros i rs Hsorted Hbound; simpl.
  - rewrite Nat.add_0_r. done.
  - replace (i + S (List.length s))%nat with (S i + List.length s)%nat by lia.
    destruct (Hf i e rs) as [->|(r & -> & Hr)].
    + apply IH; [done|]. eapply Forall_impl; [exact Hbound|].
      intros r Hr. simpl in Hr. lia.
    + apply IH.
      * rewrite map_app. apply StronglySorted_snoc; [done|].
        change (map rank rs) with (rank <$> rs). apply Forall_fmap.
        eapply Forall_impl; [exact Hbound|]. intros r' Hr'. simpl in *. lia.
      * apply Forall_app. split.
        -- eapply Forall_impl; [exact Hbound|]. intros r' Hr'. simpl in Hr'. lia.
        -- repeat constructor; lia.
Qed.

Lemma goalieRow_rank i e rs :
  goalieRow i e rs = rs
  \/ exists r, goalieRow i e rs = rs ++ [r] /\ Goalie.rank r = Z.of_nat i + 1.
Proof. unfold goalieRow. split_row; eauto. Qed.

Lemma playerRow_rank i e rs :
  playerRow i e rs = rs
  \/ exists r, playerRow i e rs = rs ++ [r] /\ Player.rank r = Z.of_nat i + 1.
Proof. unfold playerRow. split_row; eauto. Qed.

(** X4.  The ranks of the goalies of a page increase strictly along the
    records, so no two records share a rank, and every rank lies between 1
    and the number of body rows of the page.  The same holds for the
    players decoded from the body rows of one table. *)
Theorem stats_ranks_increase :
  (forall page,
     let rows := Cheerio.find "tbody tr" (Cheerio.find "table.leaders" page) in
     StronglySorted Z.lt (map Goalie.rank (goaliesOfPage page))
     /\ Forall (fun r => 1 <= Goalie.rank r <= Z.of_nat (List.length rows))
          (goaliesOfPage page))
  /\ (forall rows,
        StronglySorted Z.lt (map Player.rank (Cheerio.each playerRow rows []))
        /\ Forall (fun r => 1 <= Player.rank r <= Z.of_nat (List.length rows))
             (Cheerio.each playerRow rows [])).
Proof.
  split.
  - intros page rows. unfold goaliesOfPage. fold rows.
    destruct (0 <? _)%nat; [|split; constructor].
    apply (eachFrom_ranks Goalie.rank goalieRow goalieRow_rank rows 0%nat []);
      constructor.
  - intros rows.
    apply (eachFrom_ranks Player.rank playerRow playerRow_rank rows 0%nat []);
      constructor.
Qed.

(** *** Rows with fewer cells than columns *)

Lemma intCell_missing cells i :
  (List.length cells <= i)%nat -> intCell cells i = JS.Finite 0.
Proof.
  intros Hlen. unfold intCell, Cheerio.eq.
  by rewrite (proj2 (nth_error_None cells i) Hlen).
Qed.

(** X5.  A goalie row needs 16 cells only, but its last three fields are
    read from the cells 16, 17 and 18: every integer field whose cell the
    row does not have is 0.  So a row of exactly 16 cells is decoded with
    0 goals, 0 assists and 0 penalty minutes. *)
Theorem goalie_missing_cells_are_zero index this goalies r :
  goalieRow index this goalies = goalies ++ [r] ->
  forall i f,
    In (i, f) goalieInts ->
    (List.length (Cheerio.find "td" [this]) <= i)%nat ->
    f r = JS.Finite 0.
Proof.
  intros Hrow i f Hin Hlen.
  rewrite (proj1 (goalieRow_reads _ _ _ _ Hrow) i f Hin).
  by apply intCell_missing.
Qed.

Lemma goalie_missing_cells_are_zero_witness :
  exists r,
    goalieRow 0 sixteenCells [] = [r]
    /\ Goalie.goals r = JS.Finite 0 /\ Goalie.assists r = JS.Finite 0
    /\ Goalie.pim r = JS.Finite 0.
Proof.
  eexists. split; [vm_compute; reflexivity|].
  pose proof (goalie_missing_cells_are_zero 0 sixteenCells [] _ eq_refl) as H.
  split; [|split].
  - apply (H 16%nat Goalie.goals); [simpl; tauto|vm_compute; lia].
  - apply (H 17%nat Goalie.assists); [simpl; tauto|vm_compute; lia].
  - apply (H 18%nat Goalie.pim); [simpl; tauto|vm_compute; lia].
Defined.

(** *** Failures, requests and dates *)

Lemma split_nonempty sep s : JS.split sep s <> [].
Proof.
  destruct s as [|c s]; simpl; [done|].
  destruct (Ascii.eqb c sep); [done|]. by destruct (JS.split sep s).
Qed.

Lemma split_head sep day rest :
  forallb (fun c => negb (Ascii.eqb c sep)) (list_ascii_of_string day) = true ->
  hd "" (JS.split sep (day +:+ String sep rest)) = day.
Proof.
  induction day as [|c day IH]; intros Hday.
  - change ("" +:+ String sep rest) with (String sep rest). simpl.
    by rewrite Ascii.eqb_refl.
  - simpl in Hday. apply andb_true_iff in Hday as [Hc Hday].
    change (String c day +:+ String sep rest)
      with (String c (day +:+ String sep rest)).
    simpl. apply negb_true_iff in Hc. rewrite Hc.
    specialize (IH Hday).
    destruct (JS.split sep (day +:+ String sep rest)) as [|w ws] eqn:Hsplit.
    + by apply split_nonempty in Hsplit.
    + simpl in *. by rewrite IH.
Qed.

Lemma assemble_recording {World R : Type}
  (fetch : string -> World -> FetchResult * World)
  (decode : Cheerio.selection -> list R) (url : string -> string) names :
  forall i w log,
    snd (snd (assemble (isolatedPage (recording fetch) decode url) i names (w, log)))
    = log ++ map url names.
Proof.
  induction names as [|name names IH]; intros i w log; simpl.
  - by rewrite app_nil_r.
  - unfold isolatedPage at 1, recording at 1. simpl.
    destruct (fetch (url name) w) as [[e|response] w']; simpl.
    + specialize (IH (S i) w' (log ++ [url name])).
      destruct (assemble _ (S i) names (w', log ++ [url name])) as [rest w2].
      simpl in *. by rewrite IH, <- app_assoc.
    + specialize (IH (S i) w' (log ++ [url name])).
      destruct (assemble _ (S i) names (w', log ++ [url name])) as [rest w2].
      simpl in *. by rewrite IH, <- app_assoc.
Qed.

Lemma assemble_pure_world {World R : Type} (g : nat -> list R) names :
  forall i (w : World),
    snd (assemble (fun _ index w => (g index, w)) i names w) = w.
Proof.
  induction names as [|name names IH]; intros i w; simpl; [done|].
  specialize (IH (S i) w).
  by destruct (assemble _ (S i) names w) as [rest w2].
Qed.

Section Outcomes.

Context {World : Type}.
Variable fetch : string -> World -> FetchResult * World.
Variable toISOString : World -> string.

Lemma bind_date {R} (m : Async World (gmap string (list R))) rt snap rt' :
  (divisions ← m; today ← getTodayISO toISOString;
   mret (mkSnapshot today divisions)) rt = (Normal snap, rt') ->
  date snap = hd "" (JS.split "T" (toISOString (world rt'))).
Proof.
  unfold mbind, Async_bind, mret, Async_ret, getTodayISO.
  destruct (m rt) as [[d|e] rt1]; [|done]. by intros [= <- <-].
Qed.

Lemma scrapeStandings_date rt snap rt' :
  scrapeStandings fetch toISOString rt = (Normal snap, rt') ->
  date snap = hd "" (JS.split "T" (toISOString (world rt'))).
Proof.
  unfold scrapeStandings. rewrite bind_consoleLog, bind_awaitFetch.
  destruct (fetch HNA_STANDINGS_URL _) as [[e|response] w']; [done|].
  destruct (ok response); cbn [negb]; [|done].
  cbv zeta. rewrite !bind_consoleLog. apply bind_date.
Qed.

Lemma scrapePlayerStats_date rt snap rt' :
  scrapePlayerStats fetch toISOString rt = (Normal snap, rt') ->
  date snap = hd "" (JS.split "T" (toISOString (world rt'))).
Proof. unfold scrapePlayerStats. rewrite bind_consoleLog. apply bind_date. Qed.

Lemma scrapeGoalieStats_date rt snap rt' :
  scrapeGoalieStats fetch toISOString rt = (Normal snap, rt') ->
  date snap = hd "" (JS.split "T" (toISOString (world rt'))).
Proof. unfold scrapeGoalieStats. rewrite bind_consoleLog. apply bind_date. Qed.

(** X6.  A failure of the standings request is not absorbed: when the
    request is rejected, [scrapeStandings] throws the reason of the
    rejection, and when the response is not ok, it throws an error whose
    message gives the status and the status text.  In both cases only the
    first line was logged and no snapshot is returned. *)
Theorem standings_failure_propagates (rt : Runtime World) :
  (forall reason w',
     fetch HNA_STANDINGS_URL (world rt) = (Rejected reason, w') ->
     scrapeStandings fetch toISOString rt
     = (Throw reason,
        mkRuntime w' (console rt ++ [ConsoleLog "Fetching HNA standings page..."])))
  /\ (forall response w',
        fetch HNA_STANDINGS_URL (world rt) = (Resolved response, w') ->
        ok response = false ->
        scrapeStandings fetch toISOString rt
        = (Throw (mkError ("Failed to fetch standings: "
                           +:+ pretty (status response) +:+ " "
                           +:+ statusText response)),
           mkRuntime w'
             (console rt ++ [ConsoleLog "Fetching HNA standings page..."]))).
Proof.
  split.
  - intros reason w' Hfetch. unfold scrapeStandings.
    rewrite bind_consoleLog, bind_awaitFetch. cbn [world console].
    by rewrite Hfetch.
  - intros response w' Hfetch Hok. unfold scrapeStandings.
    rewrite bind_consoleLog, bind_awaitFetch. cbn [world console].
    by rewrite Hfetch, Hok.
Qed.

(** X8.  The date of a snapshot is the day of the clock when the scraper is
    done: the text before the first [T] of the time read in the world that
    the scraper leaves, after all its requests. *)
Theorem snapshot_date_is_day_of_clock (rt : Runtime World) :
  (forall snap rt' day time,
     scrapeStandings fetch toISOString rt = (Normal snap, rt') ->
     toISOString (world rt') = day +:+ String "T" time ->
     forallb (fun c => negb (Ascii.eqb c "T")) (list_ascii_of_string day) = true ->
     date snap = day)
  /\ (forall snap rt' day time,
        scrapePlayerStats fetch toISOString rt = (Normal snap, rt') ->
        toISOString (world rt') = day +:+ String "T" time ->
        forallb (fun c => negb (Ascii.eqb c "T")) (list_ascii_of_string day) = true ->
        date snap = day)
  /\ (forall snap rt' day time,
        scrapeGoalieStats fetch toISOString rt = (Normal snap, rt') ->
        toISOString (world rt') = day +:+ String "T" time ->
        forallb (fun c => negb (Ascii.eqb c "T")) (list_ascii_of_string day) = true ->
        date snap = day).
Proof.
  split; [|split]; intros snap rt' day time Hrun Hclock Hday.
  - rewrite (scrapeStandings_date _ _ _ Hrun), Hclock. by apply split_head.
  - rewrite (scrapePlayerStats_date _ _ _ Hrun), Hclock. by apply split_head.
  - rewrite (scrapeGoalieStats_date _ _ _ Hrun), Hclock. by apply split_head.
Qed.

End Outcomes.

Lemma standings_failure_propagates_witness :
  scrapeStandings (Samples.cannedFetch outageServer) Samples.noon Samples.start
  = (Throw (mkError "Failed to fetch standings: 503 Service Unavailable"),
     mkRuntime [HNA_STANDINGS_URL]
       [ConsoleLog "Fetching HNA standings page..."]).
Proof.
  apply (proj2 (standings_failure_propagates (Samples.cannedFetch outageServer)
                  Samples.noon Samples.start)
           (mkResponse false 503 "Service Unavailable" (Samples.document []))
           [HNA_STANDINGS_URL]).
  - reflexivity.
  - reflexivity.
Defined.

Lemma snapshot_date_is_day_of_clock_witness :
  exists snap rt',
    scrapeGoalieStats (Samples.cannedFetch Samples.goalieServer) Samples.noon
      Samples.start = (Normal snap, rt')
    /\ date snap = "2024-12-15".
Proof.
  remember (scrapeGoalieStats (Samples.cannedFetch Samples.goalieServer)
              Samples.noon Samples.start) as run eqn:Hrun.
  destruct run as [[snap|e] rt'].
  - exists snap, rt'. split; [reflexivity|].
    apply (proj2 (proj2 (snapshot_date_is_day_of_clock
                           (Samples.cannedFetch Samples.goalieServer)
                           Samples.noon Samples.start))
             snap rt' "2024-12-15" "12:00:00.000Z").
    + symmetry. exact Hrun.
    + reflexivity.
    + reflexivity.
  - exfalso. vm_compute in Hrun. discriminate Hrun.
Defined.

(** *** The requests that the scrapers make *)

Ltac step_loop val Hbody :=
  unfold forEach;
  let loop := fresh "loop" in
  let Hloop := fresh "Hloop" in
  let Hrun := fresh "Hrun" in
  let cons' := fresh "cons'" in
  match goal with
  | |- context [forEachFrom 0%nat ?f DIVISION_NAMES ∅] =>
      pose proof (forEachFrom_assemble f val Hbody DIVISION_NAMES 0%nat ∅)
        as Hloop;
      set (loop := forEachFrom 0%nat f DIVISION_NAMES ∅) in *
  end;
  unfold mbind, Async_bind, mret, Async_ret, consoleLog, getTodayISO;
  cbv beta iota; cbn [world console];
  match goal with
  | |- context [loop ?rt1] =>
      destruct (Hloop rt1) as [cons' Hrun]; cbn [world console] in Hrun;
      rewrite Hrun
  end;
  cbv beta iota.

Section Requests.

Context {World : Type}.
Variable fetch : string -> World -> FetchResult * World.
Variable toISOString : World * list string -> string.

Lemma scrapeStandings_world (rt : Runtime (World * list string)) :
  world (snd (scrapeStandings (recording fetch) toISOString rt))
  = snd (recording fetch HNA_STANDINGS_URL (world rt)).
Proof.
  unfold scrapeStandings. rewrite bind_consoleLog, bind_awaitFetch.
  cbn [world console].
  destruct (recording fetch HNA_STANDINGS_URL (world rt)) as [[e|response] w'];
    [done|].
  destruct (ok response); cbn [negb]; [|done].
  cbv zeta. rewrite !bind_consoleLog.
  step_loop
    (fun (_ : string) index (w : World * list string) =>
       (standingsOfDivision
          (standingsTables (Cheerio.load (body response))) index, w))
    (fun name i m rt =>
       standings_body (World := World * list string)
         (standingsTables (Cheerio.load (body response))) name i m rt).
  cbn [snd world].
  apply assemble_pure_world.
Qed.

(** X7.  Each scraper asks the network for its pages once and in a fixed
    order, whatever the answers are: the stats scrapers request the page of
    each of the four divisions, in the order of the division names, a
    failed division neither stopping nor repeating the requests; the
    standings scraper requests the one standings page. *)
Theorem requests_once_in_order (w : World) (console : list ConsoleEntry) :
  snd (world (snd (scrapePlayerStats (recording fetch) toISOString
                     (mkRuntime (w, []) console))))
  = map playerStatsUrl DIVISION_NAMES
  /\ snd (world (snd (scrapeGoalieStats (recording fetch) toISOString
                        (mkRuntime (w, []) console))))
     = map buildGoalieStatsUrl DIVISION_NAMES
  /\ snd (world (snd (scrapeStandings (recording fetch) toISOString
                        (mkRuntime (w, []) console))))
     = [HNA_STANDINGS_URL].
Proof.
  split; [|split].
  - destruct (scrapePlayerStats_run (recording fetch) toISOString
                (mkRuntime (w, []) console)) as (today & cons' & ->).
    cbn [snd world]. apply (assemble_recording fetch).
  - destruct (scrapeGoalieStats_run (recording fetch) toISOString
                (mkRuntime (w, []) console)) as (today & cons' & ->).
    cbn [snd world]. apply (assemble_recording fetch).
  - rewrite scrapeStandings_world. cbn [world]. unfold recording. simpl.
    by destruct (fetch HNA_STANDINGS_URL w).
Qed.

End Requests.

(** *** A standings page without standings *)

(** X9.  When the standings page is fetched with an ok response and none of
    its tables looks like standings, [scrapeStandings] still returns a
    snapshot, in which each of the four divisions is empty; no error is
    raised. *)
Theorem standings_without_tables_empty {World : Type}
  (fetch : string -> World -> FetchResult * World)
  (toISOString : World -> string) (rt : Runtime World) response w' :
  fetch HNA_STANDINGS_URL (world rt) = (Resolved response, w') ->
  ok response = true ->
  standingsTables (Cheerio.load (body response)) = [] ->
  exists snap rt',
    scrapeStandings fetch toISOString rt = (Normal snap, rt')
    /\ forall name, In name DIVISION_NAMES -> divisions snap !! name = Some [].
Proof.
  intros Hfetch Hok Hnone.
  pose proof (scrapeStandings_run fetch toISOString rt) as Hrun.
  rewrite Hfetch, Hok, Hnone in Hrun. destruct Hrun as (today & rt' & Hrun).
  eexists _, rt'. split; [exact Hrun|].
  intros name Hname. cbn [divisions]. apply foldl_put_lookup.
  - rewrite assemble_names. apply NoDup_DIVISION_NAMES.
  - cbn [assemble DIVISION_NAMES fst]. unfold standingsOfDivision. simpl.
    simpl in Hname. destruct Hname as [<-|[<-|[<-|[<-|[]]]]]; tauto.
Qed.

Lemma standings_without_tables_empty_witness :
  exists snap rt',
    scrapeStandings
      (Samples.cannedFetch (fun _ => Samples.page200 layoutOnlyPage))
      Samples.noon Samples.start = (Normal snap, rt')
    /\ forall name, In name DIVISION_NAMES -> divisions snap !! name = Some [].
Proof.
  apply (standings_without_tables_empty
           (Samples.cannedFetch (fun _ => Samples.page200 layoutOnlyPage))
           Samples.noon Samples.start
           (mkResponse true 200 "OK" layoutOnlyPage) [HNA_STANDINGS_URL]).
  - reflexivity.
  - reflexivity.
  - vm_compute. reflexivity.
Defined.

(* ===================================================================== *)
(** ** Properties of the sampling of snapshots *)
(* ===================================================================== *)

Lemma roundedStep_first n t : 2 <= t -> roundedStep 0 n t = 0.
Proof.
  intros Ht. unfold roundedStep. apply Z.div_small. lia.
Qed.

Lemma roundedStep_last n t : 2 <= t -> roundedStep (t - 1) n t = n - 1.
Proof.
  intros Ht. unfold roundedStep.
  replace (2 * (t - 1) * (n - 1) + (t - 1))
    with ((t - 1) + (n - 1) * (2 * (t - 1))) by ring.
  rewrite Z.div_add by lia. rewrite Z.div_small by lia. lia.
Qed.

Lemma roundedStep_next i n t :
  2 <= t -> t < n -> 0 <= i ->
  roundedStep i n t + 1 <= roundedStep (i + 1) n t.
Proof.
  intros Ht Hn Hi. unfold roundedStep.
  replace (roundedStep i n t + 1) with (roundedStep i n t + 1) by done.
  rewrite <- (Z.div_add _ 1 (2 * (t - 1))) by lia.
  apply Z.div_le_mono; [lia|]. nia.
Qed.

Lemma roundedStep_nonneg i n t :
  2 <= t -> 1 <= n -> 0 <= i -> 0 <= roundedStep i n t.
Proof.
  intros Ht Hn Hi. unfold roundedStep. apply Z.div_pos; [nia|lia].
Qed.

Lemma roundedStep_increasing n t :
  2 <= t -> t < n ->
  forall i j, (i < j)%nat ->
    roundedStep (Z.of_nat i) n t < roundedStep (Z.of_nat j) n t.
Proof.
  intros Ht Hn i j Hij. induction Hij as [|j Hij IH].
  - pose proof (roundedStep_next (Z.of_nat i) n t Ht Hn ltac:(lia)) as H.
    replace (Z.of_nat (S i)) with (Z.of_nat i + 1) by lia. lia.
  - pose proof (roundedStep_next (Z.of_nat j) n t Ht Hn ltac:(lia)) as H.
    replace (Z.of_nat (S j)) with (Z.of_nat j + 1) by lia. lia.
Qed.

Lemma sublist_increasing {T} (d : T) l :
  forall k indices,
    StronglySorted lt indices ->
    Forall (fun i => k <= i < k + List.length l)%nat indices ->
    map (fun i => nth (i - k) l d) indices `sublist_of` l.
Proof.
  induction l as [|x l IH]; intros k indices Hsorted Hrange.
  - destruct indices as [|i indices]; [constructor|].
    inversion Hrange; subst. simpl in *. lia.
  - destruct indices as [|i indices]; [apply sublist_nil_l|].
    inversion Hsorted as [|? ? Hsorted' Hhead]; subst.
    inversion Hrange as [|? ? Hi Hrange']; subst.
    assert (Hrest : Forall (fun j => S k <= j < S k + List.length l)%nat indices).
    { apply List.Forall_forall. intros j Hj.
      rewrite List.Forall_forall in Hhead, Hrange'.
      specialize (Hhead j Hj). specialize (Hrange' j Hj). simpl in *. lia. }
    assert (Hshift : forall js,
               Forall (fun j => S k <= j)%nat js ->
               map (fun i => nth (i - k) (x :: l) d) js
               = map (fun i => nth (i - S k) l d) js).
    { intros js Hjs. apply map_ext_in. intros j Hj.
      rewrite List.Forall_forall in Hjs. specialize (Hjs j Hj).
      replace (j - k)%nat with (S (j - S k)) by lia. done. }
    destruct (decide (i = k)) as [->|Hne].
    + cbn [map]. rewrite Nat.sub_diag. cbn [nth].
      rewrite Hshift by (eapply Forall_impl; [exact Hrest|]; simpl; lia).
      apply sublist_skip. by apply IH.
    + apply sublist_cons.
      rewrite (Hshift (i :: indices)).
      * apply IH; [done|]. constructor; [simpl in *; lia|done].
      * constructor; [simpl in *; lia|].
        eapply Forall_impl; [exact Hrest|]. simpl. lia.
Qed.

Section SamplingFacts.

Context {T : Type} `{EqDecision T}.
Variable undefined : T.

Implicit Types items : list T.

Lemma item_nth items (i : nat) :
  item undefined items (Z.of_nat i) = nth i items undefined.
Proof.
  unfold item. destruct (Z.ltb_spec (Z.of_nat i) 0); [lia|].
  by rewrite Nat2Z.id.
Qed.

(** Beyond the target, the sample reads the items at the rounded multiples
    of the step, the first and the last included. *)
Lemma sampleToCount_indices items t :
  2 <= t -> t < Z.of_nat (List.length items) ->
  sampleToCount undefined items t
  = map (fun i =>
           nth (Z.to_nat (roundedStep (Z.of_nat i) (Z.of_nat (List.length items)) t))
             items undefined)
      (seq 0 (Z.to_nat t)).
Proof.
  intros Ht Hn. unfold sampleToCount.
  destruct (Z.leb_spec (Z.of_nat (List.length items)) t); [lia|].
  set (n := Z.of_nat (List.length items)) in *.
  replace (Z.to_nat t) with (S (Z.to_nat (t - 2) + 1)) by lia.
  cbn [seq map]. rewrite seq_app, map_app. cbn [seq map].
  change (Z.of_nat 0) with 0.
  rewrite (roundedStep_first n t Ht).
  replace (Z.of_nat (1 + Z.to_nat (t - 2))) with (t - 1) by lia.
  rewrite (roundedStep_last n t Ht).
  cbn [app]. f_equal. f_equal.
  - apply map_ext_in. intros i Hi. apply in_seq in Hi.
    pose proof (roundedStep_nonneg (Z.of_nat i) n t Ht ltac:(lia) ltac:(lia)).
    unfold item.
    by destruct (Z.ltb_spec (roundedStep (Z.of_nat i) n t) 0); [lia|].
  - unfold item. by destruct (Z.ltb_spec (n - 1) 0); [lia|].
Qed.

Lemma sampleToCount_sublist items t :
  2 <= t -> sampleToCount undefined items t `sublist_of` items.
Proof.
  intros Ht.
  destruct (Z.leb_spec (Z.of_nat (List.length items)) t) as [Hle|Hlt].
  - unfold sampleToCount.
    by destruct (Z.leb_spec (Z.of_nat (List.length items)) t); [|lia].
  - rewrite sampleToCount_indices by done.
    set (n := Z.of_nat (List.length items)) in *.
    rewrite <- (map_map (fun i => Z.to_nat (roundedStep (Z.of_nat i) n t))
                  (fun k => nth k items undefined)).
    rewrite (map_ext (fun k => nth k items undefined)
               (fun k => nth (k - 0) items undefined))
      by (intros; by rewrite Nat.sub_0_r).
    apply sublist_increasing.
    + assert (Hgen : forall k a,
                 (a + k <= Z.to_nat t)%nat ->
                 StronglySorted lt
                   (map (fun i => Z.to_nat (roundedStep (Z.of_nat i) n t)) (seq a k))).
      { induction k as [|k IH]; intros a Ha; cbn [seq map]; constructor.
        - apply IH. lia.
        - apply List.Forall_forall. intros x Hx.
          apply in_map_iff in Hx as (j & <- & Hj). apply in_seq in Hj.
          pose proof (roundedStep_increasing n t Ht Hlt a j ltac:(lia)).
          pose proof (roundedStep_nonneg (Z.of_nat a) n t Ht ltac:(lia) ltac:(lia)).
          lia. }
      apply Hgen. lia.
    + apply List.Forall_forall. intros x Hx.
      apply in_map_iff in Hx as (j & <- & Hj). apply in_seq in Hj.
      pose proof (roundedStep_nonneg (Z.of_nat j) n t Ht ltac:(lia) ltac:(lia)).
      pose proof (roundedStep_last n t Ht) as Hlast.
      assert (roundedStep (Z.of_nat j) n t <= n - 1).
      { destruct (decide (Z.of_nat j = t - 1)) as [->|Hne]; [lia|].
        pose proof (roundedStep_increasing n t Ht Hlt j (Z.to_nat (t - 1))
                      ltac:(lia)) as Hinc.
        rewrite Z2Nat.id in Hinc by lia. lia. }
      subst n. lia.
Qed.

Lemma list_pair_ind (P : list T -> Prop) :
  P [] -> (forall x, P [x]) -> (forall x y l, P l -> P (x :: y :: l)) ->
  forall l, P l.
Proof.
  intros Hnil Hone Hstep l.
  assert (H2 : P l /\ forall x, P (x :: l)); [|tauto].
  induction l as [|y l [IH1 IH2]]; [by split|].
  split; [apply IH2|]. intros x. by apply Hstep.
Qed.

Lemma item_last items :
  item undefined items (Z.of_nat (List.length items) - 1)
  = default undefined (last items).
Proof.
  destruct items as [|x items] using rev_ind; [done|].
  rewrite last_snoc, length_app. simpl.
  replace (Z.of_nat (List.length items + 1) - 1)
    with (Z.of_nat (List.length items)) by lia.
  rewrite item_nth, app_nth2 by lia. by rewrite Nat.sub_diag.
Qed.

Lemma everyOther_sublist items : everyOther items `sublist_of` items.
Proof.
  induction items as [| x | x y items IH] using list_pair_ind; simpl.
  - constructor.
  - done.
  - apply sublist_skip. by apply sublist_cons.
Qed.

Lemma everyOther_length items :
  List.length (everyOther items) = Nat.div2 (S (List.length items)).
Proof.
  induction items as [| x | x y items IH] using list_pair_ind; simpl; try done.
  by rewrite IH.
Qed.

Lemma everyOther_head items : head (everyOther items) = head items.
Proof. by destruct items. Qed.

Lemma everyOther_nonempty items : items <> [] -> everyOther items <> [].
Proof. by destruct items. Qed.

Lemma last_cons_nonempty (x : T) l : l <> [] -> last (x :: l) = last l.
Proof. by destruct l. Qed.

Lemma everyOther_last_odd items :
  Nat.even (List.length items) = false -> last (everyOther items) = last items.
Proof.
  induction items as [| x | x y items IH] using list_pair_ind; try done.
  intros Hodd. change (Nat.even (List.length items) = false) in Hodd.
  assert (items <> []) by (intros ->; discriminate Hodd).
  change (everyOther (x :: y :: items)) with (x :: everyOther items).
  rewrite (last_cons_nonempty x) by (by apply everyOther_nonempty).
  rewrite IH by done.
  rewrite (last_cons_nonempty x) by done.
  by rewrite (last_cons_nonempty y).
Qed.

Lemma everyOther_with_last items x :
  Nat.even (List.length items) = true -> last items = Some x ->
  everyOther items ++ [x] `sublist_of` items
  /\ (NoDup items -> last (everyOther items) <> Some x).
Proof.
  induction items as [| y | y z items IH] using list_pair_ind; try done.
  intros Heven Hlast. change (Nat.even (List.length items) = true) in Heven.
  destruct items as [|w items].
  - simpl in Hlast. injection Hlast as ->. split; [done|].
    intros Hnd. simpl. apply NoDup_cons in Hnd as [Hin _].
    intros [= ->]. apply Hin. by apply list_elem_of_singleton.
  - rewrite !last_cons_nonempty in Hlast by done.
    destruct (IH Heven Hlast) as [Hsub Hne]. split.
    + change (everyOther (y :: z :: w :: items))
        with (y :: everyOther (w :: items)).
      cbn [app]. apply sublist_skip. by apply sublist_cons.
    + intros Hnd.
      change (everyOther (y :: z :: w :: items))
        with (y :: everyOther (w :: items)).
      rewrite last_cons_nonempty by (by apply everyOther_nonempty).
      apply Hne. apply NoDup_cons in Hnd as [_ Hnd].
      by apply NoDup_cons in Hnd as [_ Hnd].
Qed.

Lemma sampleToCount_ends items t :
  items <> [] ->
  head (sampleToCount undefined items t) = head items
  /\ last (sampleToCount undefined items t) = last items.
Proof.
  intros Hne. unfold sampleToCount.
  destruct (_ <=? t)%Z; [done|]. split.
  - destruct items; [done|]. done.
  - rewrite app_assoc, last_snoc, item_last.
    destruct (last items) eqn:Hlast; [done|].
    by apply last_None in Hlast.
Qed.

Lemma sampleToCount_length items t :
  2 <= t ->
  Z.of_nat (List.length (sampleToCount undefined items t))
  = Z.min (Z.of_nat (List.length items)) t.
Proof.
  intros Ht.
  destruct (Z.leb_spec (Z.of_nat (List.length items)) t) as [Hle|Hlt].
  - unfold sampleToCount.
    destruct (Z.leb_spec (Z.of_nat (List.length items)) t); [lia|lia].
  - rewrite sampleToCount_indices by done.
    rewrite length_map, length_seq. lia.
Qed.

(** X10.  On a desktop the sample keeps every snapshot when there are at
    most 28, and has exactly 28 points when there are more. *)
Theorem desktop_sample_size (snapshots : list T) :
  Z.of_nat (List.length (sampleSnapshots undefined snapshots false))
  = Z.min (Z.of_nat (List.length snapshots)) DESKTOP_MAX_POINTS
  /\ (Z.of_nat (List.length snapshots) <= DESKTOP_MAX_POINTS ->
      sampleSnapshots undefined snapshots false = snapshots).
Proof.
  unfold sampleSnapshots, DESKTOP_MAX_POINTS.
  destruct (Nat.eqb_spec (List.length snapshots) 0) as [Hz|Hnz]; cbn [negb].
  - rewrite Hz. split; [done|done].
  - split; [by apply sampleToCount_length|].
    intros Hle. unfold sampleToCount.
    by destruct (Z.leb_spec (Z.of_nat (List.length snapshots)) 28); [|lia].
Qed.

(** X11.  A sample is a selection of the snapshots in their order: it is
    obtained from the list by deleting items, so no snapshot is moved,
    repeated or made up. *)
Theorem sample_is_sublist (snapshots : list T) (isMobile : bool) :
  sampleSnapshots undefined snapshots isMobile `sublist_of` snapshots.
Proof.
  unfold sampleSnapshots.
  destruct (List.length snapshots =? 0)%nat; [done|].
  pose proof (sampleToCount_sublist snapshots DESKTOP_MAX_POINTS ltac:(done))
    as Hdesktop.
  destruct isMobile; cbn [negb]; [|done].
  destruct (_ <=? MOBILE_MAX_POINTS)%Z; [done|].
  set (desktop := sampleToCount undefined snapshots DESKTOP_MAX_POINTS) in *.
  case_bool_decide as Hlast; [|by etransitivity; [apply everyOther_sublist|]].
  etransitivity; [|exact Hdesktop].
  rewrite !item_last in Hlast. rewrite item_last.
  destruct (Nat.even (List.length desktop)) eqn:Hparity.
  - destruct (last desktop) as [x|] eqn:Hx.
    + by destruct (everyOther_with_last desktop x Hparity Hx).
    + apply last_None in Hx. rewrite Hx in Hlast. done.
  - by rewrite everyOther_last_odd in Hlast.
Qed.

(** X12.  A sample of a list that is not empty begins with the first
    snapshot and ends with the last one, on a desktop and on a mobile. *)
Theorem sample_keeps_ends (snapshots : list T) (isMobile : bool) :
  snapshots <> [] ->
  head (sampleSnapshots undefined snapshots isMobile) = head snapshots
  /\ last (sampleSnapshots undefined snapshots isMobile) = last snapshots.
Proof.
  intros Hne. unfold sampleSnapshots.
  destruct (List.length snapshots =? 0)%nat; [done|].
  destruct (sampleToCount_ends snapshots DESKTOP_MAX_POINTS Hne) as [Hhead Hlast].
  destruct isMobile; cbn [negb]; [|done].
  destruct (_ <=? MOBILE_MAX_POINTS)%Z; [done|].
  set (desktop := sampleToCount undefined snapshots DESKTOP_MAX_POINTS) in *.
  assert (Hd : desktop <> []).
  { intros Hd. rewrite Hd in Hhead. by destruct snapshots. }
  rewrite !item_last.
  destruct (last desktop) as [z|] eqn:Hz; [|by apply last_None in Hz].
  pose proof (everyOther_nonempty desktop Hd) as Hm.
  case_bool_decide as Hcond.
  - split.
    + rewrite <- Hhead, <- (everyOther_head desktop).
      by destruct (everyOther desktop).
    + by rewrite last_snoc, <- Hlast.
  - split; [by rewrite everyOther_head|].
    rewrite <- Hlast. simpl in Hcond.
    destruct (last (everyOther desktop)) as [y|] eqn:Hy.
    + simpl in Hcond. by rewrite Hcond.
    + by apply last_None in Hy.
Qed.

(** X13.  On a mobile the sample never has more than 15 points, and for 28
    or more snapshots that are pairwise different it has exactly 15: one
    more than [MOBILE_MAX_POINTS]. *)
Theorem mobile_sample_size (snapshots : list T) :
  (List.length (sampleSnapshots undefined snapshots true) <= 15)%nat
  /\ (NoDup snapshots ->
      (28 <= List.length snapshots)%nat ->
      List.length (sampleSnapshots undefined snapshots true) = 15%nat).
Proof.
  unfold sampleSnapshots.
  destruct (Nat.eqb_spec (List.length snapshots) 0) as [Hz|Hnz].
  - rewrite Hz. split; [lia|lia].
  - cbn [negb].
    pose proof (sampleToCount_length snapshots DESKTOP_MAX_POINTS ltac:(done))
      as Hlen.
    pose proof (sampleToCount_sublist snapshots DESKTOP_MAX_POINTS ltac:(done))
      as Hsub.
    set (desktop := sampleToCount undefined snapshots DESKTOP_MAX_POINTS) in *.
    unfold DESKTOP_MAX_POINTS, MOBILE_MAX_POINTS in *.
    assert (Hhalf : (List.length (everyOther desktop) <= 14)%nat).
    { rewrite everyOther_length.
      assert (List.length desktop <= 28)%nat as Hd by lia.
      revert Hd. generalize (List.length desktop). intros n Hn.
      do 29 (destruct n as [|n]; [simpl; lia|]). lia. }
    split.
    + destruct (Z.leb_spec (Z.of_nat (List.length desktop)) 14); [lia|].
      case_bool_decide; [|lia]. rewrite length_app. simpl. lia.
    + intros Hnd Hmany.
      assert (Hd : List.length desktop = 28%nat) by lia.
      destruct (Z.leb_spec (Z.of_nat (List.length desktop)) 14); [lia|].
      rewrite !item_last.
      destruct (last desktop) as [z|] eqn:Hz;
        [|apply last_None in Hz; by rewrite Hz in Hd].
      destruct (everyOther_with_last desktop z) as [_ Hdiff];
        [by rewrite Hd|done|].
      specialize (Hdiff (sublist_NoDup _ _ Hnd Hsub)).
      assert (Hm : List.length (everyOther desktop) = 14%nat)
        by (by rewrite everyOther_length, Hd).
      case_bool_decide as Hcond.
      * rewrite length_app, Hm. done.
      * exfalso. apply Hdiff.
        destruct (last (everyOther desktop)) as [y|] eqn:Hy.
        -- simpl in Hcond. by rewrite Hcond.
        -- apply last_None in Hy. by rewrite Hy in Hm.
Qed.

End SamplingFacts.

Lemma sample_keeps_ends_witness :
  head (sampleSnapshots 0%nat (seq 1 60) true) = Some 1%nat
  /\ last (sampleSnapshots 0%nat (seq 1 60) true) = Some 60%nat.
Proof.
  apply (sample_keeps_ends 0%nat (seq 1 60) true). discriminate.
Defined.

Lemma mobile_sample_size_witness :
  List.length (sampleSnapshots 0%nat (seq 1 60) true) = 15%nat.
Proof.
  apply (proj2 (mobile_sample_size 0%nat (seq 1 60))).
  - apply NoDup_seq.
  - simpl. lia.
Defined.

Lemma desktop_sample_size_witness :
  sampleSnapshots 0%nat (seq 1 20) false = seq 1 20.
Proof.
  apply (proj2 (desktop_sample_size 0%nat (seq 1 20))). vm_compute. discriminate.
Defined.

(* ===================================================================== *)
(** ** Properties of the index of snapshots *)
(* ===================================================================== *)

Lemma includes_In date dates :
  existsb (String.eqb date) dates = true <-> In date dates.
Proof. apply hasClass_In. Qed.

Lemma insertSorted_Permutation {A} (c : A -> A -> Z) x l :
  Permutation (insertSorted c x l) (x :: l).
Proof.
  induction l as [|y l IH]; simpl; [done|].
  destruct (c x y <? 0)%Z; [done|].
  rewrite IH. apply perm_swap.
Qed.

Lemma sort_Permutation {A} (c : A -> A -> Z) l : Permutation (sort c l) l.
Proof.
  unfold sort.
  assert (Hgen : forall acc,
             Permutation (fold_left (fun s x => insertSorted c x s) l acc)
               (acc ++ l)); [|apply (Hgen [])].
  induction l as [|x l IH]; intros acc; simpl.
  - by rewrite app_nil_r.
  - rewrite IH, insertSorted_Permutation. simpl. apply Permutation_middle.
Qed.



Lemma withDate_listed (localeCompare : string -> string -> Z) date dates :
  In date dates -> withDate localeCompare date dates = dates.
Proof.
  intros H. unfold withDate. by rewrite (proj2 (includes_In date dates) H).
Qed.

Lemma withDate_new (localeCompare : string -> string -> Z) date dates :
  ~ In date dates ->
  Permutation (withDate localeCompare date dates) (date :: dates).
Proof.
  intros H. unfold withDate.
  destruct (existsb (String.eqb date) dates) eqn:Hex;
    [by apply includes_In in Hex|].
  rewrite sort_Permutation. symmetry. apply Permutation_cons_append.
Qed.

Lemma withDate_In (localeCompare : string -> string -> Z) date dates :
  In date (withDate localeCompare date dates).
Proof.
  destruct (in_dec string_dec date dates) as [Hd|Hd].
  - by rewrite withDate_listed.
  - apply (Permutation_in _ (Permutation_sym (withDate_new _ _ _ Hd))).
    simpl. tauto.
Qed.






(** *** Saving and loading *)

Section PersistenceFacts.

Context {World : Type}.
Variable existsSync : string -> World -> bool.
Variable readFileSync : string -> World -> Completion string * World.
Variable writeFileSync : string -> string -> World -> Completion unit * World.
Variable toISOString : World -> string.
Variable join : string -> string -> string.
Variable DATA_DIR : string.
Variable localeCompare : string -> string -> Z.
Variable parse : string -> Completion Index.SnapshotIndex.
Variable stringifyIndex : Index.SnapshotIndex -> string.

Ltac run_fs := cbv beta iota zeta delta [world console].

Ltac unfold_save :=
  unfold saveSnapshotTo, loadIndexFrom, mbind, Async_bind, mret, Async_ret,
    fsWrite, fsRead, fsExists, jsonParse, nowISO, consoleLog;
  run_fs.

Lemma saveSnapshotTo_file_exists {R} (stringify : Snapshot R -> string)
  dir indexFile saved updated (snapshot : Snapshot R) rt rt' :
  keepsFiles existsSync readFileSync writeFileSync ->
  saveSnapshotTo existsSync readFileSync writeFileSync toISOString join
    localeCompare parse stringifyIndex stringify dir indexFile saved updated
    snapshot rt = (Normal tt, rt') ->
  existsSync (join dir (date snapshot +:+ ".json")) (world rt') = true.
Proof.
  intros (Hnew & Hwrite & Hread). destruct rt as [w0 log]. unfold_save.
  destruct (writeFileSync (join dir _) _ w0) as [[[]|e] w1] eqn:Hw1;
    run_fs; [|done].
  pose proof (Hnew _ _ _ _ Hw1) as Hfile.
  destruct (existsSync indexFile w1); run_fs.
  - destruct (readFileSync indexFile w1) as [[content|e] w2] eqn:Hr;
      run_fs; [|done].
    pose proof (Hread _ _ _ _ _ Hr Hfile) as Hfile2.
    destruct (parse content) as [index|e]; run_fs; [|done].
    destruct (writeFileSync indexFile _ w2) as [[[]|e] w3] eqn:Hw3;
      run_fs; [|done].
    intros [= <-]. run_fs. by apply (Hwrite _ _ _ _ _ _ Hw3).
  - destruct (writeFileSync indexFile _ w1) as [[[]|e] w3] eqn:Hw3;
      run_fs; [|done].
    intros [= <-]. run_fs. by apply (Hwrite _ _ _ _ _ _ Hw3).
Qed.

Lemma saveSnapshotTo_indexed {R} (stringify : Snapshot R -> string)
  dir indexFile saved updated (snapshot : Snapshot R) rt rt' :
  readsWhatWasWritten existsSync readFileSync writeFileSync ->
  (forall index, parse (stringifyIndex index) = Normal index) ->
  saveSnapshotTo existsSync readFileSync writeFileSync toISOString join
    localeCompare parse stringifyIndex stringify dir indexFile saved updated
    snapshot rt = (Normal tt, rt') ->
  exists index rt'',
    loadIndexFrom existsSync readFileSync toISOString parse indexFile rt'
    = (Normal index, rt'')
    /\ In (date snapshot) (Index.dates index).
Proof.
  intros Hfs Hjson. destruct rt as [w0 log]. unfold_save.
  destruct (writeFileSync (join dir _) _ w0) as [[[]|e] w1] eqn:Hw1;
    run_fs; [|done].
  destruct (existsSync indexFile w1); run_fs.
  - destruct (readFileSync indexFile w1) as [[content|e] w2] eqn:Hr;
      run_fs; [|done].
    destruct (parse content) as [index|e]; run_fs; [|done].
    destruct (writeFileSync indexFile _ w2) as [[[]|e] w3] eqn:Hw3;
      run_fs; [|done].
    intros [= <-]. run_fs.
    destruct (Hfs _ _ _ _ Hw3) as [-> [w4 ->]]. run_fs. rewrite Hjson.
    eexists _, _. split; [reflexivity|]. apply withDate_In.
  - destruct (writeFileSync indexFile _ w1) as [[[]|e] w3] eqn:Hw3;
      run_fs; [|done].
    intros [= <-]. run_fs.
    destruct (Hfs _ _ _ _ Hw3) as [-> [w4 ->]]. run_fs. rewrite Hjson.
    eexists _, _. split; [reflexivity|]. apply withDate_In.
Qed.

(** X16.  After a snapshot of any of the three kinds is saved without an
    error, the check for a snapshot of its date answers [true]; this holds
    for any file system in which a written file exists and reading or
    writing a file removes no other. *)
Theorem saved_snapshot_exists :
  keepsFiles existsSync readFileSync writeFileSync ->
  (forall stringify snapshot rt rt',
      saveSnapshot existsSync readFileSync writeFileSync toISOString join
        DATA_DIR localeCompare parse stringifyIndex stringify snapshot rt
      = (Normal tt, rt') ->
      snapshotExists existsSync join DATA_DIR (date snapshot) rt'
      = (Normal true, rt'))
  /\ (forall stringify snapshot rt rt',
      savePlayerStatsSnapshot existsSync readFileSync writeFileSync toISOString
        join DATA_DIR localeCompare parse stringifyIndex stringify snapshot rt
      = (Normal tt, rt') ->
      playerStatsSnapshotExists existsSync join DATA_DIR (date snapshot) rt'
      = (Normal true, rt'))
  /\ (forall stringify snapshot rt rt',
      saveGoalieStatsSnapshot existsSync readFileSync writeFileSync toISOString
        join DATA_DIR localeCompare parse stringifyIndex stringify snapshot rt
      = (Normal tt, rt') ->
      goalieStatsSnapshotExists existsSync join DATA_DIR (date snapshot) rt'
      = (Normal true, rt')).
Proof.
  intros Hfs.
  unfold snapshotExists, playerStatsSnapshotExists, goalieStatsSnapshotExists,
    fsExists.
  repeat split; intros stringify snapshot rt rt' Hrun;
    by rewrite (saveSnapshotTo_file_exists _ _ _ _ _ _ _ _ Hfs Hrun).
Qed.

(** X17.  After a snapshot of any of the three kinds is saved without an
    error, loading the index of that kind gives an index that lists the
    date of the snapshot; this holds when a written file exists and reads
    as it was written, and [JSON.parse] undoes [JSON.stringify] on
    indexes. *)
Theorem saved_date_is_indexed :
  readsWhatWasWritten existsSync readFileSync writeFileSync ->
  (forall index, parse (stringifyIndex index) = Normal index) ->
  (forall stringify snapshot rt rt',
      saveSnapshot existsSync readFileSync writeFileSync toISOString join
        DATA_DIR localeCompare parse stringifyIndex stringify snapshot rt
      = (Normal tt, rt') ->
      exists index rt'',
        loadIndex existsSync readFileSync toISOString join DATA_DIR parse rt'
        = (Normal index, rt'')
        /\ In (date snapshot) (Index.dates index))
  /\ (forall stringify snapshot rt rt',
      savePlayerStatsSnapshot existsSync readFileSync writeFileSync toISOString
        join DATA_DIR localeCompare parse stringifyIndex stringify snapshot rt
      = (Normal tt, rt') ->
      exists index rt'',
        loadPlayerStatsIndex existsSync readFileSync toISOString join DATA_DIR
          parse rt'
        = (Normal index, rt'')
        /\ In (date snapshot) (Index.dates index))
  /\ (forall stringify snapshot rt rt',
      saveGoalieStatsSnapshot existsSync readFileSync writeFileSync toISOString
        join DATA_DIR localeCompare parse stringifyIndex stringify snapshot rt
      = (Normal tt, rt') ->
      exists index rt'',
        loadGoalieStatsIndex existsSync readFileSync toISOString join DATA_DIR
          parse rt'
        = (Normal index, rt'')
        /\ In (date snapshot) (Index.dates index)).
Proof.
  intros Hfs Hjson.
  repeat split; intros stringify snapshot rt rt' Hrun;
    exact (saveSnapshotTo_indexed _ _ _ _ _ _ _ _ Hfs Hjson Hrun).
Qed.

(** X18.  When the index file exists and is not a JSON text of an index,
    saving a snapshot throws the error of [JSON.parse] after the snapshot
    file was written and its line logged: the snapshot file stays, and the
    index file is not written. *)
Theorem malformed_index_stops_save {R} (stringify : Snapshot R -> string)
  dir indexFile saved updated (snapshot : Snapshot R) rt w1 content w2 e :
  writeFileSync (join dir (date snapshot +:+ ".json")) (stringify snapshot)
    (world rt) = (Normal tt, w1) ->
  existsSync indexFile w1 = true ->
  readFileSync indexFile w1 = (Normal content, w2) ->
  parse content = Throw e ->
  saveSnapshotTo existsSync readFileSync writeFileSync toISOString join
    localeCompare parse stringifyIndex stringify dir indexFile saved updated
    snapshot rt
  = (Throw e,
     mkRuntime w2
       (console rt
        ++ [ConsoleLog (saved +:+ join dir (date snapshot +:+ ".json"))])).
Proof.
  destruct rt as [w0 log]. cbn [world console].
  intros Hw1 Hex Hr Hp. unfold_save.
  rewrite Hw1. run_fs. rewrite Hex, Hr. run_fs. by rewrite Hp.
Qed.

End PersistenceFacts.

Lemma bits_round_trip p : MemoryFS.ofBits (MemoryFS.bitsOf p) = Some p.
Proof. induction p as [p IH|p IH|]; simpl; by rewrite ?IH. Qed.

Lemma memory_json_round_trip index :
  MemoryFS.parse (MemoryFS.stringifyIndex index) = Normal index.
Proof.
  unfold MemoryFS.parse, MemoryFS.stringifyIndex.
  rewrite bits_round_trip. simpl. rewrite decode_encode. by destruct index.
Qed.

Lemma memory_reads_written :
  readsWhatWasWritten MemoryFS.existsSync MemoryFS.readFileSync
    MemoryFS.writeFileSync.
Proof.
  intros p c w w'.
  unfold MemoryFS.writeFileSync, MemoryFS.existsSync, MemoryFS.readFileSync.
  intros [= <-]. rewrite lookup_insert_eq. split; [|by eexists].
  apply bool_decide_eq_true. by eexists.
Qed.

Lemma memory_keeps_files :
  keepsFiles MemoryFS.existsSync MemoryFS.readFileSync MemoryFS.writeFileSync.
Proof.
  split; [|split].
  - intros p c w w' H. by destruct (memory_reads_written p c w w' H).
  - intros p c w r w' q.
    unfold MemoryFS.writeFileSync, MemoryFS.existsSync. intros [= <- <-].
    rewrite !bool_decide_eq_true. intros Hq.
    destruct (decide (p = q)) as [->|Hne].
    + rewrite lookup_insert_eq. by eexists.
    + by rewrite lookup_insert_ne.
  - intros p w r w' q.
    unfold MemoryFS.readFileSync. destruct (w !! p); by intros [= <- <-].
Qed.

Lemma saved_snapshot_exists_witness :
  let run := MemoryFS.save (MemoryFS.snapshotOf "2025-01-15")
               (mkRuntime MemoryFS.dataDirectory []) in
  run.1 = Normal tt
  /\ snapshotExists MemoryFS.existsSync MemoryFS.join "data" "2025-01-15" run.2
     = (Normal true, run.2).
Proof.
  cbv zeta.
  assert (Hrun : MemoryFS.save (MemoryFS.snapshotOf "2025-01-15")
                   (mkRuntime MemoryFS.dataDirectory [])
                 = (Normal tt,
                    (MemoryFS.save (MemoryFS.snapshotOf "2025-01-15")
                       (mkRuntime MemoryFS.dataDirectory [])).2))
    by (vm_compute; reflexivity).
  split; [by rewrite Hrun|].
  exact (proj1 (saved_snapshot_exists _ _ _ _ _ _ _ _ _ memory_keeps_files)
           _ (MemoryFS.snapshotOf "2025-01-15") _ _ Hrun).
Defined.

Lemma saved_date_is_indexed_witness :
  let run := MemoryFS.save (MemoryFS.snapshotOf "2025-01-15")
               (mkRuntime MemoryFS.dataDirectory []) in
  run.1 = Normal tt
  /\ exists index rt'',
       loadIndex MemoryFS.existsSync MemoryFS.readFileSync MemoryFS.clock
         MemoryFS.join "data" MemoryFS.parse run.2
       = (Normal index, rt'')
       /\ In "2025-01-15" (Index.dates index).
Proof.
  cbv zeta.
  assert (Hrun : MemoryFS.save (MemoryFS.snapshotOf "2025-01-15")
                   (mkRuntime MemoryFS.dataDirectory [])
                 = (Normal tt,
                    (MemoryFS.save (MemoryFS.snapshotOf "2025-01-15")
                       (mkRuntime MemoryFS.dataDirectory [])).2))
    by (vm_compute; reflexivity).
  split; [by rewrite Hrun|].
  exact (proj1 (saved_date_is_indexed _ _ _ _ _ _ _ _ _ memory_reads_written
                  memory_json_round_trip)
           _ (MemoryFS.snapshotOf "2025-01-15") _ _ Hrun).
Defined.

Lemma malformed_index_stops_save_witness :
  MemoryFS.save (MemoryFS.snapshotOf "2025-01-15")
    (mkRuntime MemoryFS.brokenIndex [])
  = (Throw (mkError "SyntaxError"),
     mkRuntime
       (<[MemoryFS.join (MemoryFS.join "data" "snapshots") "2025-01-15.json"
          := "2025-01-15"]> MemoryFS.brokenIndex)
       [ConsoleLog
          ("Saved snapshot to: "
           +:+ MemoryFS.join (MemoryFS.join "data" "snapshots")
                 "2025-01-15.json")]).
Proof.
  unfold MemoryFS.save, saveSnapshot, SNAPSHOTS_DIR, INDEX_FILE.
  eapply malformed_index_stops_save with (content := "not json");
    [reflexivity | by vm_compute | by vm_compute | by vm_compute].
Defined.
